(** * MovieShreddle: the poster-game session engine

    A shallow embedding of [poster-game.component.ts] (the session state
    machine, the guess evaluator, the title normalizer, the strip effect
    generator and the progress ledger kept in [localStorage]) and of the
    daily picker of [movie.service.ts], followed by the properties the
    specification states about them. *)

From stdpp Require Import base option list strings gmap.
From Stdlib Require Import ZArith NArith QArith Qround Lia ZifyBool Ascii.
From Stdlib Require Import Numbers.DecimalString Numbers.DecimalZ.

Local Open Scope Z_scope.

(* ===================================================================== *)
(** * JavaScript strings *)
(* ===================================================================== *)

(** Titles and guesses are arbitrary text, so they are modelled as the
    engine sees them: sequences of UTF-16 code units.  Storage keys and
    the values the component writes are ASCII and use [string]. *)

Module Js.

Abbreviation jsstring := (list N).

(** An ASCII literal as a sequence of code units. *)
Fixpoint js (s : string) : jsstring :=
  match s with
  | EmptyString => []
  | String c r => Ascii.N_of_ascii c :: js r
  end.

(** ECMAScript WhiteSpace and LineTerminator: the set removed by
    [String.prototype.trim] and matched by the regular expression
    class [\s]. *)
Definition isWhiteSpace (c : N) : bool :=
  ((0x09 <=? c) && (c <=? 0x0D) || (c =? 0x20) || (c =? 0xA0) || (c =? 0x1680)
   || (0x2000 <=? c) && (c <=? 0x200A) || (c =? 0x2028) || (c =? 0x2029)
   || (c =? 0x202F) || (c =? 0x205F) || (c =? 0x3000) || (c =? 0xFEFF))%N.

Fixpoint trimStart (s : jsstring) : jsstring :=
  match s with
  | [] => []
  | c :: r => if isWhiteSpace c then trimStart r else s
  end.

Definition trimEnd (s : jsstring) : jsstring := reverse (trimStart (reverse s)).

Definition trim (s : jsstring) : jsstring := trimEnd (trimStart s).

Definition isDigit (c : N) : bool := ((0x30 <=? c) && (c <=? 0x39))%N.
Definition isLowerAlpha (c : N) : bool := ((0x61 <=? c) && (c <=? 0x7A))%N.
Definition isAscii (c : N) : bool := (c <? 0x80)%N.

(** [s.startsWith(p)], used to match a literal alternative of a regular
    expression at the current position. *)
Fixpoint startsWith (p s : jsstring) : bool :=
  match p, s with
  | [], _ => true
  | _ :: _, [] => false
  | a :: p', b :: s' => (a =? b)%N && startsWith p' s'
  end.

(** [s.replace(pat, '')] with a string pattern: the first occurrence of
    [pat] is removed. *)
Fixpoint replaceFirst (pat s : jsstring) : jsstring :=
  if startsWith pat s then drop (length pat) s
  else match s with
       | [] => []
       | c :: r => c :: replaceFirst pat r
       end.

(** [s.substring(0, n)] *)
Definition substring0 (n : nat) (s : jsstring) : jsstring := take n s.

(** [a || b] on strings: the empty string is falsy. *)
Definition orElse (a b : jsstring) : jsstring :=
  match a with [] => b | _ => a end.

(** [a === b] on strings. *)
Definition streq (a b : jsstring) : bool := bool_decide (a = b).

Definition truthy (a : jsstring) : bool :=
  match a with [] => false | _ => true end.

(** ASCII lower-casing of one code unit. *)
Definition asciiToLower (c : N) : N :=
  if ((0x41 <=? c) && (c <=? 0x5A))%N then (c + 0x20)%N else c.

(** The two operations of the platform that depend on the Unicode
    character database. *)
Class UnicodeOps := {
  toLowerCase : jsstring → jsstring;
  normalizeNFD : jsstring → jsstring
}.

(** What the development relies on about them: on ASCII text,
    [toLowerCase] lower-cases A-Z and nothing else, and canonical
    decomposition changes nothing. *)
Record UnicodeLaws (U : UnicodeOps) : Prop := {
  toLowerCase_ascii :
    ∀ s, forallb isAscii s = true → toLowerCase s = map asciiToLower s;
  normalizeNFD_ascii :
    ∀ s, forallb isAscii s = true → normalizeNFD s = s
}.

(** One such platform, used to evaluate the definitions on examples: the
    table of Basic Latin and the Latin-1 Supplement.  It is exact on text
    within U+0000..U+00FF; code units above U+00FF pass through
    unchanged. *)
Definition latin1LowerUnit (c : N) : N :=
  if ((0x41 <=? c) && (c <=? 0x5A))%N then (c + 0x20)%N
  else if ((0xC0 <=? c) && (c <=? 0xDE) && negb (c =? 0xD7))%N then (c + 0x20)%N
  else c.

(** Canonical decompositions of the upper-case letters of the Latin-1
    Supplement: (letter, base letter, combining mark). *)
Definition latin1Decompositions : list (N * (N * N)) :=
  [ (0xC0, (0x41, 0x300)); (0xC1, (0x41, 0x301)); (0xC2, (0x41, 0x302));
    (0xC3, (0x41, 0x303)); (0xC4, (0x41, 0x308)); (0xC5, (0x41, 0x30A));
    (0xC7, (0x43, 0x327));
    (0xC8, (0x45, 0x300)); (0xC9, (0x45, 0x301)); (0xCA, (0x45, 0x302));
    (0xCB, (0x45, 0x308));
    (0xCC, (0x49, 0x300)); (0xCD, (0x49, 0x301)); (0xCE, (0x49, 0x302));
    (0xCF, (0x49, 0x308));
    (0xD1, (0x4E, 0x303));
    (0xD2, (0x4F, 0x300)); (0xD3, (0x4F, 0x301)); (0xD4, (0x4F, 0x302));
    (0xD5, (0x4F, 0x303)); (0xD6, (0x4F, 0x308));
    (0xD9, (0x55, 0x300)); (0xDA, (0x55, 0x301)); (0xDB, (0x55, 0x302));
    (0xDC, (0x55, 0x308)); (0xDD, (0x59, 0x301)) ]%N.

Fixpoint lookupDecomposition (c : N) (t : list (N * (N * N))) : option (N * N) :=
  match t with
  | [] => None
  | (k, d) :: r => if (k =? c)%N then Some d else lookupDecomposition c r
  end.

Definition latin1NfdUnit (c : N) : jsstring :=
  if (c =? 0xFF)%N then [0x79; 0x308]%N
  else if ((0xE0 <=? c) && (c <=? 0xFE))%N then
    match lookupDecomposition (c - 0x20) latin1Decompositions with
    | Some (b, m) => [(b + 0x20)%N; m]
    | None => [c]
    end
  else
    match lookupDecomposition c latin1Decompositions with
    | Some (b, m) => [b; m]
    | None => [c]
    end.

Definition latin1Ops : UnicodeOps := {|
  toLowerCase := map latin1LowerUnit;
  normalizeNFD := flat_map latin1NfdUnit
|}.

End Js.

Import Js.

(* ===================================================================== *)
(** * Title normalizer and guess evaluator *)
(* ===================================================================== *)

(** [Movie] of movie.service.ts, with the fields the component reads.
    [release_date] is read through [?.] and [original_name] through an
    [any] cast, so both may be absent. *)
Record Movie := {
  id : Z;
  title : jsstring;
  release_date : option jsstring;
  original_title : option jsstring;
  original_name : option jsstring
}.

Section Normalizer.
Context {U : UnicodeOps}.

(** [str.replace(/^l['`]/, '')] *)
Definition removeElision (s : jsstring) : jsstring :=
  match s with
  | l :: c :: r => if ((l =? 0x6C) && ((c =? 0x27) || (c =? 0x60)))%N then r else s
  | _ => s
  end.

(** The alternatives of the article pattern, in the order of the source. *)
Definition articles : list jsstring :=
  map js ["the"; "a"; "an"; "le"; "la"; "les"; "un"; "une"; "des"; "el";
          "los"; "las"; "il"; "lo"; "gli"; "i"]%string.

(** One alternative followed by [\s+], anchored at the start: the rest of
    the text after the match, if it matches. *)
Definition matchArticle (alt s : jsstring) : option jsstring :=
  if startsWith alt s then
    match drop (length alt) s with
    | c :: r => if isWhiteSpace c then Some (trimStart r) else None
    | [] => None
    end
  else None.

(** [str.replace(/^(the|a|an|...)\s+/, '')]: the alternatives are tried in
    order, the first that matches is removed together with the white space
    after it. *)
Fixpoint removeArticle (alts : list jsstring) (s : jsstring) : jsstring :=
  match alts with
  | [] => s
  | alt :: rest =>
      match matchArticle alt s with
      | Some r => r
      | None => removeArticle rest s
      end
  end.

Definition stripLeadingArticles (str : jsstring) : jsstring :=
  let trimmed := toLowerCase (trim str) in
  let withoutElision := removeElision trimmed in
  trim (removeArticle articles withoutElision).

(** [.replace(/[\u0300-\u036f]/g, '')] *)
Definition removeCombiningMarks (s : jsstring) : jsstring :=
  filter (λ c, negb ((0x300 <=? c) && (c <=? 0x36F))%N = true) s.

(** [.replace(/[^a-z0-9]/g, '')] *)
Definition keepAlphanumeric (s : jsstring) : jsstring :=
  filter (λ c, (isLowerAlpha c || isDigit c) = true) s.

Definition normalizeTitle (str : jsstring) (dropArticles : bool) : jsstring :=
  let base := if dropArticles then stripLeadingArticles str else str in
  keepAlphanumeric (removeCombiningMarks (normalizeNFD (toLowerCase base))).

(** [/(19|20)\d{2}/] matched at the start of [s]. *)
Definition yearAt (s : jsstring) : option jsstring :=
  match s with
  | a :: b :: c :: d :: _ =>
      if (((a =? 0x31) && (b =? 0x39) || (a =? 0x32) && (b =? 0x30))%N
          && isDigit c && isDigit d)
      then Some [a; b; c; d] else None
  | _ => None
  end.

(** [raw.match(/(19|20)\d{2}/)]: the leftmost match. *)
Fixpoint matchYear (s : jsstring) : option jsstring :=
  match yearAt s with
  | Some y => Some y
  | None => match s with
            | [] => None
            | _ :: r => matchYear r
            end
  end.

Definition isParen (c : N) : bool := ((c =? 0x28) || (c =? 0x29))%N.

(** [extractGuess]: the pair (title, year). *)
Definition extractGuess (raw : jsstring) : jsstring * jsstring :=
  let year := default [] (matchYear raw) in
  let title := if truthy year then replaceFirst year raw else raw in
  (trim (filter (λ c, negb (isParen c) = true) title), year).

(** [m.release_date?.substring(0, 4) || ''] *)
Definition yearOf (m : Movie) : jsstring :=
  match release_date m with
  | Some d => substring0 4 d
  | None => []
  end.

(** The computation of [isCorrect] in [validateGuess], for a raw guess
    that is not blank. *)
Definition isCorrectGuess (rawGuess : jsstring) (selectedMovie targetMovie : option Movie)
  : bool :=
  let '(guessTitle, guessYear) := extractGuess rawGuess in
  let targetTitle := from_option title [] targetMovie in
  let targetOriginalTitle :=
    match targetMovie with
    | Some t => orElse (default [] (original_title t)) (default [] (original_name t))
    | None => []
    end in
  let targetYear := from_option yearOf [] targetMovie in
  let guessYearMatches :=
    negb (truthy guessYear) || negb (truthy targetYear) || streq guessYear targetYear in
  match selectedMovie, targetMovie with
  | Some sel, Some tgt =>
      let selectedYear := yearOf sel in
      if bool_decide (id sel = id tgt) then true
      else if negb (truthy selectedYear) || negb (truthy targetYear)
              || streq selectedYear targetYear then
        let selectedTitle := normalizeTitle (title sel) false in
        let selectedTitleNoArticle := normalizeTitle (title sel) true in
        let targetTitleNorm := normalizeTitle targetTitle false in
        let targetTitleNoArticle := normalizeTitle targetTitle true in
        streq selectedTitle targetTitleNorm
        || streq selectedTitleNoArticle targetTitleNoArticle
      else false
  | _, _ =>
      let guessNorm := normalizeTitle guessTitle false in
      let guessNoArticle := normalizeTitle guessTitle true in
      let targetNorm := normalizeTitle targetTitle false in
      let targetNoArticle := normalizeTitle targetTitle true in
      let originalNorm := normalizeTitle targetOriginalTitle false in
      let originalNoArticle := normalizeTitle targetOriginalTitle true in
      guessYearMatches
      && (streq guessNorm targetNorm
          || (truthy originalNorm && streq guessNorm originalNorm)
          || streq guessNoArticle targetNoArticle
          || (truthy originalNoArticle && streq guessNoArticle originalNoArticle)
          || streq guessNorm (js "win"))
  end.

End Normalizer.


(* ===================================================================== *)
(** * Strip effect generator *)
(* ===================================================================== *)

(** [type StripEffect = '' | 'rotate180' | 'grayscale' | 'blackout'] *)
Inductive StripEffect := NoEffect | rotate180 | grayscale | blackout.

Global Instance StripEffect_eq_dec : EqDecision StripEffect.
Proof. solve_decision. Defined.

(** A value of [Math.random()] is a double in [0, 1); doubles are
    rationals, and the literals of the source denote the doubles nearest
    to them. *)
Definition double_0_4 : Q := 3602879701896397 # 9007199254740992.
Definition double_0_6 : Q := 5404319552844595 # 9007199254740992.
Definition double_0_8 : Q := 3602879701896397 # 4503599627370496.

Definition Qltb (a b : Q) : bool :=
  Qnum a * Z.pos (Qden b) <? Qnum b * Z.pos (Qden a).

(** The body of the loop of [generateStripEffects]. *)
Definition effectOfDraw (rand : Q) : StripEffect :=
  if Qltb rand double_0_4 then NoEffect
  else if Qltb rand double_0_6 then rotate180
  else if Qltb rand double_0_8 then grayscale
  else blackout.

(** [for (let i = 0; i < count; i++)]: [random i] is the value the i-th
    call of [Math.random] returns; [n] iterations remain. *)
Fixpoint effectsLoop (random : nat → Q) (i n : nat) : list StripEffect :=
  match n with
  | O => []
  | S n' => effectOfDraw (random i) :: effectsLoop random (S i) n'
  end.

(** [count] is [undefined] when the step index is out of range; the loop
    condition [i < undefined] is false. *)
Definition stripEffectsFor (random : nat → Q) (count : option Z) : list StripEffect :=
  match count with
  | Some c => effectsLoop random 0 (Z.to_nat c)
  | None => []
  end.

(* ===================================================================== *)
(** * Numbers, dates and their text *)
(* ===================================================================== *)

(** The numbers the ledger holds are integers or, after [parseInt] of
    text that is no number, [NaN]. *)
Inductive number := Int (z : Z) | NaN.

Global Instance number_eq_dec : EqDecision number.
Proof. solve_decision. Defined.

(** [n.toString()] and [String(n)] of an integer: its decimal digits.
    JavaScript prints exponent notation from 10^21 on; the numbers printed
    here are streak counts, catalog ids and date fields, and a statement
    about the numbers of an arbitrary state bounds them
    ([printsDecimal], [safeInteger]). *)
Definition toString (n : number) : string :=
  match n with
  | Int z => NilZero.string_of_int (Z.to_int z)
  | NaN => "NaN"
  end.

Definition isDigitChar (c : Ascii.ascii) : bool :=
  let n := Ascii.N_of_ascii c in ((0x30 <=? n) && (n <=? 0x39))%N.

Definition isSpaceChar (c : Ascii.ascii) : bool :=
  let n := Ascii.N_of_ascii c in ((0x09 <=? n) && (n <=? 0x0D) || (n =? 0x20))%N.

Fixpoint skipSpaces (s : string) : string :=
  match s with
  | String c r => if isSpaceChar c then skipSpaces r else s
  | EmptyString => s
  end.

Fixpoint digitsPrefix (s : string) : string :=
  match s with
  | String c r => if isDigitChar c then String c (digitsPrefix r) else EmptyString
  | EmptyString => EmptyString
  end.

Definition parseDigits (s : string) : number :=
  let ds := digitsPrefix s in
  match ds with
  | EmptyString => NaN
  | String _ _ => match NilEmpty.uint_of_string ds with
                  | Some d => Int (Z.of_uint d)
                  | None => NaN
                  end
  end.

Definition negate (n : number) : number :=
  match n with Int z => Int (- z) | NaN => NaN end.

(** [parseInt(s, 10)]: leading white space, an optional sign, then the
    longest run of digits; [NaN] when there is no digit. *)
Definition parseInt (s : string) : number :=
  match skipSpaces s with
  | String c r =>
      if Ascii.eqb c "-"%char then negate (parseDigits r)
      else if Ascii.eqb c "+"%char then parseDigits r
      else parseDigits (String c r)
  | EmptyString => NaN
  end.

(** [localStorage.getItem(k) || '0'] *)
Definition orZero (v : option string) : string :=
  match v with
  | Some (String c r) => String c r
  | _ => "0"
  end.

(** [n + 1] and [a > b] on numbers. *)
Definition succNumber (n : number) : number :=
  match n with Int z => Int (z + 1) | NaN => NaN end.

Definition gtNumber (a b : number) : bool :=
  match a, b with
  | Int x, Int y => y <? x
  | _, _ => false
  end.

(** The fields of [new Date()] the code reads; [getMonth] is 0-based. *)
Record Date := { getFullYear : Z; getMonth : Z; getDate : Z }.

(** [s.padStart(2, '0')] *)
Definition padStart2 (s : string) : string :=
  match String.length s with
  | 0%nat => "00" +:+ s
  | 1%nat => "0" +:+ s
  | _ => s
  end.

Definition getTodayKey (d : Date) : string :=
  toString (Int (getFullYear d))
  +:+ padStart2 (toString (Int (getMonth d + 1)))
  +:+ padStart2 (toString (Int (getDate d))).

(** [key.substring(a, b)] for [a <= b] *)
Definition substring (a b : nat) (s : string) : string :=
  String.substring a (b - a) s.

Definition formatDateForDisplay (key : string) : string :=
  let day := substring 6 8 key in
  let month := substring 4 6 key in
  let year := substring 2 4 key in
  day +:+ "/" +:+ month +:+ "/" +:+ year.

(* ===================================================================== *)
(** * The daily picker of the catalog service *)
(* ===================================================================== *)

Module MovieService.

Definition LS_DAILY_MOVIE_PREFIX : string := "dailyMovieId_".
Definition LS_DAILY_HARD_MOVIE_PREFIX : string := "dailyHardMovieId_".
Definition LS_DAILY_TV_PREFIX : string := "dailyTvShowId_".
Definition LS_DAILY_HARD_TV_PREFIX : string := "dailyHardTvShowId_".

(** The seed offsets of [getDailyMovie] and [getDailyMovieHard]. *)
Definition dailyOffset : Z := 0.
Definition dailyHardOffset : Z := 12345.

Section Picker.

(** [Math.sin] is approximated by the implementation; its value at an
    integer seed is some double, taken here as a rational.  The
    arithmetic after it is carried out exactly. *)
Variable Math_sin : Z → Q.

Definition pseudoRandom (seed : Z) : Z :=
  let x := (Math_sin seed * inject_Z 10000)%Q in
  Qfloor ((x - inject_Z (Qfloor x)) * inject_Z 1000000)%Q.

Definition seedBase (today : Date) (seedOffset : Z) : Z :=
  getFullYear today * 10000 + (getMonth today + 1) * 100 + getDate today + seedOffset.

(** [%] of JavaScript truncates towards zero. *)
Definition pickPage (today : Date) (seedOffset : Z) : Z :=
  Z.rem (pseudoRandom (seedBase today seedOffset + 9999)) 50 + 1.

Definition pickIndex (today : Date) (seedOffset : Z) (movies : list Movie) : Z :=
  Z.rem (pseudoRandom (seedBase today seedOffset)) (Z.of_nat (length movies)).

(** The outcome of one run of the picker: what the observable emits. *)
Record Picked := { pickedPage : Z; pickedIndex : Z; pickedMovie : option Movie }.

(** [movies[index]] *)
Definition itemAt (movies : list Movie) (index : Z) : option Movie :=
  if index <? 0 then None else movies !! Z.to_nat index.

(** [pickAndStoreDailyMovie].  [getPopularMoviesPage page] is the content
    of a catalog page, or [None] when the request fails; the result is
    [None] when the observable errors. *)
Definition pickAndStoreDailyMovie (getPopularMoviesPage : Z → option (list Movie))
    (today : Date) (seedOffset : Z) (storagePrefix todayKey : string)
    (localStorage : gmap string string) : option Picked * gmap string string :=
  let page := pickPage today seedOffset in
  match getPopularMoviesPage page with
  | None => (None, localStorage)
  | Some movies =>
      if bool_decide (length movies = 0%nat) then (None, localStorage)
      else
        let index := pickIndex today seedOffset movies in
        let picked := itemAt movies index in
        let stored :=
          match picked with
          | Some m => if bool_decide (id m = 0) then localStorage
                      else <[storagePrefix +:+ todayKey := toString (Int (id m))]> localStorage
          | None => localStorage
          end in
        (Some {| pickedPage := page; pickedIndex := index; pickedMovie := picked |}, stored)
  end.



End Picker.


(** An item of a catalog response: the fields of [Movie] the component
    reads, and the two only the service reads. *)
Record Result := {
  movieOf : Movie;
  poster_path : option string;
  original_language : option string
}.

(** [languageFilter: 'all' | 'fr_en'] *)
Inductive LanguageFilter := all | fr_en.

Global Instance LanguageFilter_eq_dec : EqDecision LanguageFilter.
Proof. solve_decision. Defined.

(** [m.poster_path] as a condition: neither missing nor empty. *)
Definition hasPoster (m : Result) : bool :=
  match poster_path m with Some (String _ _) => true | _ => false end.

(** [m.original_language === 'fr' || m.original_language === 'en'] *)
Definition isFrEn (m : Result) : bool :=
  bool_decide (original_language m = Some "fr")
  || bool_decide (original_language m = Some "en").

(** [Math.floor(Math.random() * 50) + 1] *)
Definition randomPage (random : nat → Q) : Z :=
  Qfloor (random 0%nat * inject_Z 50) + 1.

(** The list [movies] of [getRandomMovie] when the item is drawn: the
    poster items that are not excluded, or all the poster items when
    every one is excluded. *)
Definition candidates (results : list Result) (excludeIds : list Z) : list Result :=
  let source := filter (λ m, hasPoster m = true) results in
  let movies :=
    if bool_decide (0 < length excludeIds)%nat
    then filter (λ m, id (movieOf m) ∉ excludeIds) source
    else source in
  if bool_decide (length movies = 0%nat) then source else movies.

(** [movies[index]] *)
Definition resultAt (movies : list Result) (index : Z) : option Result :=
  if index <? 0 then None else movies !! Z.to_nat index.

(** [getRandomMovie].  [random 0] and [random 1] are the two values
    [Math.random()] returns to it; [popularPage page] is the [results]
    array of the response, [None] when the request fails.  The result is
    what the observable emits ([Some None]: it emits [undefined]).
    [getRandomTvShow] is the same text over the other endpoint, with
    [mapTvToMovie] applied to the poster items. *)
Definition getRandomMovie (random : nat → Q) (popularPage : Z → option (list Result))
    (excludeIds : list Z) (languageFilter : LanguageFilter) : option (option Result) :=
  match popularPage (randomPage random) with
  | None => None
  | Some results =>
      let movies := candidates results excludeIds in
      let index := Qfloor (random 1%nat * inject_Z (Z.of_nat (length movies))) in
      let picked := resultAt movies index in
      Some
        match picked with
        | Some p =>
            if bool_decide (languageFilter = fr_en) && negb (isFrEn p)
            then match List.find isFrEn movies with
                 | Some fallback => Some fallback
                 | None => Some p
                 end
            else Some p
        | None => None
        end
  end.

End MovieService.

(* ===================================================================== *)
(** * The session: state *)
(* ===================================================================== *)

Inductive Tab := daily | hard | infinite | infinite_hard.
Inductive Media := media_movie | media_tv.
Inductive Status := loading | playing | won | lost.
Inductive Outcome := win | loss.

Global Instance Tab_eq_dec : EqDecision Tab.
Proof. solve_decision. Defined.
Global Instance Media_eq_dec : EqDecision Media.
Proof. solve_decision. Defined.
Global Instance Status_eq_dec : EqDecision Status.
Proof. solve_decision. Defined.

(** [interface WrongGuess { guess: string; year?: string }] *)
Record WrongGuess := { guess : jsstring; year : option jsstring }.

(** [interface SeenMovie { movieId: number; expiry: number }] *)
Record SeenMovie := { movieId : Z; expiry : Z }.

(** A catalog request whose observable has been subscribed to and has not
    answered yet.  A daily request remembers which of the two callbacks
    ([switchTab] or [loadForCurrentTab]) waits for it, the tab the
    callback closed over, and what the service closed over: the media
    kind that chose the observable and the day key of the call. *)
Inductive Request :=
| DailyRequest (fromSwitch : bool) (tab : Tab) (isTv : bool) (todayKey : string)
| InfiniteRequest.

(** The signals and private fields of [PosterGameComponent] that its
    logic reads, then the world it acts on: [localStorage], the two
    seen-recently entries of [localStorage] (they hold JSON text and are
    kept as the lists they encode; no other key is read or written
    through them) and the requests in flight.  Left out are the signals
    that are only written for the template ([suggestions], [imdbUrl],
    [apiKeyInput], [apiKeyError], [showSettings], [showClearCacheConfirm])
    and [infiniteCountryFilter], which is only handed to the catalog
    service; with them go [fetchImdbLink], the search stream and the
    operations that touch nothing else. *)
#[projections(primitive)]
Record State := {
  activeTab : Tab;
  mediaMode : Media;
  movie : option Movie;
  currentStepIndex : Z;
  userGuess : jsstring;
  gameStatus : Status;
  wrongGuesses : list WrongGuess;
  showGiveUpConfirm : bool;
  showLeaveConfirm : bool;
  pendingTab : option Tab;
  pendingMediaMode : option Media;
  selectedMovieFromAutocomplete : option Movie;
  dailyCompleted : bool;
  dailyCompletedDate : string;
  showApiKeyPrompt : bool;
  infiniteMemoryEnabled : bool;
  currentStreak : number;
  todayBestStreak : number;
  allTimeBestStreak : number;
  stripEffects : list StripEffect;
  initialized : bool;
  localStorage : gmap string string;
  seenStore : gmap string (list SeenMovie);
  inflight : list Request
}.

(** Field updates, [this.f.set(v)]: the constructor applied to the fields in
    the order of the record, with [v] in the place of the field set. *)
Definition set_activeTab (v : Tab) (s : State) : State :=
  Build_State v (mediaMode s) (movie s) (currentStepIndex s) (userGuess s)
    (gameStatus s) (wrongGuesses s) (showGiveUpConfirm s) (showLeaveConfirm s)
    (pendingTab s) (pendingMediaMode s) (selectedMovieFromAutocomplete s)
    (dailyCompleted s) (dailyCompletedDate s) (showApiKeyPrompt s)
    (infiniteMemoryEnabled s) (currentStreak s) (todayBestStreak s)
    (allTimeBestStreak s) (stripEffects s) (initialized s) (localStorage s)
    (seenStore s) (inflight s).

Definition set_mediaMode (v : Media) (s : State) : State :=
  Build_State (activeTab s) v (movie s) (currentStepIndex s) (userGuess s)
    (gameStatus s) (wrongGuesses s) (showGiveUpConfirm s) (showLeaveConfirm s)
    (pendingTab s) (pendingMediaMode s) (selectedMovieFromAutocomplete s)
    (dailyCompleted s) (dailyCompletedDate s) (showApiKeyPrompt s)
    (infiniteMemoryEnabled s) (currentStreak s) (todayBestStreak s)
    (allTimeBestStreak s) (stripEffects s) (initialized s) (localStorage s)
    (seenStore s) (inflight s).

Definition set_movie (v : option Movie) (s : State) : State :=
  Build_State (activeTab s) (mediaMode s) v (currentStepIndex s) (userGuess s)
    (gameStatus s) (wrongGuesses s) (showGiveUpConfirm s) (showLeaveConfirm s)
    (pendingTab s) (pendingMediaMode s) (selectedMovieFromAutocomplete s)
    (dailyCompleted s) (dailyCompletedDate s) (showApiKeyPrompt s)
    (infiniteMemoryEnabled s) (currentStreak s) (todayBestStreak s)
    (allTimeBestStreak s) (stripEffects s) (initialized s) (localStorage s)
    (seenStore s) (inflight s).

Definition set_currentStepIndex (v : Z) (s : State) : State :=
  Build_State (activeTab s) (mediaMode s) (movie s) v (userGuess s) (gameStatus s)
    (wrongGuesses s) (showGiveUpConfirm s) (showLeaveConfirm s) (pendingTab s)
    (pendingMediaMode s) (selectedMovieFromAutocomplete s) (dailyCompleted s)
    (dailyCompletedDate s) (showApiKeyPrompt s) (infiniteMemoryEnabled s)
    (currentStreak s) (todayBestStreak s) (allTimeBestStreak s) (stripEffects s)
    (initialized s) (localStorage s) (seenStore s) (inflight s).

Definition set_userGuess (v : jsstring) (s : State) : State :=
  Build_State (activeTab s) (mediaMode s) (movie s) (currentStepIndex s) v
    (gameStatus s) (wrongGuesses s) (showGiveUpConfirm s) (showLeaveConfirm s)
    (pendingTab s) (pendingMediaMode s) (selectedMovieFromAutocomplete s)
    (dailyCompleted s) (dailyCompletedDate s) (showApiKeyPrompt s)
    (infiniteMemoryEnabled s) (currentStreak s) (todayBestStreak s)
    (allTimeBestStreak s) (stripEffects s) (initialized s) (localStorage s)
    (seenStore s) (inflight s).

Definition set_gameStatus (v : Status) (s : State) : State :=
  Build_State (activeTab s) (mediaMode s) (movie s) (currentStepIndex s) (userGuess s)
    v (wrongGuesses s) (showGiveUpConfirm s) (showLeaveConfirm s) (pendingTab s)
    (pendingMediaMode s) (selectedMovieFromAutocomplete s) (dailyCompleted s)
    (dailyCompletedDate s) (showApiKeyPrompt s) (infiniteMemoryEnabled s)
    (currentStreak s) (todayBestStreak s) (allTimeBestStreak s) (stripEffects s)
    (initialized s) (localStorage s) (seenStore s) (inflight s).

Definition set_wrongGuesses (v : list WrongGuess) (s : State) : State :=
  Build_State (activeTab s) (mediaMode s) (movie s) (currentStepIndex s) (userGuess s)
    (gameStatus s) v (showGiveUpConfirm s) (showLeaveConfirm s) (pendingTab s)
    (pendingMediaMode s) (selectedMovieFromAutocomplete s) (dailyCompleted s)
    (dailyCompletedDate s) (showApiKeyPrompt s) (infiniteMemoryEnabled s)
    (currentStreak s) (todayBestStreak s) (allTimeBestStreak s) (stripEffects s)
    (initialized s) (localStorage s) (seenStore s) (inflight s).

Definition set_showGiveUpConfirm (v : bool) (s : State) : State :=
  Build_State (activeTab s) (mediaMode s) (movie s) (currentStepIndex s) (userGuess s)
    (gameStatus s) (wrongGuesses s) v (showLeaveConfirm s) (pendingTab s)
    (pendingMediaMode s) (selectedMovieFromAutocomplete s) (dailyCompleted s)
    (dailyCompletedDate s) (showApiKeyPrompt s) (infiniteMemoryEnabled s)
    (currentStreak s) (todayBestStreak s) (allTimeBestStreak s) (stripEffects s)
    (initialized s) (localStorage s) (seenStore s) (inflight s).

Definition set_showLeaveConfirm (v : bool) (s : State) : State :=
  Build_State (activeTab s) (mediaMode s) (movie s) (currentStepIndex s) (userGuess s)
    (gameStatus s) (wrongGuesses s) (showGiveUpConfirm s) v (pendingTab s)
    (pendingMediaMode s) (selectedMovieFromAutocomplete s) (dailyCompleted s)
    (dailyCompletedDate s) (showApiKeyPrompt s) (infiniteMemoryEnabled s)
    (currentStreak s) (todayBestStreak s) (allTimeBestStreak s) (stripEffects s)
    (initialized s) (localStorage s) (seenStore s) (inflight s).

Definition set_pendingTab (v : option Tab) (s : State) : State :=
  Build_State (activeTab s) (mediaMode s) (movie s) (currentStepIndex s) (userGuess s)
    (gameStatus s) (wrongGuesses s) (showGiveUpConfirm s) (showLeaveConfirm s) v
    (pendingMediaMode s) (selectedMovieFromAutocomplete s) (dailyCompleted s)
    (dailyCompletedDate s) (showApiKeyPrompt s) (infiniteMemoryEnabled s)
    (currentStreak s) (todayBestStreak s) (allTimeBestStreak s) (stripEffects s)
    (initialized s) (localStorage s) (seenStore s) (inflight s).

Definition set_pendingMediaMode (v : option Media) (s : State) : State :=
  Build_State (activeTab s) (mediaMode s) (movie s) (currentStepIndex s) (userGuess s)
    (gameStatus s) (wrongGuesses s) (showGiveUpConfirm s) (showLeaveConfirm s)
    (pendingTab s) v (selectedMovieFromAutocomplete s) (dailyCompleted s)
    (dailyCompletedDate s) (showApiKeyPrompt s) (infiniteMemoryEnabled s)
    (currentStreak s) (todayBestStreak s) (allTimeBestStreak s) (stripEffects s)
    (initialized s) (localStorage s) (seenStore s) (inflight s).

Definition set_selectedMovieFromAutocomplete (v : option Movie) (s : State) : State :=
  Build_State (activeTab s) (mediaMode s) (movie s) (currentStepIndex s) (userGuess s)
    (gameStatus s) (wrongGuesses s) (showGiveUpConfirm s) (showLeaveConfirm s)
    (pendingTab s) (pendingMediaMode s) v (dailyCompleted s) (dailyCompletedDate s)
    (showApiKeyPrompt s) (infiniteMemoryEnabled s) (currentStreak s)
    (todayBestStreak s) (allTimeBestStreak s) (stripEffects s) (initialized s)
    (localStorage s) (seenStore s) (inflight s).

Definition set_dailyCompleted (v : bool) (s : State) : State :=
  Build_State (activeTab s) (mediaMode s) (movie s) (currentStepIndex s) (userGuess s)
    (gameStatus s) (wrongGuesses s) (showGiveUpConfirm s) (showLeaveConfirm s)
    (pendingTab s) (pendingMediaMode s) (selectedMovieFromAutocomplete s) v
    (dailyCompletedDate s) (showApiKeyPrompt s) (infiniteMemoryEnabled s)
    (currentStreak s) (todayBestStreak s) (allTimeBestStreak s) (stripEffects s)
    (initialized s) (localStorage s) (seenStore s) (inflight s).

Definition set_dailyCompletedDate (v : string) (s : State) : State :=
  Build_State (activeTab s) (mediaMode s) (movie s) (currentStepIndex s) (userGuess s)
    (gameStatus s) (wrongGuesses s) (showGiveUpConfirm s) (showLeaveConfirm s)
    (pendingTab s) (pendingMediaMode s) (selectedMovieFromAutocomplete s)
    (dailyCompleted s) v (showApiKeyPrompt s) (infiniteMemoryEnabled s)
    (currentStreak s) (todayBestStreak s) (allTimeBestStreak s) (stripEffects s)
    (initialized s) (localStorage s) (seenStore s) (inflight s).

Definition set_showApiKeyPrompt (v : bool) (s : State) : State :=
  Build_State (activeTab s) (mediaMode s) (movie s) (currentStepIndex s) (userGuess s)
    (gameStatus s) (wrongGuesses s) (showGiveUpConfirm s) (showLeaveConfirm s)
    (pendingTab s) (pendingMediaMode s) (selectedMovieFromAutocomplete s)
    (dailyCompleted s) (dailyCompletedDate s) v (infiniteMemoryEnabled s)
    (currentStreak s) (todayBestStreak s) (allTimeBestStreak s) (stripEffects s)
    (initialized s) (localStorage s) (seenStore s) (inflight s).

Definition set_infiniteMemoryEnabled (v : bool) (s : State) : State :=
  Build_State (activeTab s) (mediaMode s) (movie s) (currentStepIndex s) (userGuess s)
    (gameStatus s) (wrongGuesses s) (showGiveUpConfirm s) (showLeaveConfirm s)
    (pendingTab s) (pendingMediaMode s) (selectedMovieFromAutocomplete s)
    (dailyCompleted s) (dailyCompletedDate s) (showApiKeyPrompt s) v (currentStreak s)
    (todayBestStreak s) (allTimeBestStreak s) (stripEffects s) (initialized s)
    (localStorage s) (seenStore s) (inflight s).

Definition set_currentStreak (v : number) (s : State) : State :=
  Build_State (activeTab s) (mediaMode s) (movie s) (currentStepIndex s) (userGuess s)
    (gameStatus s) (wrongGuesses s) (showGiveUpConfirm s) (showLeaveConfirm s)
    (pendingTab s) (pendingMediaMode s) (selectedMovieFromAutocomplete s)
    (dailyCompleted s) (dailyCompletedDate s) (showApiKeyPrompt s)
    (infiniteMemoryEnabled s) v (todayBestStreak s) (allTimeBestStreak s)
    (stripEffects s) (initialized s) (localStorage s) (seenStore s) (inflight s).

Definition set_todayBestStreak (v : number) (s : State) : State :=
  Build_State (activeTab s) (mediaMode s) (movie s) (currentStepIndex s) (userGuess s)
    (gameStatus s) (wrongGuesses s) (showGiveUpConfirm s) (showLeaveConfirm s)
    (pendingTab s) (pendingMediaMode s) (selectedMovieFromAutocomplete s)
    (dailyCompleted s) (dailyCompletedDate s) (showApiKeyPrompt s)
    (infiniteMemoryEnabled s) (currentStreak s) v (allTimeBestStreak s)
    (stripEffects s) (initialized s) (localStorage s) (seenStore s) (inflight s).

Definition set_allTimeBestStreak (v : number) (s : State) : State :=
  Build_State (activeTab s) (mediaMode s) (movie s) (currentStepIndex s) (userGuess s)
    (gameStatus s) (wrongGuesses s) (showGiveUpConfirm s) (showLeaveConfirm s)
    (pendingTab s) (pendingMediaMode s) (selectedMovieFromAutocomplete s)
    (dailyCompleted s) (dailyCompletedDate s) (showApiKeyPrompt s)
    (infiniteMemoryEnabled s) (currentStreak s) (todayBestStreak s) v (stripEffects s)
    (initialized s) (localStorage s) (seenStore s) (inflight s).

Definition set_stripEffects (v : list StripEffect) (s : State) : State :=
  Build_State (activeTab s) (mediaMode s) (movie s) (currentStepIndex s) (userGuess s)
    (gameStatus s) (wrongGuesses s) (showGiveUpConfirm s) (showLeaveConfirm s)
    (pendingTab s) (pendingMediaMode s) (selectedMovieFromAutocomplete s)
    (dailyCompleted s) (dailyCompletedDate s) (showApiKeyPrompt s)
    (infiniteMemoryEnabled s) (currentStreak s) (todayBestStreak s)
    (allTimeBestStreak s) v (initialized s) (localStorage s) (seenStore s)
    (inflight s).

Definition set_initialized (v : bool) (s : State) : State :=
  Build_State (activeTab s) (mediaMode s) (movie s) (currentStepIndex s) (userGuess s)
    (gameStatus s) (wrongGuesses s) (showGiveUpConfirm s) (showLeaveConfirm s)
    (pendingTab s) (pendingMediaMode s) (selectedMovieFromAutocomplete s)
    (dailyCompleted s) (dailyCompletedDate s) (showApiKeyPrompt s)
    (infiniteMemoryEnabled s) (currentStreak s) (todayBestStreak s)
    (allTimeBestStreak s) (stripEffects s) v (localStorage s) (seenStore s)
    (inflight s).

Definition set_localStorage (v : gmap string string) (s : State) : State :=
  Build_State (activeTab s) (mediaMode s) (movie s) (currentStepIndex s) (userGuess s)
    (gameStatus s) (wrongGuesses s) (showGiveUpConfirm s) (showLeaveConfirm s)
    (pendingTab s) (pendingMediaMode s) (selectedMovieFromAutocomplete s)
    (dailyCompleted s) (dailyCompletedDate s) (showApiKeyPrompt s)
    (infiniteMemoryEnabled s) (currentStreak s) (todayBestStreak s)
    (allTimeBestStreak s) (stripEffects s) (initialized s) v (seenStore s)
    (inflight s).

Definition set_seenStore (v : gmap string (list SeenMovie)) (s : State) : State :=
  Build_State (activeTab s) (mediaMode s) (movie s) (currentStepIndex s) (userGuess s)
    (gameStatus s) (wrongGuesses s) (showGiveUpConfirm s) (showLeaveConfirm s)
    (pendingTab s) (pendingMediaMode s) (selectedMovieFromAutocomplete s)
    (dailyCompleted s) (dailyCompletedDate s) (showApiKeyPrompt s)
    (infiniteMemoryEnabled s) (currentStreak s) (todayBestStreak s)
    (allTimeBestStreak s) (stripEffects s) (initialized s) (localStorage s) v
    (inflight s).

Definition set_inflight (v : list Request) (s : State) : State :=
  Build_State (activeTab s) (mediaMode s) (movie s) (currentStepIndex s) (userGuess s)
    (gameStatus s) (wrongGuesses s) (showGiveUpConfirm s) (showLeaveConfirm s)
    (pendingTab s) (pendingMediaMode s) (selectedMovieFromAutocomplete s)
    (dailyCompleted s) (dailyCompletedDate s) (showApiKeyPrompt s)
    (infiniteMemoryEnabled s) (currentStreak s) (todayBestStreak s)
    (allTimeBestStreak s) (stripEffects s) (initialized s) (localStorage s)
    (seenStore s) v.

(* ===================================================================== *)
(** * The session: operations *)
(* ===================================================================== *)

(** [readonly progressionSteps = [100, 75, 50, 25, 10]] *)
Definition progressionSteps : list Z := [100; 75; 50; 25; 10].

Definition LS_DAILY_PREFIX : string := "dailyGameWon_".
Definition LS_DAILY_HARD_PREFIX : string := "dailyHardGameWon_".
Definition LS_DAILY_LOST_PREFIX : string := "dailyGameLost_".
Definition LS_DAILY_HARD_LOST_PREFIX : string := "dailyHardGameLost_".
Definition LS_SEEN_RANDOM : string := "seenRandomMovies".
Definition LS_SEEN_RANDOM_TV : string := "seenRandomTvShows".
Definition LS_INFINITE_MEMORY : string := "infiniteMemoryEnabled".
Definition LS_TMDB_TOKEN : string := "tmdbToken".
Definition LS_MEDIA_MODE : string := "mediaMode".
Definition LS_CURRENT_STREAK : string := "infiniteCurrentStreak".
Definition LS_TODAY_BEST_PREFIX : string := "infiniteTodayBest_".
Definition LS_ALL_TIME_BEST : string := "infiniteAllTimeBest".
Definition LS_CURRENT_STREAK_HARD : string := "infiniteHardCurrentStreak".
Definition LS_TODAY_BEST_HARD_PREFIX : string := "infiniteHardTodayBest_".
Definition LS_ALL_TIME_BEST_HARD : string := "infiniteHardAllTimeBest".
Definition LS_CURRENT_STREAK_TV : string := "infiniteCurrentStreakTv".
Definition LS_TODAY_BEST_PREFIX_TV : string := "infiniteTodayBestTv_".
Definition LS_ALL_TIME_BEST_TV : string := "infiniteAllTimeBestTv".
Definition LS_CURRENT_STREAK_HARD_TV : string := "infiniteHardCurrentStreakTv".
Definition LS_TODAY_BEST_HARD_PREFIX_TV : string := "infiniteHardTodayBestTv_".
Definition LS_ALL_TIME_BEST_HARD_TV : string := "infiniteHardAllTimeBestTv".

(** What an operation reads from outside the component: the clock
    ([new Date()], [Date.now()]) and the values [Math.random()] returns
    while it runs. *)
Record Env := { today : Date; now : Z; random : nat → Q }.

Definition isInfiniteTab (t : Tab) : bool :=
  match t with infinite | infinite_hard => true | _ => false end.

Definition isDailyTab (t : Tab) : bool :=
  match t with daily | hard => true | _ => false end.

Definition isHardTab (t : Tab) : bool :=
  match t with hard | infinite_hard => true | _ => false end.

(** [this.activeTab() === 'infinite-hard' ? 'infinite-hard' : 'infinite'] *)
Definition infiniteModeOf (t : Tab) : Tab :=
  match t with infinite_hard => infinite_hard | _ => infinite end.

Definition mediaText (m : Media) : string :=
  match m with media_movie => "movie" | media_tv => "tv" end.

Definition boolText (b : bool) : string := if b then "true" else "false".

Definition getItem (k : string) (s : State) : option string := localStorage s !! k.

Definition setItem (k v : string) (s : State) : State :=
  set_localStorage (<[k := v]> (localStorage s)) s.

Definition removeItem (k : string) (s : State) : State :=
  set_localStorage (delete k (localStorage s)) s.

Record StreakKeys := { currentKey : string; todayKey : string; allTimeKey : string }.

Definition getStreakStorageKeys (mode : Tab) (s : State) : StreakKeys :=
  let isTv := bool_decide (mediaMode s = media_tv) in
  if bool_decide (mode = infinite) then
    {| currentKey := if isTv then LS_CURRENT_STREAK_TV else LS_CURRENT_STREAK;
       todayKey := if isTv then LS_TODAY_BEST_PREFIX_TV else LS_TODAY_BEST_PREFIX;
       allTimeKey := if isTv then LS_ALL_TIME_BEST_TV else LS_ALL_TIME_BEST |}
  else
    {| currentKey := if isTv then LS_CURRENT_STREAK_HARD_TV else LS_CURRENT_STREAK_HARD;
       todayKey := if isTv then LS_TODAY_BEST_HARD_PREFIX_TV else LS_TODAY_BEST_HARD_PREFIX;
       allTimeKey := if isTv then LS_ALL_TIME_BEST_HARD_TV else LS_ALL_TIME_BEST_HARD |}.

Definition loadStreakData (e : Env) (mode : Tab) (s : State) : State :=
  let today := getTodayKey (today e) in
  let keys := getStreakStorageKeys mode s in
  let s := set_currentStreak (parseInt (orZero (getItem (currentKey keys) s))) s in
  let s := set_todayBestStreak (parseInt (orZero (getItem (todayKey keys +:+ today) s))) s in
  set_allTimeBestStreak (parseInt (orZero (getItem (allTimeKey keys) s))) s.

Definition saveStreakData (e : Env) (mode : Tab) (s : State) : State :=
  let today := getTodayKey (today e) in
  let keys := getStreakStorageKeys mode s in
  let s := setItem (currentKey keys) (toString (currentStreak s)) s in
  let s := setItem (todayKey keys +:+ today) (toString (todayBestStreak s)) s in
  setItem (allTimeKey keys) (toString (allTimeBestStreak s)) s.

Definition getDailyStoragePrefix (tab : Tab) (type : Outcome) (s : State) : string :=
  let base :=
    if bool_decide (tab = daily)
    then (match type with win => LS_DAILY_PREFIX | loss => LS_DAILY_LOST_PREFIX end)
    else (match type with win => LS_DAILY_HARD_PREFIX | loss => LS_DAILY_HARD_LOST_PREFIX end) in
  let suffix := if bool_decide (mediaMode s = media_tv) then "tv" else "movie" in
  base +:+ suffix +:+ "_".

Definition markDailyWin (e : Env) (tab : Tab) (s : State) : State :=
  let today := getTodayKey (today e) in
  let lsKey := getDailyStoragePrefix tab win s in
  let lsLostKey := getDailyStoragePrefix tab loss s in
  let s := setItem (lsKey +:+ today) "true" s in
  let s := removeItem (lsLostKey +:+ today) s in
  let s := set_dailyCompleted true s in
  set_dailyCompletedDate (formatDateForDisplay today) s.

Definition markDailyLoss (e : Env) (tab : Tab) (s : State) : State :=
  let today := getTodayKey (today e) in
  let lsKey := getDailyStoragePrefix tab loss s in
  let lsWinKey := getDailyStoragePrefix tab win s in
  let s := setItem (lsKey +:+ today) "true" s in
  removeItem (lsWinKey +:+ today) s.

Definition syncDailyOutcome (e : Env) (tab : Tab) (s : State) : State :=
  let today := getTodayKey (today e) in
  let lsWinKey := getDailyStoragePrefix tab win s in
  let lsLostKey := getDailyStoragePrefix tab loss s in
  let dailyWon := getItem (lsWinKey +:+ today) s in
  let dailyLost := getItem (lsLostKey +:+ today) s in
  let s := set_dailyCompleted false s in
  if bool_decide (dailyWon = Some "true") then
    let s := set_dailyCompleted true s in
    let s := set_dailyCompletedDate (formatDateForDisplay today) s in
    set_gameStatus won s
  else if bool_decide (dailyLost = Some "true") then
    let s := set_dailyCompletedDate (formatDateForDisplay today) s in
    set_gameStatus lost s
  else s.

(** [computed(() => this.progressionSteps[this.currentStepIndex()])];
    [None] is [undefined]. *)
Definition currentStripCount (s : State) : option Z :=
  if currentStepIndex s <? 0 then None
  else progressionSteps !! Z.to_nat (currentStepIndex s).

Definition generateStripEffects (e : Env) (s : State) : State :=
  set_stripEffects (stripEffectsFor (random e) (currentStripCount s)) s.

Definition getSeenRandomKey (s : State) : string :=
  if bool_decide (mediaMode s = media_tv) then LS_SEEN_RANDOM_TV else LS_SEEN_RANDOM.

Definition getSeenRandomMovies (e : Env) (s : State) : list SeenMovie :=
  match seenStore s !! getSeenRandomKey s with
  | None => []
  | Some parsed => filter (λ x, now e < expiry x) parsed
  end.

Definition addSeenRandomMovie (e : Env) (movieId : Z) (s : State) : State :=
  let seen := getSeenRandomMovies e s in
  let expiry := now e + 2 * 24 * 60 * 60 * 1000 in
  let seen := seen ++ [{| movieId := movieId; expiry := expiry |}] in
  set_seenStore (<[getSeenRandomKey s := seen]> (seenStore s)) s.

Definition markCurrentMovieSeen (e : Env) (s : State) : State :=
  match movie s with
  | Some m =>
      if isInfiniteTab (activeTab s) && infiniteMemoryEnabled s
      then addSeenRandomMovie e (id m) s else s
  | None => s
  end.

(** [observable.subscribe({next, error})]: the request is in flight until
    the catalog answers. *)
Definition subscribe (r : Request) (s : State) : State :=
  set_inflight (inflight s ++ [r]) s.

Definition loadInfiniteMovie (s : State) : State :=
  let s := set_gameStatus loading s in
  let s := set_currentStepIndex 0 s in
  let s := set_userGuess [] s in
  let s := set_wrongGuesses [] s in
  let s := set_showGiveUpConfirm false s in
  let s := set_selectedMovieFromAutocomplete None s in
  let s := set_stripEffects [] s in
  subscribe InfiniteRequest s.

(** The storage prefix of the observable chosen by
    [tab === 'daily' ? (isTv ? getDailyTvShow() : getDailyMovie())
                     : (isTv ? getDailyTvShowHard() : getDailyMovieHard())]. *)
Definition dailyServicePrefix (tab : Tab) (isTv : bool) : string :=
  if bool_decide (tab = daily)
  then (if isTv then MovieService.LS_DAILY_TV_PREFIX else MovieService.LS_DAILY_MOVIE_PREFIX)
  else (if isTv then MovieService.LS_DAILY_HARD_TV_PREFIX
        else MovieService.LS_DAILY_HARD_MOVIE_PREFIX).

(** The daily request issued now: [getDailyMovieInternal] reads the day
    key when it is called. *)
Definition dailyRequest (e : Env) (fromSwitch : bool) (tab : Tab) (s : State) : Request :=
  DailyRequest fromSwitch tab (bool_decide (mediaMode s = media_tv))
    (getTodayKey (today e)).

Definition switchTab (e : Env) (tab : Tab) (force : bool) (s : State) : State :=
  if negb force && bool_decide (activeTab s = tab) then s
  else
    let s := if bool_decide (activeTab s ≠ tab) then set_activeTab tab s else s in
    let s := set_gameStatus loading s in
    let s := set_currentStepIndex 0 s in
    let s := set_userGuess [] s in
    let s := set_wrongGuesses [] s in
    let s := set_showGiveUpConfirm false s in
    let s := set_selectedMovieFromAutocomplete None s in
    let s := set_dailyCompleted false s in
    let s := set_stripEffects [] s in
    if isInfiniteTab tab then
      let s := loadStreakData e tab s in
      loadInfiniteMovie s
    else
      let s := syncDailyOutcome e tab s in
      subscribe (dailyRequest e true tab s) s.

Definition loadForCurrentTab (e : Env) (s : State) : State :=
  let tab := activeTab s in
  if isInfiniteTab tab then
    let s := loadStreakData e tab s in
    loadInfiniteMovie s
  else subscribe (dailyRequest e false tab s) s.

Definition initializeWithToken (e : Env) (s : State) : State :=
  if initialized s then s
  else
    let s := set_initialized true s in
    let active := activeTab s in
    let s := if isDailyTab active then syncDailyOutcome e active s else s in
    loadForCurrentTab e s.

Definition ngOnInit (e : Env) (s : State) : State :=
  let savedMode := getItem LS_MEDIA_MODE s in
  let s := if bool_decide (savedMode = Some "tv") then set_mediaMode media_tv s else s in
  let s := set_infiniteMemoryEnabled
             (bool_decide (getItem LS_INFINITE_MEMORY s ≠ Some "false")) s in
  let s := loadStreakData e infinite s in
  match getItem LS_TMDB_TOKEN s with
  | Some (String c r) => initializeWithToken e s
  | _ => set_showApiKeyPrompt true s
  end.

(** The [next] callback of a daily request. *)
Definition onDailyMovie (e : Env) (fromSwitch : bool) (tab : Tab) (m : Movie) (s : State)
  : State :=
  let s := set_movie (Some m) s in
  let s :=
    if dailyCompleted s then set_gameStatus won s
    else if bool_decide (gameStatus s = lost) then set_showGiveUpConfirm false s
    else
      let s := set_gameStatus playing s in
      if bool_decide (tab = hard) then generateStripEffects e s else s in
  if fromSwitch then s
  else
    let s := set_wrongGuesses [] s in
    set_showGiveUpConfirm false s.

(** The callbacks of [loadInfiniteMovie]. *)
Definition onInfiniteMovie (e : Env) (m : Movie) (s : State) : State :=
  let s := set_movie (Some m) s in
  let s := set_gameStatus playing s in
  if bool_decide (activeTab s = infinite_hard) then generateStripEffects e s else s.

Definition onInfiniteError (s : State) : State := set_gameStatus lost s.

Definition setMediaMode (e : Env) (mode : Media) (s : State) : State :=
  if bool_decide (mediaMode s = mode) then s
  else if isInfiniteTab (activeTab s) then
    let s := set_pendingMediaMode (Some mode) s in
    set_showLeaveConfirm true s
  else
    let s := set_mediaMode mode s in
    let s := setItem LS_MEDIA_MODE (mediaText mode) s in
    switchTab e (activeTab s) true s.

Definition toggleInfiniteMemory (s : State) : State :=
  let s := set_infiniteMemoryEnabled (negb (infiniteMemoryEnabled s)) s in
  setItem LS_INFINITE_MEMORY (boolText (infiniteMemoryEnabled s)) s.

(** [submitApiKey], once [validateToken] has answered [true] for the
    trimmed, non-empty token. *)
Definition onTokenValidated (e : Env) (token : string) (s : State) : State :=
  let s := setItem LS_TMDB_TOKEN token s in
  let s := set_showApiKeyPrompt false s in
  initializeWithToken e s.

Definition requestTabSwitch (e : Env) (tab : Tab) (s : State) : State :=
  if bool_decide (activeTab s = tab) then s
  else
    let isInfinite := isInfiniteTab (activeTab s) in
    if isInfinite then
      let s := set_pendingTab (Some tab) s in
      set_showLeaveConfirm true s
    else switchTab e tab false s.

Definition confirmLeaveTab (e : Env) (s : State) : State :=
  let s :=
    if isInfiniteTab (activeTab s) then
      let mode := infiniteModeOf (activeTab s) in
      let s := set_currentStreak (Int 0) s in
      saveStreakData e mode s
    else s in
  match pendingMediaMode s with
  | Some pendingMode =>
      let s := set_mediaMode pendingMode s in
      let s := setItem LS_MEDIA_MODE (mediaText pendingMode) s in
      let s := set_pendingMediaMode None s in
      let s := set_showLeaveConfirm false s in
      switchTab e (activeTab s) true s
  | None =>
      match pendingTab s with
      | None => s
      | Some target =>
          let s := set_showLeaveConfirm false s in
          let s := set_pendingTab None s in
          switchTab e target false s
      end
  end.

Definition cancelLeaveTab (s : State) : State :=
  let s := set_showLeaveConfirm false s in
  let s := set_pendingTab None s in
  set_pendingMediaMode None s.

Definition onInput (term : jsstring) (s : State) : State :=
  let s := set_userGuess term s in
  set_selectedMovieFromAutocomplete None s.

Definition selectSuggestion (m : Movie) (s : State) : State :=
  let year := yearOf m in
  let s := set_userGuess
             (if truthy year then title m ++ js " (" ++ year ++ js ")" else title m) s in
  set_selectedMovieFromAutocomplete (Some m) s.

Definition giveUp (s : State) : State := set_showGiveUpConfirm true s.

Definition confirmGiveUp (e : Env) (s : State) : State :=
  let s := set_gameStatus lost s in
  let s := set_showGiveUpConfirm false s in
  let s := markCurrentMovieSeen e s in
  if isInfiniteTab (activeTab s) then
    let mode := infiniteModeOf (activeTab s) in
    let s := set_currentStreak (Int 0) s in
    saveStreakData e mode s
  else
    let tab := activeTab s in
    if isDailyTab tab then markDailyLoss e tab s else s.

Definition cancelGiveUp (s : State) : State := set_showGiveUpConfirm false s.

Definition nextStep (e : Env) (s : State) : State :=
  if currentStepIndex s <? Z.of_nat (length progressionSteps) - 1 then
    let s := set_currentStepIndex (currentStepIndex s + 1) s in
    if isHardTab (activeTab s) && bool_decide (gameStatus s = playing)
    then generateStripEffects e s else s
  else
    let s := set_gameStatus lost s in
    let s := markCurrentMovieSeen e s in
    if isInfiniteTab (activeTab s) then
      let mode := infiniteModeOf (activeTab s) in
      let s := set_currentStreak (Int 0) s in
      saveStreakData e mode s
    else
      let tab := activeTab s in
      if isDailyTab tab then markDailyLoss e tab s else s.

Definition loadNextInfiniteMovie (s : State) : State := loadInfiniteMovie s.

Section Session.
Context {U : UnicodeOps}.

Definition validateGuess (e : Env) (s : State) : State :=
  if bool_decide (gameStatus s ≠ playing) then s
  else
    let rawGuess := userGuess s in
    let selectedMovie := selectedMovieFromAutocomplete s in
    let targetMovie := movie s in
    if negb (truthy (trim rawGuess)) then
      let s := set_wrongGuesses
                 (wrongGuesses s ++ [{| guess := js "SKIPPED"; year := None |}]) s in
      nextStep e s
    else
      let isCorrect := isCorrectGuess rawGuess selectedMovie targetMovie in
      let '(guessTitle, guessYear) := extractGuess rawGuess in
      let s :=
        if isCorrect then
          let s := set_gameStatus won s in
          let s := markCurrentMovieSeen e s in
          if isInfiniteTab (activeTab s) then
            let mode := infiniteModeOf (activeTab s) in
            let s := set_currentStreak (succNumber (currentStreak s)) s in
            let newStreak := currentStreak s in
            let s := if gtNumber newStreak (todayBestStreak s)
                     then set_todayBestStreak newStreak s else s in
            let s := if gtNumber newStreak (allTimeBestStreak s)
                     then set_allTimeBestStreak newStreak s else s in
            saveStreakData e mode s
          else
            let tab := activeTab s in
            if isDailyTab tab then markDailyWin e tab s else s
        else
          let year :=
            orElse (from_option yearOf [] selectedMovie) guessYear in
          let guessLabel := if truthy (trim guessTitle) then guessTitle else rawGuess in
          let s := set_wrongGuesses
                     (wrongGuesses s ++ [{| guess := guessLabel; year := Some year |}]) s in
          nextStep e s in
      let s := set_userGuess [] s in
      set_selectedMovieFromAutocomplete None s.

(** A component created by a page load over the store the browser kept. *)
Definition newComponent (ls : gmap string string) (seen : gmap string (list SeenMovie))
  : State :=
  {| activeTab := daily; mediaMode := media_movie; movie := None; currentStepIndex := 0;
     userGuess := []; gameStatus := loading; wrongGuesses := [];
     showGiveUpConfirm := false; showLeaveConfirm := false; pendingTab := None;
     pendingMediaMode := None; selectedMovieFromAutocomplete := None;
     dailyCompleted := false; dailyCompletedDate := EmptyString; showApiKeyPrompt := false;
     infiniteMemoryEnabled := true;
     currentStreak := Int 0; todayBestStreak := Int 0; allTimeBestStreak := Int 0;
     stripEffects := []; initialized := false;
     localStorage := ls; seenStore := seen; inflight := [] |}.

Definition pageLoad (e : Env) (ls : gmap string string)
    (seen : gmap string (list SeenMovie)) : State :=
  ngOnInit e (newComponent ls seen).

(** [localStorage.clear(); window.location.reload()] *)
Definition clearCache (e : Env) (s : State) : State := pageLoad e ∅ ∅.

(** What can happen to a session: the operations the template calls, a
    page reload, and the answer of the catalog to the k-th request in
    flight. *)
Inductive Event :=
| Reload
| ClearCache
| TokenValidated (token : string)
| SetMediaMode (mode : Media)
| ToggleInfiniteMemory
| RequestTabSwitch (tab : Tab)
| ConfirmLeaveTab
| CancelLeaveTab
| OnInput (term : jsstring)
| SelectSuggestion (m : Movie)
| GiveUp
| ConfirmGiveUp
| CancelGiveUp
| ValidateGuess
| NextStep
| LoadNextInfiniteMovie
| CatalogAnswered (k : nat) (m : Movie) (picked : bool)
| CatalogFailed (k : nat).

(** When the service ran its picker to answer ([picked]), it stored the
    id of the item, [if (picked?.id)], before the component is told. *)
Definition servicePicked (tab : Tab) (isTv : bool) (todayKey : string) (m : Movie)
    (picked : bool) (s : State) : State :=
  if picked && negb (bool_decide (id m = 0))
  then setItem (dailyServicePrefix tab isTv +:+ todayKey) (toString (Int (id m))) s
  else s.

Definition catalogAnswered (e : Env) (k : nat) (m : Movie) (picked : bool) (s : State)
  : State :=
  match inflight s !! k with
  | None => s
  | Some r =>
      let s := set_inflight (delete k (inflight s)) s in
      match r with
      | DailyRequest fromSwitch tab isTv todayKey =>
          onDailyMovie e fromSwitch tab m (servicePicked tab isTv todayKey m picked s)
      | InfiniteRequest => onInfiniteMovie e m s
      end
  end.

Definition catalogFailed (k : nat) (s : State) : State :=
  match inflight s !! k with
  | None => s
  | Some r =>
      let s := set_inflight (delete k (inflight s)) s in
      match r with
      | DailyRequest _ _ _ _ => s
      | InfiniteRequest => onInfiniteError s
      end
  end.

Definition step (e : Env) (ev : Event) (s : State) : State :=
  match ev with
  | Reload => pageLoad e (localStorage s) (seenStore s)
  | ClearCache => clearCache e s
  | TokenValidated token => onTokenValidated e token s
  | SetMediaMode mode => setMediaMode e mode s
  | ToggleInfiniteMemory => toggleInfiniteMemory s
  | RequestTabSwitch tab => requestTabSwitch e tab s
  | ConfirmLeaveTab => confirmLeaveTab e s
  | CancelLeaveTab => cancelLeaveTab s
  | OnInput term => onInput term s
  | SelectSuggestion m => selectSuggestion m s
  | GiveUp => giveUp s
  | ConfirmGiveUp => confirmGiveUp e s
  | CancelGiveUp => cancelGiveUp s
  | ValidateGuess => validateGuess e s
  | NextStep => nextStep e s
  | LoadNextInfiniteMovie => loadNextInfiniteMovie s
  | CatalogAnswered k m picked => catalogAnswered e k m picked s
  | CatalogFailed k => catalogFailed k s
  end.

(** A session: the first page load on an empty store, then the events in
    order, each with what it reads from outside. *)
Fixpoint run (trace : list (Env * Event)) (s : State) : State :=
  match trace with
  | [] => s
  | (e, ev) :: rest => run rest (step e ev s)
  end.

Definition session (e0 : Env) (trace : list (Env * Event)) : State :=
  run trace (pageLoad e0 ∅ ∅).

End Session.

(* ===================================================================== *)
(** * The session: what the template reads *)
(* ===================================================================== *)

(** [computed(() => Math.max(0, this.progressionSteps.length
                                - this.currentStepIndex()))] *)
Definition remainingAttempts (s : State) : Z :=
  Z.max 0 (Z.of_nat (length progressionSteps) - currentStepIndex s).

(** [seenIds] of [loadInfiniteMovie]: the ids handed to the catalog
    service as [excludeIds]. *)
Definition seenIds (e : Env) (s : State) : list Z :=
  if infiniteMemoryEnabled s then movieId <$> getSeenRandomMovies e s else [].

Section Shuffle.
Context {T : Type}.

(** [[result[i], result[j]] = [result[j], result[i]]]: both elements are
    read, then written.  [None] when an index is outside the array, where
    JavaScript would read [undefined] and extend the array: the indices
    [shuffleArray] computes from values of [Math.random()] are inside. *)
Definition swap (i j : nat) (result : list T) : option (list T) :=
  match result !! i, result !! j with
  | Some ri, Some rj => Some (<[j := ri]> (<[i := rj]> result))
  | _, _ => None
  end.

(** [for (let i = result.length - 1; i > 0; i--)]; [random call] is the
    value of [Math.random()] in the iteration.  The numbers of the array
    are moved, never inspected: the array is taken over any type of
    elements. *)
Fixpoint shuffleLoop (random : nat → Q) (call i : nat) (result : list T)
  : option (list T) :=
  match i with
  | O => Some result
  | S i' =>
      let j := Qfloor (random call * inject_Z (Z.of_nat i + 1)) in
      if j <? 0 then None
      else match swap i (Z.to_nat j) result with
           | Some result => shuffleLoop random (S call) i' result
           | None => None
           end
  end.

Definition shuffleArray (random : nat → Q) (array : list T) : option (list T) :=
  shuffleLoop random 0 (length array - 1) array.

End Shuffle.

(** [Array.from({ length: count }, (_, i) => i)]; a count that is
    [undefined] gives the empty array. *)
Definition stripIndices (count : option Z) : list Z :=
  match count with Some n => seqZ 0 n | None => [] end.

(** [shuffledStrips] *)
Definition shuffledStrips (e : Env) (s : State) : option (list Z) :=
  shuffleArray (random e) (stripIndices (currentStripCount s)).

(* ===================================================================== *)
(** * Vocabulary of the properties *)
(* ===================================================================== *)

(** Text made of the characters the normalizer keeps. *)
Definition alnumOnly (s : jsstring) : Prop :=
  Forall (λ c, (isLowerAlpha c || isDigit c) = true) s.

Definition asciiOnly (s : jsstring) : Prop := Forall (λ c, isAscii c = true) s.

(** The titles of a catalog item are ASCII. *)
Definition asciiMovie (m : Movie) : Prop :=
  asciiOnly (title m) ∧ asciiOnly (default [] (original_title m))
  ∧ asciiOnly (default [] (original_name m)).

(** The fragment of a free-text guess: the title [extractGuess] returns. *)
Definition guessFragment (raw : jsstring) : jsstring := (extractGuess raw).1.
Definition guessYearOf (raw : jsstring) : jsstring := (extractGuess raw).2.

(** [targetMovie?.release_date?.substring(0, 4) || ''] *)
Definition targetYearOf (tgt : option Movie) : jsstring := from_option yearOf [] tgt.

(** The guess names no year, the target has none, or they are the same. *)
Definition yearsCompatible (raw : jsstring) (tgt : option Movie) : Prop :=
  guessYearOf raw = [] ∨ targetYearOf tgt = [] ∨ guessYearOf raw = targetYearOf tgt.

(** The reading under which the literal is accepted whatever the target. *)
Definition win_literal_always_correct (U : UnicodeOps) : Prop :=
  ∀ raw tgt,
    normalizeTitle (guessFragment raw) false = js "win" →
    isCorrectGuess raw None tgt = true.

(** The target of the specification's example, whatever its catalog id. *)
Definition inceptionWithId (i : Z) : Movie := {|
  id := i;
  title := js "Inception";
  release_date := Some (js "2010-07-14");
  original_title := Some (js "Inception");
  original_name := None
|}.

(** Four intervals of width 0.25, in the order none, flip, desaturate,
    obscure. *)
Definition quarterBucket (rand : Q) : StripEffect :=
  if Qltb rand (1 # 4) then NoEffect
  else if Qltb rand (1 # 2) then rotate180
  else if Qltb rand (3 # 4) then grayscale
  else blackout.

(** The reading under which every draw lands in the bucket of its quarter. *)
Definition equal_quarter_buckets : Prop :=
  ∀ rand : Q, (0 <= rand)%Q → (rand < 1)%Q → effectOfDraw rand = quarterBucket rand.

(** [a <= b] on numbers; nothing is below or above [NaN]. *)
Definition leNumber (a b : number) : Prop :=
  match a, b with
  | Int x, Int y => x ≤ y
  | _, _ => False
  end.

(** A current streak [c] and a best of the day [t]: [0 <= c <= t]. *)
Definition signalsOk (c t : number) : Prop := leNumber (Int 0) c ∧ leNumber c t.

(** [parseInt(localStorage.getItem(k) || '0', 10)] *)
Definition readNumber (ls : gmap string string) (k : string) : number :=
  parseInt (orZero (ls !! k)).

(** Every streak record of the store, read on the day [day], has
    [0 <= current <= today-best]. *)
Definition ledgerOk (day : string) (ls : gmap string string) : Prop :=
  ∀ (mode : Tab) (s0 : State),
    let keys := getStreakStorageKeys mode s0 in
    signalsOk (readNumber ls (currentKey keys)) (readNumber ls (todayKey keys +:+ day)).

(** [k] is neither a current-streak key nor a today-best key of [day]. *)
Definition notStreakKey (day k : string) : Prop :=
  ∀ (mode : Tab) (s0 : State),
    let keys := getStreakStorageKeys mode s0 in
    k ≠ currentKey keys ∧ k ≠ todayKey keys +:+ day.

(** The signals and the store agree with the streak discipline. *)
Definition streakInvariant (day : string) (s : State) : Prop :=
  signalsOk (currentStreak s) (todayBestStreak s) ∧ ledgerOk day (localStorage s).

(** The step index addresses a progression step. *)
Definition stepIndexOk (s : State) : Prop :=
  0 ≤ currentStepIndex s ≤ Z.of_nat (length progressionSteps) - 1.

Section Rounds.
Context {U : UnicodeOps}.






End Rounds.

(** The reading under which a tab switch asks for confirmation exactly
    while an infinite puzzle is being played. *)
Definition prompt_only_while_playing : Prop :=
  ∀ e s tab,
    tab ≠ activeTab s → showLeaveConfirm s = false →
    (showLeaveConfirm (requestTabSwitch e tab s) = true
     ↔ isInfiniteTab (activeTab s) = true ∧ gameStatus s = playing).

(** A concrete session.  On a day of November 2026 the token is accepted,
    the player opens infinite mode, the catalog answers with Inception and
    the player names it. *)
Definition inception : Movie := inceptionWithId 27205.

Definition november (d : Z) : Env :=
  {| today := {| getFullYear := 2026; getMonth := 10; getDate := d |};
     now := 0;
     random := λ _, 0%Q |}.

Definition firstWin : list (Env * Event) :=
  [ (november 1, TokenValidated "token");
    (november 1, RequestTabSwitch infinite);
    (november 1, CatalogAnswered 1 inception false);
    (november 1, OnInput (js "inception"));
    (november 1, ValidateGuess) ].

(** A daily puzzle is loaded and the player submits an empty guess, a
    skip, [n] times. *)
Definition skips (n : nat) : list (Env * Event) :=
  [ (november 1, TokenValidated "token");
    (november 1, CatalogAnswered 0 inception true) ]
  ++ replicate n (november 1, ValidateGuess).

(** Values [Math.random()] can return: in [0, 1). *)
Definition unitDraws (random : nat → Q) : Prop :=
  ∀ k, (0 <= random k)%Q ∧ (random k < 1)%Q.

(** No (daily tab, media kind, day) tuple has both its win flag and its
    loss flag in the store. *)
Definition dailyFlagsExclusive (ls : gmap string string) : Prop :=
  ∀ (tab : Tab) (s0 : State) (day : string),
    ls !! (getDailyStoragePrefix tab win s0 +:+ day) = None
    ∨ ls !! (getDailyStoragePrefix tab loss s0 +:+ day) = None.

(** [k] is no key of a daily outcome flag. *)
Definition notDailyFlagKey (k : string) : Prop :=
  ∀ (tab : Tab) (type : Outcome) (s0 : State) (day : string),
    k ≠ getDailyStoragePrefix tab type s0 +:+ day.

(** The settings [ngOnInit] restores from a store. *)
Definition savedMediaMode (ls : gmap string string) : Media :=
  if bool_decide (ls !! LS_MEDIA_MODE = Some "tv") then media_tv else media_movie.

Definition savedInfiniteMemory (ls : gmap string string) : bool :=
  bool_decide (ls !! LS_INFINITE_MEMORY ≠ Some "false").

(** The media kind and the memory setting of the component are the ones
    its store holds. *)
Definition settingsPersisted (s : State) : Prop :=
  mediaMode s = savedMediaMode (localStorage s)
  ∧ infiniteMemoryEnabled s = savedInfiniteMemory (localStorage s).

Definition notSettingsKey (k : string) : Prop :=
  k ≠ LS_MEDIA_MODE ∧ k ≠ LS_INFINITE_MEMORY.

(** Every streak record of the store has [0 <= current <= all-time best]. *)
Definition allTimeLedgerOk (ls : gmap string string) : Prop :=
  ∀ (mode : Tab) (s0 : State),
    let keys := getStreakStorageKeys mode s0 in
    signalsOk (readNumber ls (currentKey keys)) (readNumber ls (allTimeKey keys)).

(** [k] is neither a current-streak key nor an all-time-best key. *)
Definition notAllTimeLedgerKey (k : string) : Prop :=
  ∀ (mode : Tab) (s0 : State),
    let keys := getStreakStorageKeys mode s0 in
    k ≠ currentKey keys ∧ k ≠ allTimeKey keys.

Definition allTimeInvariant (s : State) : Prop :=
  signalsOk (currentStreak s) (allTimeBestStreak s) ∧ allTimeLedgerOk (localStorage s).

(** In an infinite tab the three streak signals are the numbers the store
    holds under the keys of the tab and of the media kind, the best of the
    day under the key of [day]. *)
Definition shownIsStored (day : string) (s : State) : Prop :=
  isInfiniteTab (activeTab s) = true →
  let keys := getStreakStorageKeys (activeTab s) s in
  currentStreak s = readNumber (localStorage s) (currentKey keys)
  ∧ todayBestStreak s = readNumber (localStorage s) (todayKey keys +:+ day)
  ∧ allTimeBestStreak s = readNumber (localStorage s) (allTimeKey keys).

(** [k] is no key of a streak record, whatever the day. *)
Definition foreignKey (k : string) : Prop :=
  ∀ (mode : Tab) (s0 : State) (day : string),
    let keys := getStreakStorageKeys mode s0 in
    k ≠ currentKey keys ∧ k ≠ todayKey keys +:+ day ∧ k ≠ allTimeKey keys.

(** A catalog page for the examples: items with a poster, told apart by
    their id and original language. *)
Definition posterItem (i : Z) (language : string) : MovieService.Result :=
  {| MovieService.movieOf := inceptionWithId i;
     MovieService.poster_path := Some "/poster.jpg";
     MovieService.original_language := Some language |}.

Definition samplePage : list MovieService.Result :=
  [ posterItem 1 "ja"; posterItem 2 "en"; posterItem 3 "fr" ].

(** A date of the calendar whose year has four digits. *)
Definition calendarDate (d : Date) : Prop :=
  1000 ≤ getFullYear d ≤ 9999 ∧ 0 ≤ getMonth d ≤ 11 ∧ 1 ≤ getDate d ≤ 31.

(** [toString y] has four characters, and the last two are those of
    [y mod 100] padded to two. *)
Definition fourDigits (y : Z) : bool :=
  match toString (Int y) with
  | String a (String b (String c (String d EmptyString))) =>
      String.eqb (String c (String d EmptyString)) (padStart2 (toString (Int (y mod 100))))
  | _ => false
  end.

(** [padStart2 (toString n)] has two characters and reads back as [n]. *)
Definition twoDigits (n : Z) : bool :=
  match padStart2 (toString (Int n)) with
  | String a (String b EmptyString) =>
      match parseInt (padStart2 (toString (Int n))) with
      | Int z => z =? n
      | NaN => false
      end
  | _ => false
  end.

Section Attempts.
Context {U : UnicodeOps}.

(** The player types [g] and submits it. *)
Definition submitGuess (r : Env * jsstring) (s : State) : State :=
  validateGuess r.1 (onInput r.2 s).

(** A guess that fails against [target]: blank (a skip), or not blank and
    classified incorrect. *)
Definition failedGuess (target : option Movie) (r : Env * jsstring) : Prop :=
  truthy (trim r.2) = false ∨ isCorrectGuess r.2 None target = false.

Definition submitGuesses (rounds : list (Env * jsstring)) (s : State) : State :=
  foldl (λ s r, submitGuess r s) s rounds.

End Attempts.

(** What the normalizer computes on ASCII text when it keeps the
    articles: the letters lower-cased and the digits, nothing else. *)
Definition asciiFold (s : jsstring) : jsstring := keepAlphanumeric (map asciiToLower s).

(** [s] holds a character that is not white space. *)
Definition notBlank (s : jsstring) : Prop := ∃ c, c ∈ s ∧ isWhiteSpace c = false.






(** The numbers [Number.prototype.toString] prints in decimal digits, so
    that [parseInt] reads them back: the integers below 10^21 in
    magnitude (from 10^21 on the text is in exponent notation, as in
    [1e+21]), and [NaN]. *)
Definition printsDecimal (n : number) : Prop :=
  match n with Int z => Z.abs z < 10 ^ 21 | NaN => True end.

(** The store of seen lists holds the entry [x] in the list under [key]. *)
Definition remembered (key : string) (x : SeenMovie) (s : State) : Prop :=
  ∃ l, seenStore s !! key = Some l ∧ x ∈ l.

(** The answers of the catalog, among the events of a session. *)
Definition isCatalogEvent (ev : Event) : bool :=
  match ev with
  | CatalogAnswered _ _ _ | CatalogFailed _ => true
  | _ => false
  end.

(** A request issued for a daily tab, not by [loadInfiniteMovie]. *)
Definition isDailyRequest (r : Request) : bool :=
  match r with DailyRequest _ _ _ _ => true | InfiniteRequest => false end.

(** The day of the active daily tab is decided and shown as such: won
    with [dailyCompleted] set, or lost. *)
Definition decidedDay (s : State) : Prop :=
  (dailyCompleted s = true ∧ gameStatus s = won)
  ∨ (dailyCompleted s = false ∧ gameStatus s = lost).


(* ===================================================================== *)
(** * The definitions on the examples of the specification *)
(* ===================================================================== *)

Example normalize_amelie :
  normalizeTitle (U := latin1Ops) [0x41; 0x6D; 0xE9; 0x6C; 0x69; 0x65]%N false = js "amelie".
Proof. reflexivity. Qed.

Example normalize_les_intouchables :
  normalizeTitle (U := latin1Ops) (js "Les Intouchables") true = js "intouchables".
Proof. reflexivity. Qed.

Example extract_inception :
  extractGuess (js "Inception (2010)") = (js "Inception", js "2010").
Proof. reflexivity. Qed.

Example evaluate_inception :
  isCorrectGuess (U := latin1Ops) (js "inception 2010") None (Some inception) = true.
Proof. vm_compute. reflexivity. Qed.

Example today_key_example :
  getTodayKey {| getFullYear := 2026; getMonth := 2; getDate := 7 |} = "20260307".
Proof. reflexivity. Qed.

Example format_date_example : formatDateForDisplay "20260307" = "07/03/26".
Proof. reflexivity. Qed.

Example parseInt_examples :
  parseInt "12" = Int 12 ∧ parseInt " -7px" = Int (-7) ∧ parseInt "true" = NaN
  ∧ parseInt (toString (Int 2026)) = Int 2026.
Proof. repeat split; reflexivity. Qed.

(* ===================================================================== *)
(** * Properties of the title normalizer *)
(* ===================================================================== *)

Lemma asciiOnly_forallb s : asciiOnly s ↔ forallb isAscii s = true.
Proof.
  unfold asciiOnly. rewrite forallb_forall, Forall_forall.
  split; intros H x Hx; apply H; by apply list_elem_of_In.
Qed.

Lemma alnum_ascii c : (isLowerAlpha c || isDigit c) = true → isAscii c = true.
Proof. unfold isLowerAlpha, isDigit, isAscii. intros H. lia. Qed.

Lemma alnum_not_space c : (isLowerAlpha c || isDigit c) = true → isWhiteSpace c = false.
Proof. unfold isLowerAlpha, isDigit, isWhiteSpace. intros H. lia. Qed.

Lemma alnum_lower c : (isLowerAlpha c || isDigit c) = true → asciiToLower c = c.
Proof.
  unfold isLowerAlpha, isDigit, asciiToLower. intros H.
  destruct ((0x41 <=? c)%N && (c <=? 0x5A)%N) eqn:E; [lia | done].
Qed.

Lemma alnumOnly_asciiOnly s : alnumOnly s → asciiOnly s.
Proof. intros H. eapply Forall_impl; [exact H | apply alnum_ascii]. Qed.

Lemma alnumOnly_lower s : alnumOnly s → map asciiToLower s = s.
Proof.
  induction 1 as [|c s Hc _ IH]; [done |].
  cbn [map]. by rewrite alnum_lower, IH.
Qed.

Lemma alnumOnly_trimStart s : alnumOnly s → trimStart s = s.
Proof.
  destruct 1 as [|c s Hc _]; [done |].
  cbn [trimStart]. by rewrite alnum_not_space.
Qed.

Lemma alnumOnly_trim s : alnumOnly s → trim s = s.
Proof.
  intros H. unfold trim, trimEnd. rewrite (alnumOnly_trimStart s H).
  rewrite alnumOnly_trimStart; [apply reverse_involutive |].
  by apply Forall_reverse.
Qed.

Lemma alnumOnly_removeElision s : alnumOnly s → removeElision s = s.
Proof.
  intros H. destruct s as [|l [|c r]]; [done | done |].
  assert (Hc : (isLowerAlpha c || isDigit c) = true).
  { inversion H as [|? ? _ H2]; subst. by inversion H2. }
  unfold removeElision.
  assert (((l =? 0x6C) && ((c =? 0x27) || (c =? 0x60)))%N = false) as ->
    by (unfold isLowerAlpha, isDigit in Hc; lia).
  done.
Qed.

Lemma alnumOnly_matchArticle alt s : alnumOnly s → matchArticle alt s = None.
Proof.
  intros H. unfold matchArticle. destruct (startsWith alt s); [| done].
  assert (Hd : alnumOnly (drop (length alt) s)) by by apply Forall_drop.
  destruct Hd as [|c r Hc _]; [done |]. by rewrite alnum_not_space.
Qed.

Lemma alnumOnly_removeArticle alts s : alnumOnly s → removeArticle alts s = s.
Proof.
  intros H. induction alts as [|alt rest IH]; [done |].
  cbn [removeArticle]. by rewrite alnumOnly_matchArticle.
Qed.

Lemma alnumOnly_removeCombiningMarks s : alnumOnly s → removeCombiningMarks s = s.
Proof.
  intros H. unfold removeCombiningMarks.
  induction H as [|c s Hc _ IH]; [done |].
  rewrite filter_cons, IH. rewrite decide_True; [done |].
  unfold isLowerAlpha, isDigit in Hc. lia.
Qed.

Lemma alnumOnly_keepAlphanumeric s : alnumOnly s → keepAlphanumeric s = s.
Proof.
  intros H. unfold keepAlphanumeric.
  induction H as [|c s Hc _ IH]; [done |].
  rewrite filter_cons, IH. by rewrite decide_True.
Qed.

Lemma keepAlphanumeric_alnumOnly s : alnumOnly (keepAlphanumeric s).
Proof.
  unfold alnumOnly, keepAlphanumeric. apply Forall_forall.
  intros c Hc. by apply list_elem_of_filter in Hc as [Hc _].
Qed.

Section NormalizerFacts.
Context {U : UnicodeOps} (L : UnicodeLaws U).

Lemma toLowerCase_alnumOnly s : alnumOnly s → toLowerCase s = s.
Proof.
  intros H. rewrite (toLowerCase_ascii U L).
  - by apply alnumOnly_lower.
  - by apply asciiOnly_forallb, alnumOnly_asciiOnly.
Qed.

Lemma normalizeNFD_alnumOnly s : alnumOnly s → normalizeNFD s = s.
Proof.
  intros H. apply (normalizeNFD_ascii U L).
  by apply asciiOnly_forallb, alnumOnly_asciiOnly.
Qed.

Lemma stripLeadingArticles_alnumOnly s : alnumOnly s → stripLeadingArticles s = s.
Proof.
  intros H. unfold stripLeadingArticles.
  rewrite (alnumOnly_trim s H), (toLowerCase_alnumOnly s H).
  rewrite (alnumOnly_removeElision s H), (alnumOnly_removeArticle _ s H).
  by apply alnumOnly_trim.
Qed.

Lemma normalizeTitle_alnumOnly s d : alnumOnly (normalizeTitle s d).
Proof. apply keepAlphanumeric_alnumOnly. Qed.

Lemma normalizeTitle_fixes_alnumOnly s d : alnumOnly s → normalizeTitle s d = s.
Proof.
  intros H. unfold normalizeTitle.
  assert ((if d then stripLeadingArticles s else s) = s) as ->
    by (destruct d; [by apply stripLeadingArticles_alnumOnly | done]).
  rewrite (toLowerCase_alnumOnly s H), (normalizeNFD_alnumOnly s H).
  rewrite (alnumOnly_removeCombiningMarks s H).
  by apply alnumOnly_keepAlphanumeric.
Qed.

End NormalizerFacts.

(** The Latin-1 table is a lawful platform. *)
Lemma latin1LowerUnit_ascii c : isAscii c = true → latin1LowerUnit c = asciiToLower c.
Proof.
  unfold isAscii, latin1LowerUnit, asciiToLower. intros H.
  destruct ((0x41 <=? c)%N && (c <=? 0x5A)%N); [done |].
  destruct ((0xC0 <=? c)%N && (c <=? 0xDE)%N && negb (c =? 0xD7)%N) eqn:E; [lia | done].
Qed.

Lemma lookupDecomposition_ascii c :
  isAscii c = true → lookupDecomposition c latin1Decompositions = None.
Proof.
  unfold isAscii. intros H. unfold latin1Decompositions.
  repeat (cbn [lookupDecomposition];
          match goal with
          | |- context [(?k =? c)%N] => destruct (N.eqb_spec k c); [lia |]
          end).
  done.
Qed.

Lemma latin1NfdUnit_ascii c : isAscii c = true → latin1NfdUnit c = [c].
Proof.
  intros H. unfold latin1NfdUnit. rewrite (lookupDecomposition_ascii c H).
  unfold isAscii in H.
  destruct (N.eqb_spec c 0xFF); [lia |].
  destruct ((0xE0 <=? c)%N && (c <=? 0xFE)%N) eqn:E; [lia | done].
Qed.

Lemma latin1Laws : UnicodeLaws latin1Ops.
Proof.
  split; intros s Hs; apply asciiOnly_forallb in Hs; cbn.
  - induction Hs as [|c s Hc _ IH]; [done |].
    cbn [map]. by rewrite latin1LowerUnit_ascii, IH.
  - induction Hs as [|c s Hc _ IH]; [done |].
    cbn [flat_map]. by rewrite latin1NfdUnit_ascii, IH.
Qed.

(** C8 — Title normalization is idempotent on every platform whose
    lower-casing and canonical decomposition behave on ASCII text as the
    standard requires: for every string [s] and both values of the
    [dropArticles] flag [d],
    [normalizeTitle (normalizeTitle s d) d = normalizeTitle s d]. *)
Theorem normalizeTitle_idempotent (U : UnicodeOps) (L : UnicodeLaws U)
    (s : jsstring) (d : bool) :
  normalizeTitle (normalizeTitle s d) d = normalizeTitle s d.
Proof.
  apply (normalizeTitle_fixes_alnumOnly L), normalizeTitle_alnumOnly.
Qed.

Lemma normalizeTitle_idempotent_witness :
  UnicodeLaws latin1Ops
  ∧ normalizeTitle (U := latin1Ops)
      (normalizeTitle (U := latin1Ops) (js "The  " ++ [0xCE%N] ++ js "le-de-France") true)
      true
    = normalizeTitle (U := latin1Ops) (js "The  " ++ [0xCE%N] ++ js "le-de-France") true.
Proof.
  split; [exact latin1Laws |].
  exact (normalizeTitle_idempotent latin1Ops latin1Laws _ true).
Defined.

(* ===================================================================== *)
(** * Properties of the guess evaluator *)
(* ===================================================================== *)

(** On ASCII text every lawful platform computes the same thing, so a
    guess typed in ASCII against an ASCII title can be evaluated with the
    Latin-1 table. *)

Lemma asciiOnly_trimStart s : asciiOnly s → asciiOnly (trimStart s).
Proof.
  induction 1 as [|c s Hc Hs IH]; [constructor |].
  cbn [trimStart]. destruct (isWhiteSpace c); [done | by constructor].
Qed.

Lemma asciiOnly_trim s : asciiOnly s → asciiOnly (trim s).
Proof.
  intros H. unfold trim, trimEnd.
  apply Forall_reverse, asciiOnly_trimStart, Forall_reverse.
  by apply asciiOnly_trimStart.
Qed.

Lemma asciiOnly_lower s : asciiOnly s → asciiOnly (map asciiToLower s).
Proof.
  intros H. apply Forall_fmap. eapply Forall_impl; [exact H |].
  intros c Hc. cbn. unfold isAscii, asciiToLower in *.
  destruct ((0x41 <=? c)%N && (c <=? 0x5A)%N) eqn:E; lia.
Qed.

Lemma asciiOnly_removeElision s : asciiOnly s → asciiOnly (removeElision s).
Proof.
  intros H. destruct s as [|l [|c r]]; [done | done |].
  unfold removeElision. case_match; [| done].
  inversion H as [|? ? _ H2]; subst. by inversion H2.
Qed.

Lemma asciiOnly_removeArticle alts s : asciiOnly s → asciiOnly (removeArticle alts s).
Proof.
  intros H. induction alts as [|alt rest IH]; [done |].
  cbn [removeArticle]. unfold matchArticle.
  destruct (startsWith alt s); [| done].
  assert (Hd : asciiOnly (drop (length alt) s)) by by apply Forall_drop.
  destruct Hd as [|c r Hc Hr]; [done |].
  destruct (isWhiteSpace c); [by apply asciiOnly_trimStart | done].
Qed.

Lemma asciiOnly_replaceFirst pat s : asciiOnly s → asciiOnly (replaceFirst pat s).
Proof.
  induction 1 as [|c s Hc Hs IH]; cbn [replaceFirst].
  - destruct (startsWith pat []); [apply Forall_drop |]; constructor.
  - destruct (startsWith pat (c :: s)).
    + apply Forall_drop. by constructor.
    + by constructor.
Qed.

Lemma asciiOnly_filter (P : N → Prop) `{!∀ c, Decision (P c)} s :
  asciiOnly s → asciiOnly (filter P s).
Proof.
  unfold asciiOnly. rewrite !Forall_forall. intros Hs c Hc.
  apply list_elem_of_filter in Hc as [_ Hc]. by apply Hs.
Qed.

Lemma asciiOnly_extractGuess raw : asciiOnly raw → asciiOnly (extractGuess raw).1.
Proof.
  intros H. unfold extractGuess. cbn [fst].
  apply asciiOnly_trim, asciiOnly_filter.
  destruct (truthy _); [by apply asciiOnly_replaceFirst | done].
Qed.

Section Agreement.
Context (U1 U2 : UnicodeOps) (L1 : UnicodeLaws U1) (L2 : UnicodeLaws U2).

Lemma toLowerCase_agree s :
  asciiOnly s → toLowerCase (UnicodeOps := U1) s = toLowerCase (UnicodeOps := U2) s.
Proof.
  intros H%asciiOnly_forallb.
  by rewrite (toLowerCase_ascii U1 L1), (toLowerCase_ascii U2 L2).
Qed.

Lemma stripLeadingArticles_agree s :
  asciiOnly s →
  stripLeadingArticles (U := U1) s = stripLeadingArticles (U := U2) s
  ∧ asciiOnly (stripLeadingArticles (U := U2) s).
Proof.
  intros H. unfold stripLeadingArticles.
  rewrite (toLowerCase_agree (trim s)) by by apply asciiOnly_trim.
  split; [done |].
  rewrite (toLowerCase_ascii U2 L2) by by apply asciiOnly_forallb, asciiOnly_trim.
  by apply asciiOnly_trim, asciiOnly_removeArticle, asciiOnly_removeElision,
    asciiOnly_lower, asciiOnly_trim.
Qed.

Lemma normalizeTitle_agree s d :
  asciiOnly s → normalizeTitle (U := U1) s d = normalizeTitle (U := U2) s d.
Proof.
  intros H. unfold normalizeTitle.
  assert (∃ b, (if d then stripLeadingArticles (U := U1) s else s) = b
               ∧ (if d then stripLeadingArticles (U := U2) s else s) = b
               ∧ asciiOnly b) as (b & -> & -> & Hb).
  { destruct d; [| by exists s].
    destruct (stripLeadingArticles_agree s H) as [E Ha].
    exists (stripLeadingArticles (U := U2) s). rewrite E. by repeat split. }
  assert (Hl : forallb isAscii b = true) by by apply asciiOnly_forallb.
  rewrite (toLowerCase_ascii U1 L1 b Hl), (toLowerCase_ascii U2 L2 b Hl).
  assert (Hm : forallb isAscii (map asciiToLower b) = true)
    by by apply asciiOnly_forallb, asciiOnly_lower.
  by rewrite (normalizeNFD_ascii U1 L1 _ Hm), (normalizeNFD_ascii U2 L2 _ Hm).
Qed.

Lemma isCorrectGuess_agree raw sel tgt :
  asciiOnly raw → from_option asciiMovie True sel → from_option asciiMovie True tgt →
  isCorrectGuess (U := U1) raw sel tgt = isCorrectGuess (U := U2) raw sel tgt.
Proof.
  intros Hraw Hsel Htgt. unfold isCorrectGuess.
  pose proof (asciiOnly_extractGuess raw Hraw) as Hg.
  destruct (extractGuess raw) as [guessTitle guessYear]. cbn [fst] in Hg.
  assert (Ht : asciiOnly (from_option title [] tgt)).
  { destruct tgt as [t|]; [apply Htgt | constructor]. }
  assert (Ho : asciiOnly match tgt with
                         | Some t => orElse (default [] (original_title t))
                                            (default [] (original_name t))
                         | None => []
                         end).
  { destruct tgt as [t|]; [| constructor].
    destruct Htgt as (_ & H1 & H2). unfold orElse. by case_match. }
  rewrite !(normalizeTitle_agree guessTitle) by done.
  rewrite !(normalizeTitle_agree (from_option title [] tgt)) by done.
  rewrite !(normalizeTitle_agree _ _ Ho).
  destruct sel as [sl|]; [| done]. destruct tgt as [t|]; [| done].
  destruct Hsel as (Hs & _).
  by rewrite !(normalizeTitle_agree (title sl)) by done.
Qed.

End Agreement.

(** Counterexample to the unconditional reading — the free-text guess [win 1999] has the
    normalized fragment [win], and against Inception (2010) it is
    classified incorrect: the year of the guess does not match. *)
Lemma win_literal_wrong_year :
  normalizeTitle (U := latin1Ops) (guessFragment (js "win 1999")) false = js "win"
  ∧ isCorrectGuess (U := latin1Ops) (js "win 1999") None (Some inception) = false
  ∧ ¬ win_literal_always_correct latin1Ops.
Proof.
  assert (H1 : normalizeTitle (U := latin1Ops) (guessFragment (js "win 1999")) false
               = js "win") by by vm_compute.
  assert (H2 : isCorrectGuess (U := latin1Ops) (js "win 1999") None (Some inception)
               = false) by by vm_compute.
  split; [exact H1 |]. split; [exact H2 |].
  intros H. specialize (H (js "win 1999") (Some inception) H1). congruence.
Qed.

(** C4 (amended) — for every free-text guess (no autocomplete selection)
    whose normalized title fragment equals the literal [win], the
    evaluator classifies the guess as correct for every target whose year
    is compatible with the guess: the guess names no year, the target has
    no year, or the two years are equal. *)
Theorem win_literal_correct_when_years_compatible (U : UnicodeOps)
    (raw : jsstring) (tgt : option Movie) :
  normalizeTitle (guessFragment raw) false = js "win" →
  yearsCompatible raw tgt →
  isCorrectGuess raw None tgt = true.
Proof.
  unfold yearsCompatible, guessFragment, guessYearOf, targetYearOf, isCorrectGuess.
  destruct (extractGuess raw) as [guessTitle guessYear]. cbn [fst snd].
  intros Hwin Hyear. rewrite Hwin.
  assert (negb (truthy guessYear) || negb (truthy (from_option yearOf [] tgt))
          || streq guessYear (from_option yearOf [] tgt) = true) as Hy.
  { destruct Hyear as [-> | [-> | ->]]; cbn.
    - done.
    - by rewrite orb_true_r.
    - unfold streq. rewrite bool_decide_eq_true_2 by done. by rewrite orb_true_r. }
  destruct tgt; cbn [from_option] in *; rewrite Hy; cbn [andb];
    unfold streq at 5; rewrite (bool_decide_eq_true_2 (js "win" = js "win")) by done;
    by rewrite !orb_true_r.
Qed.

Lemma win_literal_correct_when_years_compatible_witness :
  normalizeTitle (U := latin1Ops) (guessFragment (js "Win! (2010)")) false = js "win"
  ∧ yearsCompatible (js "Win! (2010)") (Some inception)
  ∧ isCorrectGuess (U := latin1Ops) (js "Win! (2010)") None (Some inception) = true.
Proof.
  assert (H1 : normalizeTitle (U := latin1Ops) (guessFragment (js "Win! (2010)")) false
               = js "win") by by vm_compute.
  assert (H2 : yearsCompatible (js "Win! (2010)") (Some inception))
    by (right; right; by vm_compute).
  split; [exact H1 |]. split; [exact H2 |].
  exact (win_literal_correct_when_years_compatible latin1Ops _ _ H1 H2).
Defined.

(** C6 — Given the target with title Inception, original title Inception
    and release date 2010-07-14, and no autocomplete selection, the raw
    guess [inception 2010] is classified correct and the raw guess
    [Inception 2011] incorrect, on every lawful platform. *)
Theorem inception_example (U : UnicodeOps) (L : UnicodeLaws U) (i : Z) :
  isCorrectGuess (js "inception 2010") None (Some (inceptionWithId i)) = true
  ∧ isCorrectGuess (js "Inception 2011") None (Some (inceptionWithId i)) = false.
Proof.
  assert (Hm : from_option (asciiMovie) True (Some (inceptionWithId i))).
  { repeat split; by apply asciiOnly_forallb. }
  split.
  - rewrite (isCorrectGuess_agree U latin1Ops L latin1Laws); [by vm_compute | | done..].
    by apply asciiOnly_forallb.
  - rewrite (isCorrectGuess_agree U latin1Ops L latin1Laws); [by vm_compute | | done..].
    by apply asciiOnly_forallb.
Qed.

Lemma inception_example_witness :
  UnicodeLaws latin1Ops
  ∧ isCorrectGuess (U := latin1Ops) (js "inception 2010") None (Some (inceptionWithId 27205))
    = true
  ∧ isCorrectGuess (U := latin1Ops) (js "Inception 2011") None (Some (inceptionWithId 27205))
    = false.
Proof.
  split; [exact latin1Laws |].
  exact (inception_example latin1Ops latin1Laws 27205).
Defined.

(* ===================================================================== *)
(** * Properties of the strip effect generator *)
(* ===================================================================== *)

Lemma Qltb_lt (a b : Q) : Qltb a b = true ↔ (a < b)%Q.
Proof. unfold Qltb, Qlt. apply Z.ltb_lt. Qed.

Lemma Qltb_ge (a b : Q) : Qltb a b = false ↔ (b <= a)%Q.
Proof. unfold Qltb, Qle. rewrite Z.ltb_ge. done. Qed.

(** Counterexample to the equal-quarters reading — the draw 0.3 lies in the second quarter of
    [0, 1), where the specification puts flip, and the generator leaves
    the strip without effect. *)
Lemma draw_three_tenths_has_no_effect :
  effectOfDraw (3 # 10) = NoEffect
  ∧ quarterBucket (3 # 10) = rotate180
  ∧ ¬ equal_quarter_buckets.
Proof.
  split; [reflexivity |]. split; [reflexivity |].
  intros H.
  assert (E := H (3 # 10) ltac:(by compute) ltac:(by compute)). discriminate E.
Qed.

Lemma effectsLoop_length random i n : length (effectsLoop random i n) = n.
Proof. revert i. induction n as [|n IH]; intros i; cbn; [done | by rewrite IH]. Qed.

Lemma effectsLoop_lookup random i n k :
  (k < n)%nat → effectsLoop random i n !! k = Some (effectOfDraw (random (i + k)%nat)).
Proof.
  revert i k. induction n as [|n IH]; intros i k Hk; [lia |].
  destruct k as [|k]; cbn.
  - by rewrite Nat.add_0_r.
  - rewrite IH by lia. do 3 f_equal. lia.
Qed.

Lemma effectOfDraw_buckets (rand : Q) :
  (effectOfDraw rand = NoEffect ↔ (rand < double_0_4)%Q)
  ∧ (effectOfDraw rand = rotate180 ↔ (double_0_4 <= rand)%Q ∧ (rand < double_0_6)%Q)
  ∧ (effectOfDraw rand = grayscale ↔ (double_0_6 <= rand)%Q ∧ (rand < double_0_8)%Q)
  ∧ (effectOfDraw rand = blackout ↔ (double_0_8 <= rand)%Q).
Proof.
  assert (H46 : (double_0_4 < double_0_6)%Q) by reflexivity.
  assert (H68 : (double_0_6 < double_0_8)%Q) by reflexivity.
  unfold effectOfDraw.
  destruct (Qltb rand double_0_4) eqn:E4;
    [apply Qltb_lt in E4 | apply Qltb_ge in E4];
  (destruct (Qltb rand double_0_6) eqn:E6;
    [apply Qltb_lt in E6 | apply Qltb_ge in E6]);
  (destruct (Qltb rand double_0_8) eqn:E8;
    [apply Qltb_lt in E8 | apply Qltb_ge in E8]);
  repeat split; try done; try (intros [? ?]); try intros ?;
  exfalso;
  repeat match goal with
         | H : (_ < _)%Q |- _ => unfold Qlt in H; cbn in H
         | H : (_ <= _)%Q |- _ => unfold Qle in H; cbn in H
         end; lia.
Qed.

(** C1 (amended) — for every requested strip count the generator yields
    one effect per strip, the i-th drawn from the i-th value of
    [Math.random] alone, through the thresholds 0.4, 0.6 and 0.8 (the
    doubles these literals denote, within 2^-52 of the decimals): none
    below 0.4, flip on [0.4, 0.6), desaturate on [0.6, 0.8), obscure from
    0.8 on.  The buckets have weights 40%, 20%, 20%, 20%, not 25% each. *)
Theorem strip_effect_buckets (random : nat → Q) (count : Z) :
  length (stripEffectsFor random (Some count)) = Z.to_nat count
  ∧ (∀ i, (i < Z.to_nat count)%nat →
       stripEffectsFor random (Some count) !! i = Some (effectOfDraw (random i)))
  ∧ (∀ rand : Q,
       (effectOfDraw rand = NoEffect ↔ (rand < double_0_4)%Q)
       ∧ (effectOfDraw rand = rotate180 ↔ (double_0_4 <= rand)%Q ∧ (rand < double_0_6)%Q)
       ∧ (effectOfDraw rand = grayscale ↔ (double_0_6 <= rand)%Q ∧ (rand < double_0_8)%Q)
       ∧ (effectOfDraw rand = blackout ↔ (double_0_8 <= rand)%Q))
  ∧ (double_0_4 == (2 # 5) + (1 # 5 * 2 ^ 53))%Q
  ∧ (double_0_6 == (3 # 5) - (1 # 5 * 2 ^ 53))%Q
  ∧ (double_0_8 == (4 # 5) + (1 # 5 * 2 ^ 52))%Q.
Proof.
  split; [apply effectsLoop_length |].
  split; [intros i Hi; cbn [stripEffectsFor]; by rewrite effectsLoop_lookup |].
  split; [apply effectOfDraw_buckets |].
  repeat split; reflexivity.
Qed.

(* ===================================================================== *)
(** * Properties of the daily picker *)
(* ===================================================================== *)

Section PickerFacts.
Import MovieService.
Variable Math_sin : Z → Q.

Lemma pseudoRandom_range seed : 0 ≤ pseudoRandom Math_sin seed < 1000000.
Proof.
  unfold pseudoRandom.
  set (x := (Math_sin seed * inject_Z 10000)%Q).
  assert (Hlo : (0 <= x - inject_Z (Qfloor x))%Q).
  { pose proof (Qfloor_le x) as H. unfold Qminus. by apply Qle_minus_iff in H. }
  assert (Hhi : (x - inject_Z (Qfloor x) < 1)%Q).
  { pose proof (Qlt_floor x) as H. rewrite inject_Z_plus in H.
    apply (Qplus_lt_l _ _ (inject_Z (Qfloor x))). ring_simplify.
    exact H. }
  set (f := (x - inject_Z (Qfloor x))%Q) in *.
  split.
  - rewrite <- (Qfloor_Z 0). apply Qfloor_resp_le.
    change (inject_Z 0) with 0%Q. apply Qmult_le_0_compat; [done | by compute].
  - rewrite Zlt_Qlt. eapply Qle_lt_trans; [apply Qfloor_le |].
    rewrite <- (Qmult_1_l (inject_Z 1000000)) at 2.
    apply Qmult_lt_compat_r; [reflexivity | done].
Qed.

Lemma pickPage_range today seedOffset : 1 ≤ pickPage Math_sin today seedOffset ≤ 50.
Proof.
  unfold pickPage.
  pose proof (pseudoRandom_range (seedBase today seedOffset + 9999)) as [H _].
  pose proof (Z.rem_bound_pos _ 50 H ltac:(lia)). lia.
Qed.

Lemma pickIndex_range today seedOffset movies :
  movies ≠ [] →
  0 ≤ pickIndex Math_sin today seedOffset movies < Z.of_nat (length movies).
Proof.
  intros Hne. unfold pickIndex.
  pose proof (pseudoRandom_range (seedBase today seedOffset)) as [H _].
  apply Z.rem_bound_pos; [done |]. destruct movies; [done | cbn; lia].
Qed.

End PickerFacts.

(** C7 — For a fixed date and fixed catalog page content, a run of the
    daily picker on a page that holds an item yields the page and the
    index computed from the date and the offset alone, with the item of
    the page at that index; so running it again, on the store the first
    run left or on any other, yields the identical page, index and item.
    The page is in 1..50 and the index addresses an item of the page; and
    for the same date the seeds of the daily sequence (offset 0) and of
    the daily-hard sequence (offset 12345), for the index as for the page,
    never coincide. *)
Theorem daily_picker_deterministic (Math_sin : Z → Q)
    (getPopularMoviesPage : Z → option (list Movie))
    (today : Date) (seedOffset : Z) (storagePrefix todayKey : string)
    (localStorage : gmap string string) :
  let first := MovieService.pickAndStoreDailyMovie Math_sin getPopularMoviesPage
                 today seedOffset storagePrefix todayKey localStorage in
  let second := MovieService.pickAndStoreDailyMovie Math_sin getPopularMoviesPage
                  today seedOffset storagePrefix todayKey first.2 in
  let page := MovieService.pickPage Math_sin today seedOffset in
  second.1 = first.1
  ∧ 1 ≤ page ≤ 50
  ∧ (∀ movies, getPopularMoviesPage page = Some movies → movies ≠ [] →
       let index := MovieService.pickIndex Math_sin today seedOffset movies in
       0 ≤ index < Z.of_nat (length movies)
       ∧ is_Some (movies !! Z.to_nat index)
       ∧ first.1 = Some {| MovieService.pickedPage := page;
                           MovieService.pickedIndex := index;
                           MovieService.pickedMovie := movies !! Z.to_nat index |})
  ∧ (∀ store : gmap string string,
       (MovieService.pickAndStoreDailyMovie Math_sin getPopularMoviesPage
          today seedOffset storagePrefix todayKey store).1 = first.1)
  ∧ (∀ p, first.1 = Some p →
       1 ≤ MovieService.pickedPage p ≤ 50
       ∧ ∃ movies, getPopularMoviesPage (MovieService.pickedPage p) = Some movies
           ∧ 0 ≤ MovieService.pickedIndex p < Z.of_nat (length movies)
           ∧ MovieService.pickedMovie p = movies !! Z.to_nat (MovieService.pickedIndex p)
           ∧ is_Some (MovieService.pickedMovie p))
  ∧ MovieService.seedBase today MovieService.dailyOffset
    ≠ MovieService.seedBase today MovieService.dailyHardOffset
  ∧ MovieService.seedBase today MovieService.dailyOffset + 9999
    ≠ MovieService.seedBase today MovieService.dailyHardOffset + 9999
  ∧ MovieService.seedBase today MovieService.dailyOffset
    ≠ MovieService.seedBase today MovieService.dailyHardOffset + 9999
  ∧ MovieService.seedBase today MovieService.dailyOffset + 9999
    ≠ MovieService.seedBase today MovieService.dailyHardOffset.
Proof.
  cbn zeta. split; [| split; [| split; [| split; [| split]]]].
  - unfold MovieService.pickAndStoreDailyMovie.
    destruct (getPopularMoviesPage _) as [movies|] eqn:E; cbn [fst snd]; [| done].
    by case_bool_decide.
  - apply pickPage_range.
  - intros movies E Hne.
    pose proof (pickIndex_range Math_sin today seedOffset movies Hne) as Hi.
    split; [done |]. split; [apply lookup_lt_is_Some; lia |].
    unfold MovieService.pickAndStoreDailyMovie. rewrite E.
    rewrite bool_decide_eq_false_2 by (by destruct movies). cbn [fst].
    unfold MovieService.itemAt.
    destruct (Z.ltb_spec (MovieService.pickIndex Math_sin today seedOffset movies) 0);
      [lia | done].
  - intros store. unfold MovieService.pickAndStoreDailyMovie.
    destruct (getPopularMoviesPage _) as [movies|] eqn:E; cbn [fst]; [| done].
    by case_bool_decide.
  - intros p. unfold MovieService.pickAndStoreDailyMovie.
    destruct (getPopularMoviesPage _) as [movies|] eqn:E; cbn [fst]; [| done].
    case_bool_decide as Hlen; cbn [fst]; [done |]. intros [= <-]. cbn.
    split; [apply pickPage_range |]. exists movies.
    assert (Hne : movies ≠ []) by (by destruct movies).
    pose proof (pickIndex_range Math_sin today seedOffset movies Hne) as Hi.
    split; [done |]. split; [done |].
    unfold MovieService.itemAt.
    destruct (Z.ltb_spec (MovieService.pickIndex Math_sin today seedOffset movies) 0);
      [lia |].
    split; [done |]. apply lookup_lt_is_Some. lia.
  - unfold MovieService.seedBase, MovieService.dailyOffset, MovieService.dailyHardOffset.
    repeat split; lia.
Qed.

(* ===================================================================== *)
(** * Numbers and their text *)
(* ===================================================================== *)

Lemma digitsPrefix_string_of_uint d :
  digitsPrefix (NilEmpty.string_of_uint d) = NilEmpty.string_of_uint d.
Proof. induction d; cbn; by rewrite ?IHd. Qed.

Lemma parseDigits_string_of_uint d :
  d ≠ Decimal.Nil → parseDigits (NilEmpty.string_of_uint d) = Int (Z.of_uint d).
Proof.
  intros Hd. unfold parseDigits. rewrite digitsPrefix_string_of_uint.
  rewrite NilEmpty.usu. by destruct d.
Qed.

Lemma parseInt_string_of_uint d :
  d ≠ Decimal.Nil → parseInt (NilEmpty.string_of_uint d) = Int (Z.of_uint d).
Proof.
  intros Hd. rewrite <- (parseDigits_string_of_uint d Hd).
  by destruct d.
Qed.

Lemma Pos_to_uint_nonnil p : Pos.to_uint p ≠ Decimal.Nil.
Proof.
  intros H. pose proof (DecimalPos.Unsigned.of_to p) as E. rewrite H in E. discriminate E.
Qed.

Lemma NilZero_string_of_uint_nonnil d :
  d ≠ Decimal.Nil → NilZero.string_of_uint d = NilEmpty.string_of_uint d.
Proof. by destruct d. Qed.

Lemma parseInt_minus r : parseInt (String "-" r) = negate (parseDigits r).
Proof. reflexivity. Qed.

(** [parseInt(n.toString(), 10)] gives [n] back. *)
Lemma parseInt_toString z : parseInt (toString (Int z)) = Int z.
Proof.
  destruct z as [|p|p]; [done | |]; cbn [toString Z.to_int NilZero.string_of_int];
    pose proof (Pos_to_uint_nonnil p) as Hn;
    rewrite (NilZero_string_of_uint_nonnil _ Hn).
  - rewrite parseInt_string_of_uint by done.
    unfold Z.of_uint. by rewrite DecimalPos.Unsigned.of_to.
  - rewrite parseInt_minus, parseDigits_string_of_uint by done.
    unfold Z.of_uint. by rewrite DecimalPos.Unsigned.of_to.
Qed.

Lemma toString_nonempty z : ∃ c r, toString (Int z) = String c r.
Proof.
  destruct z as [|p|p]; cbn; [by eexists _, _ | | by eexists _, _].
  unfold NilZero.string_of_uint. pose proof (Pos_to_uint_nonnil p) as Hn.
  destruct (Pos.to_uint p); [done | ..]; cbn; by eexists _, _.
Qed.

Lemma orZero_toString z : orZero (Some (toString (Int z))) = toString (Int z).
Proof. destruct (toString_nonempty z) as (c & r & ->). done. Qed.

(* ===================================================================== *)
(** * Reading fields through the operations *)
(* ===================================================================== *)

(** Computes a field of a state built by field updates and by the
    operations that are sequences of field updates. *)
Ltac fields :=
  cbn [
       activeTab mediaMode movie currentStepIndex userGuess gameStatus wrongGuesses
       showGiveUpConfirm showLeaveConfirm pendingTab pendingMediaMode
       selectedMovieFromAutocomplete dailyCompleted dailyCompletedDate showApiKeyPrompt
       infiniteMemoryEnabled currentStreak todayBestStreak allTimeBestStreak
       stripEffects initialized localStorage seenStore inflight
       set_activeTab
       set_mediaMode set_movie set_currentStepIndex set_userGuess set_gameStatus
       set_wrongGuesses set_showGiveUpConfirm set_showLeaveConfirm set_pendingTab
       set_pendingMediaMode set_selectedMovieFromAutocomplete set_dailyCompleted
       set_dailyCompletedDate set_showApiKeyPrompt set_infiniteMemoryEnabled
       set_currentStreak set_todayBestStreak set_allTimeBestStreak set_stripEffects
       set_initialized set_localStorage set_seenStore set_inflight getItem setItem
       removeItem subscribe loadInfiniteMovie loadNextInfiniteMovie
       generateStripEffects addSeenRandomMovie loadStreakData saveStreakData
       markDailyWin markDailyLoss onInfiniteError cancelLeaveTab onInput
       selectSuggestion giveUp cancelGiveUp toggleInfiniteMemory newComponent].

Ltac fields_all :=
  cbn [
       activeTab mediaMode movie currentStepIndex userGuess gameStatus wrongGuesses
       showGiveUpConfirm showLeaveConfirm pendingTab pendingMediaMode
       selectedMovieFromAutocomplete dailyCompleted dailyCompletedDate showApiKeyPrompt
       infiniteMemoryEnabled currentStreak todayBestStreak allTimeBestStreak
       stripEffects initialized localStorage seenStore inflight
       set_activeTab
       set_mediaMode set_movie set_currentStepIndex set_userGuess set_gameStatus
       set_wrongGuesses set_showGiveUpConfirm set_showLeaveConfirm set_pendingTab
       set_pendingMediaMode set_selectedMovieFromAutocomplete set_dailyCompleted
       set_dailyCompletedDate set_showApiKeyPrompt set_infiniteMemoryEnabled
       set_currentStreak set_todayBestStreak set_allTimeBestStreak set_stripEffects
       set_initialized set_localStorage set_seenStore set_inflight getItem setItem
       removeItem subscribe loadInfiniteMovie loadNextInfiniteMovie
       generateStripEffects addSeenRandomMovie loadStreakData saveStreakData
       markDailyWin markDailyLoss onInfiniteError cancelLeaveTab onInput
       selectSuggestion giveUp cancelGiveUp toggleInfiniteMemory newComponent] in *.

(** [markCurrentMovieSeen] and [syncDailyOutcome] as field updates. *)
Lemma markCurrentMovieSeen_shape e s :
  ∃ seen, markCurrentMovieSeen e s = set_seenStore seen s.
Proof.
  unfold markCurrentMovieSeen.
  destruct (movie s); [destruct (_ && _) |]; try (by eexists);
    exists (seenStore s); by destruct s.
Qed.

Lemma syncDailyOutcome_shape e tab s :
  ∃ g dd c, syncDailyOutcome e tab s
            = set_gameStatus g (set_dailyCompletedDate dd (set_dailyCompleted c s)).
Proof.
  unfold syncDailyOutcome. repeat case_bool_decide.
  - by eexists _, _, _.
  - by eexists _, _, _.
  - by exists (gameStatus s), (dailyCompletedDate s), false.
Qed.

Lemma markCurrentMovieSeen_currentStepIndex e s :
  currentStepIndex (markCurrentMovieSeen e s) = currentStepIndex s.
Proof. by destruct (markCurrentMovieSeen_shape e s) as [? ->]. Qed.

Lemma markCurrentMovieSeen_currentStreak e s :
  currentStreak (markCurrentMovieSeen e s) = currentStreak s.
Proof. by destruct (markCurrentMovieSeen_shape e s) as [? ->]. Qed.

Lemma markCurrentMovieSeen_todayBestStreak e s :
  todayBestStreak (markCurrentMovieSeen e s) = todayBestStreak s.
Proof. by destruct (markCurrentMovieSeen_shape e s) as [? ->]. Qed.

Lemma markCurrentMovieSeen_allTimeBestStreak e s :
  allTimeBestStreak (markCurrentMovieSeen e s) = allTimeBestStreak s.
Proof. by destruct (markCurrentMovieSeen_shape e s) as [? ->]. Qed.

Lemma markCurrentMovieSeen_localStorage e s :
  localStorage (markCurrentMovieSeen e s) = localStorage s.
Proof. by destruct (markCurrentMovieSeen_shape e s) as [? ->]. Qed.

Lemma markCurrentMovieSeen_activeTab e s :
  activeTab (markCurrentMovieSeen e s) = activeTab s.
Proof. by destruct (markCurrentMovieSeen_shape e s) as [? ->]. Qed.

Lemma markCurrentMovieSeen_mediaMode e s :
  mediaMode (markCurrentMovieSeen e s) = mediaMode s.
Proof. by destruct (markCurrentMovieSeen_shape e s) as [? ->]. Qed.

Lemma markCurrentMovieSeen_showLeaveConfirm e s :
  showLeaveConfirm (markCurrentMovieSeen e s) = showLeaveConfirm s.
Proof. by destruct (markCurrentMovieSeen_shape e s) as [? ->]. Qed.

Lemma markCurrentMovieSeen_pendingTab e s :
  pendingTab (markCurrentMovieSeen e s) = pendingTab s.
Proof. by destruct (markCurrentMovieSeen_shape e s) as [? ->]. Qed.

Lemma markCurrentMovieSeen_pendingMediaMode e s :
  pendingMediaMode (markCurrentMovieSeen e s) = pendingMediaMode s.
Proof. by destruct (markCurrentMovieSeen_shape e s) as [? ->]. Qed.

Lemma markCurrentMovieSeen_gameStatus e s :
  gameStatus (markCurrentMovieSeen e s) = gameStatus s.
Proof. by destruct (markCurrentMovieSeen_shape e s) as [? ->]. Qed.

Lemma syncDailyOutcome_currentStepIndex e tab s :
  currentStepIndex (syncDailyOutcome e tab s) = currentStepIndex s.
Proof. by destruct (syncDailyOutcome_shape e tab s) as (? & ? & ? & ->). Qed.

Lemma syncDailyOutcome_currentStreak e tab s :
  currentStreak (syncDailyOutcome e tab s) = currentStreak s.
Proof. by destruct (syncDailyOutcome_shape e tab s) as (? & ? & ? & ->). Qed.

Lemma syncDailyOutcome_todayBestStreak e tab s :
  todayBestStreak (syncDailyOutcome e tab s) = todayBestStreak s.
Proof. by destruct (syncDailyOutcome_shape e tab s) as (? & ? & ? & ->). Qed.

Lemma syncDailyOutcome_allTimeBestStreak e tab s :
  allTimeBestStreak (syncDailyOutcome e tab s) = allTimeBestStreak s.
Proof. by destruct (syncDailyOutcome_shape e tab s) as (? & ? & ? & ->). Qed.

Lemma syncDailyOutcome_localStorage e tab s :
  localStorage (syncDailyOutcome e tab s) = localStorage s.
Proof. by destruct (syncDailyOutcome_shape e tab s) as (? & ? & ? & ->). Qed.

Lemma syncDailyOutcome_activeTab e tab s :
  activeTab (syncDailyOutcome e tab s) = activeTab s.
Proof. by destruct (syncDailyOutcome_shape e tab s) as (? & ? & ? & ->). Qed.

Lemma syncDailyOutcome_mediaMode e tab s :
  mediaMode (syncDailyOutcome e tab s) = mediaMode s.
Proof. by destruct (syncDailyOutcome_shape e tab s) as (? & ? & ? & ->). Qed.

Lemma syncDailyOutcome_showLeaveConfirm e tab s :
  showLeaveConfirm (syncDailyOutcome e tab s) = showLeaveConfirm s.
Proof. by destruct (syncDailyOutcome_shape e tab s) as (? & ? & ? & ->). Qed.

Lemma syncDailyOutcome_pendingTab e tab s :
  pendingTab (syncDailyOutcome e tab s) = pendingTab s.
Proof. by destruct (syncDailyOutcome_shape e tab s) as (? & ? & ? & ->). Qed.

Lemma syncDailyOutcome_pendingMediaMode e tab s :
  pendingMediaMode (syncDailyOutcome e tab s) = pendingMediaMode s.
Proof. by destruct (syncDailyOutcome_shape e tab s) as (? & ? & ? & ->). Qed.


Create Rewrite HintDb frame.

#[local] Hint Rewrite
  markCurrentMovieSeen_currentStepIndex
  markCurrentMovieSeen_currentStreak
  markCurrentMovieSeen_todayBestStreak
  markCurrentMovieSeen_allTimeBestStreak
  markCurrentMovieSeen_localStorage
  markCurrentMovieSeen_activeTab
  markCurrentMovieSeen_mediaMode
  markCurrentMovieSeen_showLeaveConfirm
  markCurrentMovieSeen_pendingTab
  markCurrentMovieSeen_pendingMediaMode
  markCurrentMovieSeen_gameStatus
  syncDailyOutcome_currentStepIndex
  syncDailyOutcome_currentStreak
  syncDailyOutcome_todayBestStreak
  syncDailyOutcome_allTimeBestStreak
  syncDailyOutcome_localStorage
  syncDailyOutcome_activeTab
  syncDailyOutcome_mediaMode
  syncDailyOutcome_showLeaveConfirm
  syncDailyOutcome_pendingTab
  syncDailyOutcome_pendingMediaMode : frame.

Ltac simpl_fields :=
  repeat (progress (fields; unfold getItem; autorewrite with frame)).
Ltac simpl_fields_all :=
  repeat (progress (fields_all; unfold getItem in *; autorewrite with frame in * )).

(* ===================================================================== *)
(** * The step index stays within the progression schedule *)
(* ===================================================================== *)

Ltac idx_solve := unfold stepIndexOk in *; simpl_fields; cbn in *; lia.

Lemma switchTab_stepIndexOk e tab force s :
  stepIndexOk s → stepIndexOk (switchTab e tab force s).
Proof. intros H. unfold switchTab. repeat case_match; idx_solve. Qed.

Lemma nextStep_stepIndexOk e s : stepIndexOk s → stepIndexOk (nextStep e s).
Proof. intros H. unfold nextStep. repeat case_match; idx_solve. Qed.

Lemma initializeWithToken_stepIndexOk e s :
  stepIndexOk s → stepIndexOk (initializeWithToken e s).
Proof.
  intros H. unfold initializeWithToken, loadForCurrentTab. repeat case_match; idx_solve.
Qed.

Lemma ngOnInit_stepIndexOk e s : stepIndexOk s → stepIndexOk (ngOnInit e s).
Proof.
  intros H. unfold ngOnInit.
  repeat case_match; try apply initializeWithToken_stepIndexOk; idx_solve.
Qed.

Lemma pageLoad_stepIndexOk e ls seen : stepIndexOk (pageLoad e ls seen).
Proof. apply ngOnInit_stepIndexOk. unfold stepIndexOk. cbn. lia. Qed.

Lemma confirmLeaveTab_stepIndexOk e s : stepIndexOk s → stepIndexOk (confirmLeaveTab e s).
Proof.
  intros H. unfold confirmLeaveTab.
  repeat case_match; try apply switchTab_stepIndexOk; idx_solve.
Qed.

Lemma confirmGiveUp_stepIndexOk e s : stepIndexOk s → stepIndexOk (confirmGiveUp e s).
Proof. intros H. unfold confirmGiveUp. repeat case_match; idx_solve. Qed.

Lemma catalogAnswered_stepIndexOk e k m picked s :
  stepIndexOk s → stepIndexOk (catalogAnswered e k m picked s).
Proof.
  intros H. unfold catalogAnswered, onDailyMovie, onInfiniteMovie, servicePicked.
  repeat case_match; idx_solve.
Qed.

Section StepIndex.
Context {U : UnicodeOps}.

Lemma validateGuess_stepIndexOk e s : stepIndexOk s → stepIndexOk (validateGuess e s).
Proof.
  intros H. unfold validateGuess.
  case_bool_decide; [done |]. case_match; [by apply nextStep_stepIndexOk |].
  destruct (extractGuess _) as [gt gy].
  case_match; [| unfold stepIndexOk; fields; by apply nextStep_stepIndexOk].
  repeat case_match; idx_solve.
Qed.

Lemma step_stepIndexOk e ev s : stepIndexOk s → stepIndexOk (step e ev s).
Proof.
  intros H. destruct ev; cbn [step].
  - apply pageLoad_stepIndexOk.
  - apply pageLoad_stepIndexOk.
  - unfold onTokenValidated. apply initializeWithToken_stepIndexOk. idx_solve.
  - unfold setMediaMode. repeat case_match; try apply switchTab_stepIndexOk; idx_solve.
  - idx_solve.
  - unfold requestTabSwitch. repeat case_match; try apply switchTab_stepIndexOk; idx_solve.
  - by apply confirmLeaveTab_stepIndexOk.
  - idx_solve.
  - idx_solve.
  - idx_solve.
  - idx_solve.
  - by apply confirmGiveUp_stepIndexOk.
  - idx_solve.
  - by apply validateGuess_stepIndexOk.
  - by apply nextStep_stepIndexOk.
  - idx_solve.
  - by apply catalogAnswered_stepIndexOk.
  - unfold catalogFailed. repeat case_match; idx_solve.
Qed.

Lemma run_stepIndexOk trace s : stepIndexOk s → stepIndexOk (run trace s).
Proof.
  revert s. induction trace as [|[e ev] rest IH]; intros s H; [done |].
  cbn [run]. by apply IH, step_stepIndexOk.
Qed.

Lemma stepIndexOk_currentStripCount s : stepIndexOk s → is_Some (currentStripCount s).
Proof.
  unfold stepIndexOk, currentStripCount. intros H.
  destruct (Z.ltb_spec (currentStepIndex s) 0); [lia |].
  apply lookup_lt_is_Some. cbn in *. lia.
Qed.

End StepIndex.

(** C10 — Every operation of the session keeps the current step index
    within [0, progressionSteps.length - 1], that is 0..4: it holds in
    every state a session reaches and is preserved by every event, so
    indexing the progression schedule for the current strip count is
    always defined; and the attempt advance increments the index only
    when it is strictly below the last step, and otherwise sets the
    status to lost without incrementing. *)
Theorem step_index_within_bounds (U : UnicodeOps) :
  (∀ e0 trace,
     stepIndexOk (session e0 trace) ∧ is_Some (currentStripCount (session e0 trace)))
  ∧ (∀ e ev s, stepIndexOk s → stepIndexOk (step e ev s))
  ∧ (∀ e s,
       (currentStepIndex s < 4 →
          currentStepIndex (nextStep e s) = currentStepIndex s + 1
          ∧ gameStatus (nextStep e s) = gameStatus s)
       ∧ (¬ currentStepIndex s < 4 →
          currentStepIndex (nextStep e s) = currentStepIndex s
          ∧ gameStatus (nextStep e s) = lost)).
Proof.
  split; [| split].
  - intros e0 trace.
    assert (H : stepIndexOk (session e0 trace))
      by apply run_stepIndexOk, pageLoad_stepIndexOk.
    split; [done | by apply stepIndexOk_currentStripCount].
  - apply step_stepIndexOk.
  - intros e s. unfold nextStep. cbn [length progressionSteps].
    split; intros H.
    + destruct (Z.ltb_spec (currentStepIndex s) (Z.of_nat 5 - 1)); [| lia].
      case_match; by simpl_fields.
    + destruct (Z.ltb_spec (currentStepIndex s) (Z.of_nat 5 - 1)); [lia |].
      repeat case_match; by simpl_fields.
Qed.

Example four_skips_then_lost :
  (let s := session (U := latin1Ops) (november 1) (skips 4) in
   currentStepIndex s = 4 ∧ gameStatus s = playing ∧ currentStripCount s = Some 10)
  ∧ (let s := session (U := latin1Ops) (november 1) (skips 5) in
     currentStepIndex s = 4 ∧ gameStatus s = lost
     ∧ localStorage s !! "dailyGameLost_movie_20261101" = Some "true").
Proof. vm_compute. repeat split; reflexivity. Qed.

(* ===================================================================== *)
(** * The streak ledger *)
(* ===================================================================== *)

(** Storage keys are compared by unfolding them down to their first
    differing character. *)
Ltac unfold_keys H :=
  cbv [String.append
       LS_DAILY_PREFIX LS_DAILY_HARD_PREFIX LS_DAILY_LOST_PREFIX LS_DAILY_HARD_LOST_PREFIX
       LS_SEEN_RANDOM LS_SEEN_RANDOM_TV LS_INFINITE_MEMORY LS_TMDB_TOKEN LS_MEDIA_MODE
       LS_CURRENT_STREAK LS_TODAY_BEST_PREFIX LS_ALL_TIME_BEST
       LS_CURRENT_STREAK_HARD LS_TODAY_BEST_HARD_PREFIX LS_ALL_TIME_BEST_HARD
       LS_CURRENT_STREAK_TV LS_TODAY_BEST_PREFIX_TV LS_ALL_TIME_BEST_TV
       LS_CURRENT_STREAK_HARD_TV LS_TODAY_BEST_HARD_PREFIX_TV LS_ALL_TIME_BEST_HARD_TV
       MovieService.LS_DAILY_MOVIE_PREFIX MovieService.LS_DAILY_HARD_MOVIE_PREFIX
       MovieService.LS_DAILY_TV_PREFIX MovieService.LS_DAILY_HARD_TV_PREFIX] in H.

Ltac key_neq :=
  let H := fresh in
  intros H; unfold_keys H; congruence.

Ltac split_keys :=
  unfold getStreakStorageKeys;
  repeat case_bool_decide;
  cbn [currentKey todayKey allTimeKey].

Lemma ledgerOk_empty day : ledgerOk day ∅.
Proof. intros mode s0 keys. unfold readNumber. rewrite !lookup_empty. by cbn. Qed.

Lemma ledgerOk_insert day k v ls :
  notStreakKey day k → ledgerOk day ls → ledgerOk day (<[k := v]> ls).
Proof.
  intros Hk H mode s0 keys. destruct (Hk mode s0) as [H1 H2].
  unfold readNumber. rewrite !lookup_insert_ne by done. apply H.
Qed.

Lemma ledgerOk_delete day k ls :
  notStreakKey day k → ledgerOk day ls → ledgerOk day (delete k ls).
Proof.
  intros Hk H mode s0 keys. destruct (Hk mode s0) as [H1 H2].
  unfold readNumber. rewrite !lookup_delete_ne by done. apply H.
Qed.

Lemma readNumber_insert_eq ls k z : readNumber (<[k := toString (Int z)]> ls) k = Int z.
Proof. unfold readNumber. by rewrite lookup_insert_eq, orZero_toString, parseInt_toString. Qed.

Lemma readNumber_insert_ne ls k k' v : k ≠ k' → readNumber (<[k := v]> ls) k' = readNumber ls k'.
Proof. intros. unfold readNumber. by rewrite lookup_insert_ne. Qed.

Lemma ledgerOk_save day mode s c t a ls :
  signalsOk c t → ledgerOk day ls →
  let keys := getStreakStorageKeys mode s in
  ledgerOk day (<[allTimeKey keys := toString a]>
                 (<[todayKey keys +:+ day := toString t]>
                    (<[currentKey keys := toString c]> ls))).
Proof.
  intros Hs H keys mode' s0' keys'.
  destruct c as [x|], t as [y|]; try (by destruct Hs as [? []]); try (by destruct Hs as [[] ?]).
  specialize (H mode' s0'). cbn zeta in H.
  subst keys keys'. revert H. split_keys; intros Hl;
  repeat first
    [ rewrite readNumber_insert_eq
    | rewrite readNumber_insert_ne by key_neq ].
  all: done.
Qed.

(** Keys that are no streak keys. *)
Ltac not_streak_key :=
  let mode := fresh "mode" in
  let s0 := fresh "s0" in
  intros mode s0; cbv zeta; split_keys;
  unfold getDailyStoragePrefix, dailyServicePrefix;
  repeat case_bool_decide; repeat case_match; split; key_neq.

Lemma notStreakKey_media day : notStreakKey day LS_MEDIA_MODE.
Proof. not_streak_key. Qed.

Lemma notStreakKey_memory day : notStreakKey day LS_INFINITE_MEMORY.
Proof. not_streak_key. Qed.

Lemma notStreakKey_token day : notStreakKey day LS_TMDB_TOKEN.
Proof. not_streak_key. Qed.

Lemma notStreakKey_daily day tab type s x :
  notStreakKey day (getDailyStoragePrefix tab type s +:+ x).
Proof. destruct type; not_streak_key. Qed.

Lemma notStreakKey_service day tab isTv x :
  notStreakKey day (dailyServicePrefix tab isTv +:+ x).
Proof. not_streak_key. Qed.

Lemma signalsOk_zero c t : signalsOk c t → signalsOk (Int 0) t.
Proof.
  unfold signalsOk, leNumber, succNumber. destruct c, t; intros [? ?]; try done; split; lia.
Qed.

Lemma signalsOk_succ_same c t : signalsOk c t → signalsOk (succNumber c) (succNumber c).
Proof.
  unfold signalsOk, leNumber, succNumber. destruct c, t; intros [? ?]; try done; split; lia.
Qed.

Lemma signalsOk_succ_below c t :
  signalsOk c t → gtNumber (succNumber c) t = false → signalsOk (succNumber c) t.
Proof.
  unfold signalsOk, leNumber, succNumber, gtNumber.
  destruct c, t; intros [? ?] ?; try done; split; lia.
Qed.

Lemma ledgerOk_read day ls mode s0 :
  ledgerOk day ls →
  signalsOk (parseInt (orZero (ls !! currentKey (getStreakStorageKeys mode s0))))
            (parseInt (orZero (ls !! (todayKey (getStreakStorageKeys mode s0) +:+ day)))).
Proof. intros H. apply H. Qed.

(** Closes the goals an operation leaves once its branches are split and
    the projections are computed. *)
Ltac ledger_solve :=
  repeat first
    [ assumption
    | apply ledgerOk_save; [eauto using signalsOk_zero, signalsOk_succ_same,
                              signalsOk_succ_below |]
    | apply ledgerOk_insert;
      [first [apply notStreakKey_media | apply notStreakKey_memory
             | apply notStreakKey_token | apply notStreakKey_daily
             | apply notStreakKey_service] |]
    | apply ledgerOk_delete; [apply notStreakKey_daily |] ].

Ltac inv_solve :=
  match goal with
  | H : streakInvariant _ _ |- _ => destruct H as [?Hsig ?Hled]
  end;
  unfold streakInvariant; simpl_fields_all;
  split;
  [ first [ assumption
          | by apply ledgerOk_read; ledger_solve
          | by eauto using signalsOk_zero, signalsOk_succ_same, signalsOk_succ_below ]
  | by ledger_solve ].

(** Every operation keeps the streak invariant of the day on which it
    runs. *)
Section StreakInvariant.
Context (e : Env).

Lemma switchTab_streakInvariant tab force s :
  streakInvariant (getTodayKey (today e)) s → streakInvariant (getTodayKey (today e)) (switchTab e tab force s).
Proof. intros H. unfold switchTab. repeat case_match; inv_solve. Qed.

Lemma initializeWithToken_streakInvariant s :
  streakInvariant (getTodayKey (today e)) s → streakInvariant (getTodayKey (today e)) (initializeWithToken e s).
Proof.
  intros H. unfold initializeWithToken, loadForCurrentTab.
  repeat case_match; inv_solve.
Qed.

Lemma ngOnInit_streakInvariant s :
  ledgerOk (getTodayKey (today e)) (localStorage s) → streakInvariant (getTodayKey (today e)) (ngOnInit e s).
Proof.
  intros H. unfold ngOnInit.
  repeat case_match; try apply initializeWithToken_streakInvariant;
    unfold streakInvariant; simpl_fields; (split; [by apply ledgerOk_read | done]).
Qed.

Lemma pageLoad_streakInvariant ls seen :
  ledgerOk (getTodayKey (today e)) ls → streakInvariant (getTodayKey (today e)) (pageLoad e ls seen).
Proof. intros H. by apply ngOnInit_streakInvariant. Qed.

Lemma confirmLeaveTab_streakInvariant s :
  streakInvariant (getTodayKey (today e)) s → streakInvariant (getTodayKey (today e)) (confirmLeaveTab e s).
Proof.
  intros H. unfold confirmLeaveTab.
  repeat case_match; try apply switchTab_streakInvariant; inv_solve.
Qed.

Lemma confirmGiveUp_streakInvariant s :
  streakInvariant (getTodayKey (today e)) s → streakInvariant (getTodayKey (today e)) (confirmGiveUp e s).
Proof. intros H. unfold confirmGiveUp. repeat case_match; inv_solve. Qed.

Lemma nextStep_streakInvariant s :
  streakInvariant (getTodayKey (today e)) s → streakInvariant (getTodayKey (today e)) (nextStep e s).
Proof. intros H. unfold nextStep. repeat case_match; inv_solve. Qed.

Lemma catalogAnswered_streakInvariant k m picked s :
  streakInvariant (getTodayKey (today e)) s → streakInvariant (getTodayKey (today e)) (catalogAnswered e k m picked s).
Proof.
  intros H. unfold catalogAnswered, onDailyMovie, onInfiniteMovie, servicePicked.
  repeat case_match; inv_solve.
Qed.

Context {U : UnicodeOps}.

Lemma validateGuess_streakInvariant s :
  streakInvariant (getTodayKey (today e)) s → streakInvariant (getTodayKey (today e)) (validateGuess e s).
Proof.
  intros H. unfold validateGuess.
  case_bool_decide; [done |]. case_match.
  { apply nextStep_streakInvariant. inv_solve. }
  destruct (extractGuess _) as [gt gy].
  case_match; [| unfold streakInvariant; fields; apply nextStep_streakInvariant; inv_solve].
  repeat case_match; inv_solve.
Qed.

Lemma step_streakInvariant ev s :
  streakInvariant (getTodayKey (today e)) s → streakInvariant (getTodayKey (today e)) (step e ev s).
Proof.
  intros H. destruct ev; cbn [step].
  - apply pageLoad_streakInvariant, H.
  - apply pageLoad_streakInvariant, ledgerOk_empty.
  - unfold onTokenValidated. apply initializeWithToken_streakInvariant. inv_solve.
  - unfold setMediaMode. repeat case_match; try apply switchTab_streakInvariant; inv_solve.
  - inv_solve.
  - unfold requestTabSwitch.
    repeat case_match; try apply switchTab_streakInvariant; inv_solve.
  - by apply confirmLeaveTab_streakInvariant.
  - inv_solve.
  - inv_solve.
  - inv_solve.
  - inv_solve.
  - by apply confirmGiveUp_streakInvariant.
  - inv_solve.
  - by apply validateGuess_streakInvariant.
  - by apply nextStep_streakInvariant.
  - inv_solve.
  - by apply catalogAnswered_streakInvariant.
  - unfold catalogFailed. repeat case_match; inv_solve.
Qed.

End StreakInvariant.

Section StreakFacts.
Context {U : UnicodeOps}.

Lemma run_streakInvariant (d : Date) trace s :
  Forall (λ x : Env * Event, today x.1 = d) trace →
  streakInvariant (getTodayKey d) s → streakInvariant (getTodayKey d) (run trace s).
Proof.
  intros Hd. revert s. induction Hd as [|[e ev] rest He _ IH]; intros s H; [done |].
  cbn [run]. apply IH. cbn in He. subst d. by apply step_streakInvariant.
Qed.

Lemma session_streakInvariant e0 trace :
  Forall (λ x : Env * Event, today x.1 = today e0) trace →
  streakInvariant (getTodayKey (today e0)) (session e0 trace).
Proof.
  intros H. apply run_streakInvariant; [done |].
  apply pageLoad_streakInvariant, ledgerOk_empty.
Qed.




Lemma ngOnInit_activeTab e s : activeTab (ngOnInit e s) = activeTab s.
Proof.
  unfold ngOnInit, initializeWithToken, loadForCurrentTab.
  repeat case_match; by simpl_fields.
Qed.


End StreakFacts.

















Section CappedStreaks.
Context (e : Env) (cap : Z).
Local Abbreviation day := (getTodayKey (today e)).










Context {U : UnicodeOps}.



End CappedStreaks.

Section CappedRun.
Context {U : UnicodeOps}.




End CappedRun.

(* ===================================================================== *)
(** * Streaks *)
(* ===================================================================== *)

Example firstWin_state :
  let s := session (U := latin1Ops) (november 1) firstWin in
  activeTab s = infinite ∧ gameStatus s = won ∧ currentStreak s = Int 1
  ∧ todayBestStreak s = Int 1 ∧ showLeaveConfirm s = false
  ∧ localStorage s !! LS_CURRENT_STREAK = Some "1"
  ∧ inflight s = [DailyRequest false daily false "20261101"].
Proof. vm_compute. repeat split; reflexivity. Qed.




(* ===================================================================== *)
(** * Leaving an infinite session *)
(* ===================================================================== *)

(** Counterexample to the playing-only reading — the infinite session of
    [firstWin] is won, not playing; asking for the daily tab opens the
    confirmation and switches nothing, and confirming it resets the
    persisted current streak from 1 to 0. *)
Lemma leave_prompt_after_win :
  (let s := session (U := latin1Ops) (november 1) firstWin in
   let s' := requestTabSwitch (november 1) daily s in
   activeTab s = infinite ∧ gameStatus s = won ∧ showLeaveConfirm s = false
   ∧ showLeaveConfirm s' = true ∧ activeTab s' = infinite
   ∧ localStorage s' !! LS_CURRENT_STREAK = Some "1"
   ∧ localStorage (confirmLeaveTab (november 1) s') !! LS_CURRENT_STREAK = Some "0")
  ∧ ¬ prompt_only_while_playing.
Proof.
  assert (H1 : let s := session (U := latin1Ops) (november 1) firstWin in
               let s' := requestTabSwitch (november 1) daily s in
               activeTab s = infinite ∧ gameStatus s = won ∧ showLeaveConfirm s = false
               ∧ showLeaveConfirm s' = true ∧ activeTab s' = infinite
               ∧ localStorage s' !! LS_CURRENT_STREAK = Some "1"
               ∧ localStorage (confirmLeaveTab (november 1) s') !! LS_CURRENT_STREAK
                 = Some "0")
    by (vm_compute; repeat split; reflexivity).
  split; [exact H1 |].
  intros H. cbv zeta in H1. destruct H1 as (Ha & Hb & Hc & Hd & _).
  specialize (H (november 1) _ daily ltac:(by rewrite Ha) Hc).
  apply H in Hd as [_ Hd]. rewrite Hb in Hd. discriminate Hd.
Qed.

Lemma currentKey_not_media mode s0 :
  LS_MEDIA_MODE ≠ currentKey (getStreakStorageKeys mode s0).
Proof. apply (notStreakKey_media EmptyString mode s0). Qed.

(** C2 (amended) — Requesting a switch to another tab or to the other
    media kind, while no confirmation is open, prompts for confirmation
    if and only if the active tab is infinite or infinite-hard, whatever
    the status of the session (playing, won, lost or loading); the request
    is then only recorded as pending.  When the active tab is not an
    infinite one the switch proceeds without confirmation and without
    touching the persisted current streak: a tab switch leaves the store
    as it is, a media switch writes the media preference only. *)
Theorem leave_prompt_iff_infinite (e : Env) (s : State) :
  showLeaveConfirm s = false →
  (∀ tab, tab ≠ activeTab s →
     let s' := requestTabSwitch e tab s in
     (showLeaveConfirm s' = true ↔ isInfiniteTab (activeTab s) = true)
     ∧ (isInfiniteTab (activeTab s) = true →
          pendingTab s' = Some tab ∧ activeTab s' = activeTab s
          ∧ localStorage s' = localStorage s)
     ∧ (isInfiniteTab (activeTab s) = false →
          activeTab s' = tab ∧ localStorage s' = localStorage s))
  ∧ (∀ mode, mode ≠ mediaMode s →
     let s' := setMediaMode e mode s in
     (showLeaveConfirm s' = true ↔ isInfiniteTab (activeTab s) = true)
     ∧ (isInfiniteTab (activeTab s) = true →
          pendingMediaMode s' = Some mode ∧ mediaMode s' = mediaMode s
          ∧ localStorage s' = localStorage s)
     ∧ (isInfiniteTab (activeTab s) = false →
          mediaMode s' = mode
          ∧ localStorage s' = <[LS_MEDIA_MODE := mediaText mode]> (localStorage s)
          ∧ ∀ mode0 s0,
              localStorage s' !! currentKey (getStreakStorageKeys mode0 s0)
              = localStorage s !! currentKey (getStreakStorageKeys mode0 s0))).
Proof.
  intros Hshow. split.
  - intros tab Htab. cbv zeta. unfold requestTabSwitch, switchTab.
    repeat (case_bool_decide || case_match); simpl_fields_all; rewrite ?Hshow;
      repeat split; intros; try done; try congruence.
  - intros mode Hmode. cbv zeta. unfold setMediaMode, switchTab.
    repeat (case_bool_decide || case_match); simpl_fields_all; rewrite ?Hshow;
      repeat split; intros; try done; try congruence;
      rewrite lookup_insert_ne; try done; apply currentKey_not_media.
Qed.

Lemma leave_prompt_iff_infinite_witness :
  let s := session (U := latin1Ops) (november 1) firstWin in
  showLeaveConfirm s = false
  ∧ (showLeaveConfirm (requestTabSwitch (november 1) daily s) = true
     ↔ isInfiniteTab (activeTab s) = true).
Proof.
  intros s.
  assert (Hs : showLeaveConfirm s = false) by (vm_compute; reflexivity).
  assert (Ht : daily ≠ activeTab s) by (vm_compute; discriminate).
  split; [exact Hs |].
  exact (proj1 (proj1 (leave_prompt_iff_infinite (november 1) s Hs) daily Ht)).
Defined.

(* ===================================================================== *)
(** * Daily outcomes *)
(* ===================================================================== *)

Lemma dailyKeys_distinct tab s x :
  getDailyStoragePrefix tab win s +:+ x ≠ getDailyStoragePrefix tab loss s +:+ x.
Proof. unfold getDailyStoragePrefix. repeat case_bool_decide; key_neq. Qed.

Lemma getDailyStoragePrefix_mediaMode tab type s s' :
  mediaMode s' = mediaMode s →
  getDailyStoragePrefix tab type s' = getDailyStoragePrefix tab type s.
Proof. intros H. unfold getDailyStoragePrefix. by rewrite H. Qed.

(** C5 — For every (daily or daily-hard, media kind, day) key tuple:
    marking the day won writes the win flag and removes any loss flag
    stored for that tuple; and [syncDailyOutcome], run on the same day by
    any component that has nothing but that store and the same media
    kind, yields status won, the completed mark, and the same completion
    date string. *)
Theorem daily_win_round_trip (e e' : Env) (tab : Tab) (s s' : State) :
  today e' = today e →
  mediaMode s' = mediaMode s →
  localStorage s' = localStorage (markDailyWin e tab s) →
  let day := getTodayKey (today e) in
  localStorage (markDailyWin e tab s) !! (getDailyStoragePrefix tab win s +:+ day)
    = Some "true"
  ∧ localStorage (markDailyWin e tab s) !! (getDailyStoragePrefix tab loss s +:+ day)
    = None
  ∧ gameStatus (syncDailyOutcome e' tab s') = won
  ∧ dailyCompleted (syncDailyOutcome e' tab s') = true
  ∧ dailyCompletedDate (syncDailyOutcome e' tab s')
    = dailyCompletedDate (markDailyWin e tab s).
Proof.
  intros Hd Hm Hls day.
  assert (Hwin : localStorage (markDailyWin e tab s)
                 !! (getDailyStoragePrefix tab win s +:+ day) = Some "true").
  { simpl_fields. rewrite lookup_delete_ne by (apply not_eq_sym, dailyKeys_distinct).
    apply lookup_insert_eq. }
  split; [exact Hwin |].
  split; [simpl_fields; apply lookup_delete_eq |].
  unfold syncDailyOutcome. unfold getItem. rewrite Hd, Hls.
  rewrite !(getDailyStoragePrefix_mediaMode tab _ s s' Hm).
  fold day. rewrite Hwin. rewrite bool_decide_eq_true_2 by done.
  by simpl_fields.
Qed.

Lemma daily_win_round_trip_witness :
  let e := november 1 in
  let s := set_localStorage {[ "dailyHardGameLost_movie_20261101" := "true" ]}
             (set_activeTab hard (newComponent ∅ ∅)) in
  let s' := newComponent (localStorage (markDailyWin e hard s)) ∅ in
  today e = today e
  ∧ mediaMode s' = mediaMode s
  ∧ localStorage s' = localStorage (markDailyWin e hard s)
  ∧ localStorage (markDailyWin e hard s) !! "dailyHardGameWon_movie_20261101" = Some "true"
  ∧ localStorage (markDailyWin e hard s) !! "dailyHardGameLost_movie_20261101" = None
  ∧ gameStatus (syncDailyOutcome e hard s') = won
  ∧ dailyCompletedDate (syncDailyOutcome e hard s') = "01/11/26".
Proof.
  intros e s s'.
  destruct (daily_win_round_trip e e hard s s' eq_refl eq_refl eq_refl)
    as (H1 & H2 & H3 & _ & H5).
  split; [reflexivity |]. split; [reflexivity |]. split; [reflexivity |].
  split; [exact H1 |]. split; [exact H2 |]. split; [exact H3 |].
  rewrite H5. reflexivity.
Defined.

(** C9 — Confirming give-up has no precondition on the game status: from
    any state (playing, won, loading or lost) [confirmGiveUp] sets the
    status to lost, and in the daily modes it records the loss of the day
    and removes the win flag of the same (mode, media, day) tuple,
    whether or not one was recorded. *)
Theorem confirmGiveUp_from_any_status (e : Env) (s : State) :
  gameStatus (confirmGiveUp e s) = lost
  ∧ (isDailyTab (activeTab s) = true →
       let day := getTodayKey (today e) in
       localStorage (confirmGiveUp e s)
         !! (getDailyStoragePrefix (activeTab s) loss s +:+ day) = Some "true"
       ∧ localStorage (confirmGiveUp e s)
         !! (getDailyStoragePrefix (activeTab s) win s +:+ day) = None).
Proof.
  split.
  - unfold confirmGiveUp. repeat case_match; by simpl_fields.
  - intros Ht day. unfold confirmGiveUp. cbv zeta.
    rewrite !markCurrentMovieSeen_activeTab. fields.
    assert (isInfiniteTab (activeTab s) = false) as -> by (by destruct (activeTab s)).
    rewrite Ht.
    destruct (markCurrentMovieSeen_shape e
                (set_showGiveUpConfirm false (set_gameStatus lost s))) as [seen ->].
    set (s1 := set_seenStore seen (set_showGiveUpConfirm false (set_gameStatus lost s))).
    assert (Hm : mediaMode s1 = mediaMode s) by done.
    assert (Hl : localStorage s1 = localStorage s) by done.
    unfold markDailyLoss, removeItem, setItem. cbv zeta. fields.
    rewrite !(getDailyStoragePrefix_mediaMode _ _ s s1 Hm). fold day.
    split; [| apply lookup_delete_eq].
    rewrite lookup_delete_ne by apply dailyKeys_distinct. apply lookup_insert_eq.
Qed.

Example giveUp_after_daily_win :
  let e := november 1 in
  let s := markDailyWin e daily (set_gameStatus won (newComponent ∅ ∅)) in
  localStorage s !! "dailyGameWon_movie_20261101" = Some "true"
  ∧ gameStatus (confirmGiveUp e s) = lost
  ∧ localStorage (confirmGiveUp e s) !! "dailyGameWon_movie_20261101" = None
  ∧ localStorage (confirmGiveUp e s) !! "dailyGameLost_movie_20261101" = Some "true".
Proof. vm_compute. repeat split; reflexivity. Qed.

(* ===================================================================== *)
(** * More fields read through the operations *)
(* ===================================================================== *)

Lemma markCurrentMovieSeen_movie e s :
  movie (markCurrentMovieSeen e s) = movie s.
Proof. by destruct (markCurrentMovieSeen_shape e s) as [? ->]. Qed.

Lemma markCurrentMovieSeen_userGuess e s :
  userGuess (markCurrentMovieSeen e s) = userGuess s.
Proof. by destruct (markCurrentMovieSeen_shape e s) as [? ->]. Qed.

Lemma markCurrentMovieSeen_wrongGuesses e s :
  wrongGuesses (markCurrentMovieSeen e s) = wrongGuesses s.
Proof. by destruct (markCurrentMovieSeen_shape e s) as [? ->]. Qed.

Lemma markCurrentMovieSeen_showGiveUpConfirm e s :
  showGiveUpConfirm (markCurrentMovieSeen e s) = showGiveUpConfirm s.
Proof. by destruct (markCurrentMovieSeen_shape e s) as [? ->]. Qed.

Lemma markCurrentMovieSeen_selectedMovieFromAutocomplete e s :
  selectedMovieFromAutocomplete (markCurrentMovieSeen e s) = selectedMovieFromAutocomplete s.
Proof. by destruct (markCurrentMovieSeen_shape e s) as [? ->]. Qed.

Lemma markCurrentMovieSeen_dailyCompleted e s :
  dailyCompleted (markCurrentMovieSeen e s) = dailyCompleted s.
Proof. by destruct (markCurrentMovieSeen_shape e s) as [? ->]. Qed.

Lemma markCurrentMovieSeen_dailyCompletedDate e s :
  dailyCompletedDate (markCurrentMovieSeen e s) = dailyCompletedDate s.
Proof. by destruct (markCurrentMovieSeen_shape e s) as [? ->]. Qed.

Lemma markCurrentMovieSeen_showApiKeyPrompt e s :
  showApiKeyPrompt (markCurrentMovieSeen e s) = showApiKeyPrompt s.
Proof. by destruct (markCurrentMovieSeen_shape e s) as [? ->]. Qed.

Lemma markCurrentMovieSeen_infiniteMemoryEnabled e s :
  infiniteMemoryEnabled (markCurrentMovieSeen e s) = infiniteMemoryEnabled s.
Proof. by destruct (markCurrentMovieSeen_shape e s) as [? ->]. Qed.

Lemma markCurrentMovieSeen_stripEffects e s :
  stripEffects (markCurrentMovieSeen e s) = stripEffects s.
Proof. by destruct (markCurrentMovieSeen_shape e s) as [? ->]. Qed.

Lemma markCurrentMovieSeen_initialized e s :
  initialized (markCurrentMovieSeen e s) = initialized s.
Proof. by destruct (markCurrentMovieSeen_shape e s) as [? ->]. Qed.

Lemma markCurrentMovieSeen_inflight e s :
  inflight (markCurrentMovieSeen e s) = inflight s.
Proof. by destruct (markCurrentMovieSeen_shape e s) as [? ->]. Qed.

Lemma syncDailyOutcome_movie e tab s :
  movie (syncDailyOutcome e tab s) = movie s.
Proof. by destruct (syncDailyOutcome_shape e tab s) as (? & ? & ? & ->). Qed.

Lemma syncDailyOutcome_userGuess e tab s :
  userGuess (syncDailyOutcome e tab s) = userGuess s.
Proof. by destruct (syncDailyOutcome_shape e tab s) as (? & ? & ? & ->). Qed.

Lemma syncDailyOutcome_wrongGuesses e tab s :
  wrongGuesses (syncDailyOutcome e tab s) = wrongGuesses s.
Proof. by destruct (syncDailyOutcome_shape e tab s) as (? & ? & ? & ->). Qed.

Lemma syncDailyOutcome_showGiveUpConfirm e tab s :
  showGiveUpConfirm (syncDailyOutcome e tab s) = showGiveUpConfirm s.
Proof. by destruct (syncDailyOutcome_shape e tab s) as (? & ? & ? & ->). Qed.

Lemma syncDailyOutcome_selectedMovieFromAutocomplete e tab s :
  selectedMovieFromAutocomplete (syncDailyOutcome e tab s) = selectedMovieFromAutocomplete s.
Proof. by destruct (syncDailyOutcome_shape e tab s) as (? & ? & ? & ->). Qed.

Lemma syncDailyOutcome_showApiKeyPrompt e tab s :
  showApiKeyPrompt (syncDailyOutcome e tab s) = showApiKeyPrompt s.
Proof. by destruct (syncDailyOutcome_shape e tab s) as (? & ? & ? & ->). Qed.

Lemma syncDailyOutcome_infiniteMemoryEnabled e tab s :
  infiniteMemoryEnabled (syncDailyOutcome e tab s) = infiniteMemoryEnabled s.
Proof. by destruct (syncDailyOutcome_shape e tab s) as (? & ? & ? & ->). Qed.

Lemma syncDailyOutcome_stripEffects e tab s :
  stripEffects (syncDailyOutcome e tab s) = stripEffects s.
Proof. by destruct (syncDailyOutcome_shape e tab s) as (? & ? & ? & ->). Qed.

Lemma syncDailyOutcome_initialized e tab s :
  initialized (syncDailyOutcome e tab s) = initialized s.
Proof. by destruct (syncDailyOutcome_shape e tab s) as (? & ? & ? & ->). Qed.

Lemma syncDailyOutcome_seenStore e tab s :
  seenStore (syncDailyOutcome e tab s) = seenStore s.
Proof. by destruct (syncDailyOutcome_shape e tab s) as (? & ? & ? & ->). Qed.

Lemma syncDailyOutcome_inflight e tab s :
  inflight (syncDailyOutcome e tab s) = inflight s.
Proof. by destruct (syncDailyOutcome_shape e tab s) as (? & ? & ? & ->). Qed.

#[local] Hint Rewrite
  markCurrentMovieSeen_movie
  markCurrentMovieSeen_userGuess
  markCurrentMovieSeen_wrongGuesses
  markCurrentMovieSeen_showGiveUpConfirm
  markCurrentMovieSeen_selectedMovieFromAutocomplete
  markCurrentMovieSeen_dailyCompleted
  markCurrentMovieSeen_dailyCompletedDate
  markCurrentMovieSeen_showApiKeyPrompt
  markCurrentMovieSeen_infiniteMemoryEnabled
  markCurrentMovieSeen_stripEffects
  markCurrentMovieSeen_initialized
  markCurrentMovieSeen_inflight
  syncDailyOutcome_movie
  syncDailyOutcome_userGuess
  syncDailyOutcome_wrongGuesses
  syncDailyOutcome_showGiveUpConfirm
  syncDailyOutcome_selectedMovieFromAutocomplete
  syncDailyOutcome_showApiKeyPrompt
  syncDailyOutcome_infiniteMemoryEnabled
  syncDailyOutcome_stripEffects
  syncDailyOutcome_initialized
  syncDailyOutcome_seenStore
  syncDailyOutcome_inflight : frame.

(** Storage keys in a goal, unfolded like [unfold_keys] does in a
    hypothesis. *)
Ltac unfold_keys_goal :=
  cbv [String.append
       LS_DAILY_PREFIX LS_DAILY_HARD_PREFIX LS_DAILY_LOST_PREFIX LS_DAILY_HARD_LOST_PREFIX
       LS_SEEN_RANDOM LS_SEEN_RANDOM_TV LS_INFINITE_MEMORY LS_TMDB_TOKEN LS_MEDIA_MODE
       LS_CURRENT_STREAK LS_TODAY_BEST_PREFIX LS_ALL_TIME_BEST
       LS_CURRENT_STREAK_HARD LS_TODAY_BEST_HARD_PREFIX LS_ALL_TIME_BEST_HARD
       LS_CURRENT_STREAK_TV LS_TODAY_BEST_PREFIX_TV LS_ALL_TIME_BEST_TV
       LS_CURRENT_STREAK_HARD_TV LS_TODAY_BEST_HARD_PREFIX_TV LS_ALL_TIME_BEST_HARD_TV
       MovieService.LS_DAILY_MOVIE_PREFIX MovieService.LS_DAILY_HARD_MOVIE_PREFIX
       MovieService.LS_DAILY_TV_PREFIX MovieService.LS_DAILY_HARD_TV_PREFIX].

(** A value of [Math.random()] scaled to [n] and floored addresses one of
    [n] places. *)
Lemma floor_draw_range (rand : Q) (n : Z) :
  (0 <= rand)%Q → (rand < 1)%Q → 0 < n → 0 ≤ Qfloor (rand * inject_Z n) < n.
Proof.
  intros H0 H1 Hn.
  assert (Hn' : (0 < inject_Z n)%Q) by (change 0%Q with (inject_Z 0); by rewrite <- Zlt_Qlt).
  split.
  - rewrite <- (Qfloor_Z 0). apply Qfloor_resp_le.
    change (inject_Z 0) with 0%Q. apply Qmult_le_0_compat; [done | by apply Qlt_le_weak].
  - rewrite Zlt_Qlt. eapply Qle_lt_trans; [apply Qfloor_le |].
    rewrite <- (Qmult_1_l (inject_Z n)) at 2.
    by apply Qmult_lt_compat_r.
Qed.

(* ===================================================================== *)
(** * The shuffle of the strips *)
(* ===================================================================== *)

Section ShuffleFacts.
Context {T : Type}.
Implicit Types l : list T.

Lemma swap_Permutation i j l l' : swap i j l = Some l' → l' ≡ₚ l.
Proof.
  unfold swap. destruct (l !! i) as [a|] eqn:Hi; [| done].
  destruct (l !! j) as [b|] eqn:Hj; [| done]. intros [= <-].
  destruct (decide (i = j)) as [->|Hne].
  { rewrite list_insert_insert_eq. assert (a = b) as -> by congruence.
    by rewrite list_insert_id. }
  symmetry. apply Permutation_inj. split.
  { by rewrite !length_insert. }
  exists (λ x, if decide (x = i) then j else if decide (x = j) then i else x).
  split.
  { intros x y. repeat case_decide; congruence. }
  intros x. pose proof (lookup_lt_Some _ _ _ Hi). pose proof (lookup_lt_Some _ _ _ Hj).
  repeat case_decide; subst.
  - rewrite list_lookup_insert_eq by (by rewrite length_insert). done.
  - rewrite list_lookup_insert_ne by done. rewrite list_lookup_insert_eq by done. done.
  - by rewrite !list_lookup_insert_ne by done.
Qed.

Lemma shuffleLoop_Permutation random call i l :
  unitDraws random → (i < length l)%nat ∨ i = 0%nat →
  ∃ l', shuffleLoop random call i l = Some l' ∧ l' ≡ₚ l.
Proof.
  intros Hr. revert call l. induction i as [|i IH]; intros call l Hi.
  { by exists l. }
  destruct Hi as [Hi|]; [| done]. cbn [shuffleLoop].
  destruct (Hr call) as [H0 H1].
  pose proof (floor_draw_range (random call) (Z.of_nat (S i) + 1) H0 H1 ltac:(lia)) as Hj.
  set (j := Qfloor _) in *.
  rewrite (proj2 (Z.ltb_ge j 0)) by lia.
  destruct (lookup_lt_is_Some_2 l (S i) Hi) as [a Ha].
  destruct (lookup_lt_is_Some_2 l (Z.to_nat j) ltac:(lia)) as [b Hb].
  assert (Hs : swap (S i) (Z.to_nat j) l
               = Some (<[Z.to_nat j := a]> (<[S i := b]> l))).
  { unfold swap. by rewrite Ha, Hb. }
  rewrite Hs.
  destruct (IH (S call) (<[Z.to_nat j := a]> (<[S i := b]> l))) as (l' & Hl' & Hp).
  { left. rewrite !length_insert. lia. }
  exists l'. split; [done |]. rewrite Hp. by apply swap_Permutation in Hs.
Qed.

Lemma shuffleArray_Permutation random l :
  unitDraws random → ∃ l', shuffleArray random l = Some l' ∧ l' ≡ₚ l.
Proof.
  intros Hr. apply shuffleLoop_Permutation; [done |].
  destruct l; [by right | left; cbn; lia].
Qed.

End ShuffleFacts.

(** X1 — Whatever values in [0, 1) [Math.random()] returns,
    [shuffleArray] stays inside the array (every index it swaps exists)
    and returns a permutation of its argument: the same elements with the
    same multiplicities, hence the same length. *)
Theorem shuffleArray_permutation (T : Type) (random : nat → Q) (array : list T) :
  unitDraws random →
  ∃ result, shuffleArray random array = Some result
            ∧ result ≡ₚ array ∧ length result = length array.
Proof.
  intros Hr. destruct (shuffleArray_Permutation random array Hr) as (result & H & Hp).
  exists result. split; [done |]. split; [done |]. by rewrite Hp.
Qed.

Lemma shuffleArray_permutation_witness :
  unitDraws (λ _, 1 # 2)%Q
  ∧ ∃ result, shuffleArray (λ _, 1 # 2)%Q [10; 20; 30; 40] = Some result
              ∧ result ≡ₚ [10; 20; 30; 40] ∧ length result = length [10; 20; 30; 40].
Proof.
  assert (H : unitDraws (λ _, 1 # 2)%Q) by (intros k; split; by compute).
  split; [exact H |].
  exact (shuffleArray_permutation Z (λ _, 1 # 2)%Q [10; 20; 30; 40] H).
Defined.

Example shuffle_halves : shuffleArray (λ _, 1 # 2)%Q [10; 20; 30; 40] = Some [10; 40; 20; 30].
Proof. reflexivity. Qed.

Lemma currentStripCount_stepIndexOk s :
  stepIndexOk s → ∃ count, currentStripCount s = Some count ∧ 10 ≤ count ≤ 100.
Proof.
  unfold stepIndexOk, currentStripCount. cbn [length progressionSteps]. intros H.
  rewrite (proj2 (Z.ltb_ge _ 0)) by lia.
  assert (Hc : currentStepIndex s = 0 ∨ currentStepIndex s = 1 ∨ currentStepIndex s = 2
               ∨ currentStepIndex s = 3 ∨ currentStepIndex s = 4) by lia.
  destruct Hc as [-> | [-> | [-> | [-> | ->]]]]; eexists; (split; [reflexivity | lia]).
Qed.

(** X2 — In every state a session reaches, [shuffledStrips] is an
    arrangement of the strip indices of the current step: it has as many
    entries as the step has strips, no index twice, and exactly the
    indices [0 .. count - 1]. *)
Theorem shuffledStrips_each_index_once (U : UnicodeOps) (e0 : Env)
    (trace : list (Env * Event)) (e : Env) :
  unitDraws (random e) →
  ∃ count strips,
    currentStripCount (session e0 trace) = Some count
    ∧ shuffledStrips e (session e0 trace) = Some strips
    ∧ length strips = Z.to_nat count
    ∧ NoDup strips
    ∧ ∀ k, k ∈ strips ↔ 0 ≤ k < count.
Proof.
  intros Hr.
  assert (Hi : stepIndexOk (session e0 trace)).
  { apply run_stepIndexOk, pageLoad_stepIndexOk. }
  destruct (currentStripCount_stepIndexOk _ Hi) as (count & Hc & Hb).
  destruct (shuffleArray_Permutation (random e) (seqZ 0 count) Hr) as (strips & Hs & Hp).
  exists count, strips. unfold shuffledStrips. rewrite Hc. cbn [stripIndices].
  split; [done |]. split; [done |].
  split; [by rewrite Hp, length_seqZ |].
  split; [rewrite Hp; apply NoDup_seqZ |].
  intros k. rewrite Hp, elem_of_seqZ. lia.
Qed.

Lemma shuffledStrips_each_index_once_witness :
  unitDraws (random (november 1))
  ∧ ∃ count strips,
      currentStripCount (session (U := latin1Ops) (november 1) (skips 2)) = Some count
      ∧ shuffledStrips (november 1) (session (U := latin1Ops) (november 1) (skips 2))
        = Some strips
      ∧ length strips = Z.to_nat count
      ∧ NoDup strips
      ∧ ∀ k, k ∈ strips ↔ 0 ≤ k < count.
Proof.
  assert (H : unitDraws (random (november 1))) by (intros k; split; by compute).
  split; [exact H |].
  exact (shuffledStrips_each_index_once latin1Ops (november 1) (skips 2) (november 1) H).
Defined.

(* ===================================================================== *)
(** * The catalog service: random items and the stored daily reference *)
(* ===================================================================== *)

Lemma candidates_source results excludeIds p :
  p ∈ MovieService.candidates results excludeIds →
  p ∈ results ∧ MovieService.hasPoster p = true.
Proof.
  unfold MovieService.candidates. cbv zeta.
  destruct (bool_decide (0 < length excludeIds)%nat);
    destruct (bool_decide (length _ = 0%nat));
    rewrite ?list_elem_of_filter; tauto.
Qed.

Lemma candidates_unseen results excludeIds p q :
  q ∈ results → MovieService.hasPoster q = true → id (MovieService.movieOf q) ∉ excludeIds →
  p ∈ MovieService.candidates results excludeIds →
  id (MovieService.movieOf p) ∉ excludeIds.
Proof.
  intros Hq Hp Hx. unfold MovieService.candidates. cbv zeta.
  destruct (decide (0 < length excludeIds)%nat) as [He|He].
  - rewrite (bool_decide_eq_true_2 _ He).
    assert (Hin : q ∈ filter (λ m, id (MovieService.movieOf m) ∉ excludeIds)
                      (filter (λ m, MovieService.hasPoster m = true) results)).
    { by rewrite !list_elem_of_filter. }
    rewrite bool_decide_eq_false_2.
    + rewrite list_elem_of_filter. tauto.
    + intros Hl%length_zero_iff_nil. rewrite Hl in Hin. by apply elem_of_nil in Hin.
  - destruct excludeIds; [| cbn in He; lia]. intros _. apply not_elem_of_nil.
Qed.

Lemma candidates_nonempty results excludeIds q :
  q ∈ results → MovieService.hasPoster q = true →
  MovieService.candidates results excludeIds ≠ [].
Proof.
  intros Hq Hp. unfold MovieService.candidates. cbv zeta.
  assert (Hin : q ∈ filter (λ m, MovieService.hasPoster m = true) results).
  { by rewrite list_elem_of_filter. }
  assert (Hs : filter (λ m, MovieService.hasPoster m = true) results ≠ []).
  { intros E. rewrite E in Hin. by apply elem_of_nil in Hin. }
  destruct (bool_decide (0 < length excludeIds)%nat); [| by case_bool_decide].
  case_bool_decide as Hl; [done |]. intros E. apply Hl. by rewrite E.
Qed.

Lemma find_elem_of {A} (f : A → bool) (l : list A) x :
  List.find f l = Some x → x ∈ l ∧ f x = true.
Proof. intros H. apply find_some in H as [H1 H2]. split; [by apply list_elem_of_In | done]. Qed.

Lemma getRandomMovie_emits random popularPage excludeIds languageFilter results :
  unitDraws random →
  popularPage (MovieService.randomPage random) = Some results →
  MovieService.candidates results excludeIds ≠ [] →
  ∃ p, MovieService.getRandomMovie random popularPage excludeIds languageFilter
       = Some (Some p)
       ∧ p ∈ MovieService.candidates results excludeIds.
Proof.
  intros Hr Hp Hne. unfold MovieService.getRandomMovie. rewrite Hp. cbv zeta.
  set (movies := MovieService.candidates results excludeIds) in *.
  destruct (Hr 1%nat) as [H0 H1].
  pose proof (floor_draw_range (random 1%nat) (Z.of_nat (length movies)) H0 H1) as Hi.
  destruct movies as [|m0 ms] eqn:Em; [done |]. rewrite <- Em in *.
  specialize (Hi ltac:(rewrite Em; cbn; lia)).
  set (index := Qfloor _) in *.
  unfold MovieService.resultAt. rewrite (proj2 (Z.ltb_ge index 0)) by lia.
  destruct (lookup_lt_is_Some_2 movies (Z.to_nat index) ltac:(lia)) as [p Hp'].
  rewrite Hp'.
  destruct (bool_decide _ && _).
  - destruct (List.find _ movies) as [f|] eqn:Ef.
    + exists f. split; [done |]. by apply find_elem_of in Ef as [? _].
    + exists p. split; [done |]. by eapply list_elem_of_lookup_2.
  - exists p. split; [done |]. by eapply list_elem_of_lookup_2.
Qed.

(** X3 — [getRandomMovie], for values of [Math.random()] in
    [0, 1) and a page request that succeeds: the page asked for is one of
    1..50; when no item of the page has a poster the observable emits
    [undefined]; otherwise it emits an item of the page that has a poster,
    and that item is not among the excluded ids as soon as one poster item
    of the page is not excluded (only when all are excluded is an excluded
    item served). *)
Theorem getRandomMovie_avoids_seen (random : nat → Q)
    (popularPage : Z → option (list MovieService.Result)) (excludeIds : list Z)
    (languageFilter : MovieService.LanguageFilter) (results : list MovieService.Result) :
  unitDraws random →
  popularPage (MovieService.randomPage random) = Some results →
  1 ≤ MovieService.randomPage random ≤ 50
  ∧ ((∀ q, q ∈ results → MovieService.hasPoster q = false) →
     MovieService.getRandomMovie random popularPage excludeIds languageFilter = Some None)
  ∧ ∀ q, q ∈ results → MovieService.hasPoster q = true →
      ∃ p, MovieService.getRandomMovie random popularPage excludeIds languageFilter
           = Some (Some p)
           ∧ p ∈ results ∧ MovieService.hasPoster p = true
           ∧ (id (MovieService.movieOf q) ∉ excludeIds →
              id (MovieService.movieOf p) ∉ excludeIds).
Proof.
  intros Hr Hp. split; [| split].
  - destruct (Hr 0%nat) as [H0 H1]. unfold MovieService.randomPage.
    pose proof (floor_draw_range (random 0%nat) 50 H0 H1 ltac:(lia)). lia.
  - intros Hno. unfold MovieService.getRandomMovie. rewrite Hp. cbv zeta.
    assert (MovieService.candidates results excludeIds = []) as ->.
    { destruct (MovieService.candidates results excludeIds) as [|p l] eqn:E; [done |].
      destruct (candidates_source results excludeIds p) as [H1 H2]; [rewrite E; left |].
      rewrite (Hno p H1) in H2. done. }
    cbn [length]. unfold MovieService.resultAt.
    by destruct (_ <? 0).
  - intros q Hq Hposter.
    destruct (getRandomMovie_emits random popularPage excludeIds languageFilter results
                Hr Hp (candidates_nonempty _ _ q Hq Hposter)) as (p & He & Hin).
    exists p. split; [done |].
    destruct (candidates_source _ _ _ Hin) as [H1 H2]. split; [done |]. split; [done |].
    intros Hx. by apply (candidates_unseen results excludeIds p q).
Qed.

(** X4 — Under the [fr_en] filter, the item [getRandomMovie]
    emits has original language [fr] or [en] exactly when the candidate
    list (the poster items left after the exclusion) holds such an item:
    an item of another language is served only when there is no French or
    English candidate on the page. *)
Theorem getRandomMovie_language_filter (random : nat → Q)
    (popularPage : Z → option (list MovieService.Result)) (excludeIds : list Z)
    (results : list MovieService.Result) (p : MovieService.Result) :
  popularPage (MovieService.randomPage random) = Some results →
  MovieService.getRandomMovie random popularPage excludeIds MovieService.fr_en
    = Some (Some p) →
  MovieService.isFrEn p = true
  ↔ ∃ q, q ∈ MovieService.candidates results excludeIds ∧ MovieService.isFrEn q = true.
Proof.
  intros Hp. unfold MovieService.getRandomMovie. rewrite Hp. cbv zeta.
  set (movies := MovieService.candidates results excludeIds).
  unfold MovieService.resultAt.
  destruct (_ <? 0); [done |].
  destruct (movies !! _) as [p0|] eqn:E0; [| done].
  apply list_elem_of_lookup_2 in E0.
  rewrite bool_decide_eq_true_2 by done. cbn [andb].
  destruct (MovieService.isFrEn p0) eqn:Ep0; cbn [negb].
  - intros [= <-]. split; [by exists p0 | done].
  - destruct (List.find _ movies) as [f|] eqn:Ef.
    + intros [= <-]. apply find_elem_of in Ef as [H1 H2]. split; [by exists f | done].
    + intros [= <-]. split; [by rewrite Ep0 |].
      intros (q & Hq & Hfr). apply list_elem_of_In in Hq.
      by rewrite (find_none _ _ Ef q Hq) in Hfr.
Qed.



Lemma getRandomMovie_avoids_seen_witness :
  unitDraws (λ _, 0%Q)
  ∧ (λ _ : Z, Some samplePage) (MovieService.randomPage (λ _, 0%Q)) = Some samplePage
  ∧ 1 ≤ MovieService.randomPage (λ _, 0%Q) ≤ 50
  ∧ ∃ p, MovieService.getRandomMovie (λ _, 0%Q) (λ _, Some samplePage) [1]
           MovieService.all = Some (Some p)
         ∧ id (MovieService.movieOf p) ∉ [1].
Proof.
  assert (H : unitDraws (λ _, 0%Q)) by (intros k; split; by compute).
  split; [exact H |]. split; [reflexivity |].
  destruct (getRandomMovie_avoids_seen (λ _, 0%Q) (λ _, Some samplePage) [1]
              MovieService.all samplePage H eq_refl) as (H1 & _ & H3).
  split; [exact H1 |].
  destruct (H3 (posterItem 2 "en")) as (p & Hp & _ & _ & Hx).
  { unfold samplePage. apply elem_of_cons. right. apply elem_of_cons. by left. }
  { reflexivity. }
  exists p. split; [exact Hp |]. apply Hx. cbn.
  apply not_elem_of_cons. split; [done | apply not_elem_of_nil].
Defined.

Lemma getRandomMovie_language_filter_witness :
  (λ _ : Z, Some samplePage) (MovieService.randomPage (λ _, 0%Q)) = Some samplePage
  ∧ MovieService.getRandomMovie (λ _, 0%Q) (λ _, Some samplePage) [] MovieService.fr_en
    = Some (Some (posterItem 2 "en"))
  ∧ (MovieService.isFrEn (posterItem 2 "en") = true
     ↔ ∃ q, q ∈ MovieService.candidates samplePage []
            ∧ MovieService.isFrEn q = true).
Proof.
  split; [reflexivity |].
  assert (H : MovieService.getRandomMovie (λ _, 0%Q) (λ _, Some samplePage) []
                MovieService.fr_en = Some (Some (posterItem 2 "en"))) by by vm_compute.
  split; [exact H |].
  exact (getRandomMovie_language_filter (λ _, 0%Q) (λ _, Some samplePage) [] samplePage
           (posterItem 2 "en") eq_refl H).
Defined.


(* ===================================================================== *)
(** * Daily outcome flags *)
(* ===================================================================== *)

Lemma dailyKeys_linked tab s d tab' s' x :
  getDailyStoragePrefix tab' win s' +:+ x = getDailyStoragePrefix tab win s +:+ d
  ↔ getDailyStoragePrefix tab' loss s' +:+ x = getDailyStoragePrefix tab loss s +:+ d.
Proof.
  unfold getDailyStoragePrefix. repeat case_bool_decide;
    split; intros Hk; unfold_keys Hk; unfold_keys_goal; congruence.
Qed.

Lemma dailyKeys_win_not_loss tab s d tab' s' x :
  getDailyStoragePrefix tab' win s' +:+ x ≠ getDailyStoragePrefix tab loss s +:+ d.
Proof. unfold getDailyStoragePrefix. repeat case_bool_decide; key_neq. Qed.

Lemma dailyFlagsExclusive_empty : dailyFlagsExclusive ∅.
Proof. intros tab s0 day. left. apply lookup_empty. Qed.

Lemma dailyFlagsExclusive_insert k v ls :
  notDailyFlagKey k → dailyFlagsExclusive ls → dailyFlagsExclusive (<[k := v]> ls).
Proof.
  intros Hk H tab s0 day. rewrite !lookup_insert_ne by apply Hk. apply H.
Qed.

Lemma dailyFlagsExclusive_win tab s d v ls :
  dailyFlagsExclusive ls →
  dailyFlagsExclusive (delete (getDailyStoragePrefix tab loss s +:+ d)
                         (<[getDailyStoragePrefix tab win s +:+ d := v]> ls)).
Proof.
  intros H tab' s' x.
  destruct (decide (getDailyStoragePrefix tab' loss s' +:+ x
                    = getDailyStoragePrefix tab loss s +:+ d)) as [E|N].
  { right. rewrite E. apply lookup_delete_eq. }
  rewrite !lookup_delete_ne by first [done | apply not_eq_sym, dailyKeys_win_not_loss].
  rewrite !lookup_insert_ne; [apply H | | ].
  - apply dailyKeys_win_not_loss.
  - intros E. apply N. symmetry in E. by apply dailyKeys_linked in E.
Qed.

Lemma dailyFlagsExclusive_loss tab s d v ls :
  dailyFlagsExclusive ls →
  dailyFlagsExclusive (delete (getDailyStoragePrefix tab win s +:+ d)
                         (<[getDailyStoragePrefix tab loss s +:+ d := v]> ls)).
Proof.
  intros H tab' s' x.
  destruct (decide (getDailyStoragePrefix tab' win s' +:+ x
                    = getDailyStoragePrefix tab win s +:+ d)) as [E|N].
  { left. rewrite E. apply lookup_delete_eq. }
  rewrite !lookup_delete_ne by first [done | apply dailyKeys_win_not_loss].
  rewrite !lookup_insert_ne; [apply H | | ].
  - intros E. apply N. symmetry in E. by apply dailyKeys_linked in E.
  - apply not_eq_sym, dailyKeys_win_not_loss.
Qed.

Ltac not_flag_key :=
  let tab := fresh "tab" in
  let type := fresh "type" in
  let s0 := fresh "s0" in
  let day := fresh "day" in
  intros tab type s0 day; split_keys;
  unfold getDailyStoragePrefix, dailyServicePrefix;
  repeat case_bool_decide; repeat case_match; key_neq.

Lemma notDailyFlagKey_media : notDailyFlagKey LS_MEDIA_MODE.
Proof. not_flag_key. Qed.
Lemma notDailyFlagKey_memory : notDailyFlagKey LS_INFINITE_MEMORY.
Proof. not_flag_key. Qed.
Lemma notDailyFlagKey_token : notDailyFlagKey LS_TMDB_TOKEN.
Proof. not_flag_key. Qed.
Lemma notDailyFlagKey_service tab isTv x : notDailyFlagKey (dailyServicePrefix tab isTv +:+ x).
Proof. not_flag_key. Qed.
Lemma notDailyFlagKey_current mode s : notDailyFlagKey (currentKey (getStreakStorageKeys mode s)).
Proof. not_flag_key. Qed.
Lemma notDailyFlagKey_today mode s x :
  notDailyFlagKey (todayKey (getStreakStorageKeys mode s) +:+ x).
Proof. not_flag_key. Qed.
Lemma notDailyFlagKey_allTime mode s : notDailyFlagKey (allTimeKey (getStreakStorageKeys mode s)).
Proof. not_flag_key. Qed.

Ltac flags_solve :=
  simpl_fields_all;
  repeat first
    [ assumption
    | apply dailyFlagsExclusive_win
    | apply dailyFlagsExclusive_loss
    | apply dailyFlagsExclusive_insert;
      [first [apply notDailyFlagKey_media | apply notDailyFlagKey_memory
             | apply notDailyFlagKey_token | apply notDailyFlagKey_service
             | apply notDailyFlagKey_current | apply notDailyFlagKey_today
             | apply notDailyFlagKey_allTime] |] ].

Section DailyFlags.
Context (e : Env).
Local Abbreviation ok s := (dailyFlagsExclusive (localStorage s)).

Lemma switchTab_flags tab force s : ok s → ok (switchTab e tab force s).
Proof. intros H. unfold switchTab. repeat case_match; by flags_solve. Qed.

Lemma initializeWithToken_flags s : ok s → ok (initializeWithToken e s).
Proof. intros H. unfold initializeWithToken, loadForCurrentTab. repeat case_match; by flags_solve. Qed.

Lemma ngOnInit_flags s : ok s → ok (ngOnInit e s).
Proof.
  intros H. unfold ngOnInit.
  repeat case_match; try apply initializeWithToken_flags; by flags_solve.
Qed.

Lemma confirmLeaveTab_flags s : ok s → ok (confirmLeaveTab e s).
Proof.
  intros H. unfold confirmLeaveTab.
  repeat case_match; try apply switchTab_flags; by flags_solve.
Qed.

Lemma confirmGiveUp_flags s : ok s → ok (confirmGiveUp e s).
Proof. intros H. unfold confirmGiveUp. repeat case_match; by flags_solve. Qed.

Lemma nextStep_flags s : ok s → ok (nextStep e s).
Proof. intros H. unfold nextStep. repeat case_match; by flags_solve. Qed.

Lemma catalogAnswered_flags k m picked s : ok s → ok (catalogAnswered e k m picked s).
Proof.
  intros H. unfold catalogAnswered, onDailyMovie, onInfiniteMovie, servicePicked.
  repeat case_match; by flags_solve.
Qed.

Context {U : UnicodeOps}.

Lemma validateGuess_flags s : ok s → ok (validateGuess e s).
Proof.
  intros H. unfold validateGuess.
  case_bool_decide; [done |]. case_match.
  { apply nextStep_flags. by flags_solve. }
  destruct (extractGuess _) as [gt gy].
  case_match; [| fields; apply nextStep_flags; by flags_solve].
  repeat case_match; by flags_solve.
Qed.

Lemma step_flags ev s : ok s → ok (step e ev s).
Proof.
  intros H. destruct ev; cbn [step].
  - apply ngOnInit_flags. by flags_solve.
  - apply ngOnInit_flags. fields. apply dailyFlagsExclusive_empty.
  - unfold onTokenValidated. apply initializeWithToken_flags. by flags_solve.
  - unfold setMediaMode. repeat case_match; try apply switchTab_flags; by flags_solve.
  - by flags_solve.
  - unfold requestTabSwitch. repeat case_match; try apply switchTab_flags; by flags_solve.
  - by apply confirmLeaveTab_flags.
  - by flags_solve.
  - by flags_solve.
  - by flags_solve.
  - by flags_solve.
  - by apply confirmGiveUp_flags.
  - by flags_solve.
  - by apply validateGuess_flags.
  - by apply nextStep_flags.
  - by flags_solve.
  - by apply catalogAnswered_flags.
  - unfold catalogFailed. repeat case_match; by flags_solve.
Qed.

End DailyFlags.

(** X6 — In every state a session reaches, whatever the days on
    which its events happen, the store never holds both the win flag and
    the loss flag of a (daily or daily-hard tab, media kind, day) tuple. *)
Theorem daily_flags_never_both (U : UnicodeOps) (e0 : Env) (trace : list (Env * Event))
    (tab : Tab) (s0 : State) (day : string) :
  let ls := localStorage (session e0 trace) in
  ¬ (is_Some (ls !! (getDailyStoragePrefix tab win s0 +:+ day))
     ∧ is_Some (ls !! (getDailyStoragePrefix tab loss s0 +:+ day))).
Proof.
  intros ls.
  assert (H : dailyFlagsExclusive ls).
  { subst ls. unfold session.
    assert (H0 : dailyFlagsExclusive (localStorage (pageLoad e0 ∅ ∅))).
    { apply ngOnInit_flags. fields. apply dailyFlagsExclusive_empty. }
    revert H0. generalize (pageLoad e0 ∅ ∅). induction trace as [|[e ev] rest IH]; intros s H0.
    - done.
    - cbn [run]. apply IH. by apply step_flags. }
  intros [[v1 H1] [v2 H2]]. destruct (H tab s0 day); congruence.
Qed.

(* ===================================================================== *)
(** * Settings and the store *)
(* ===================================================================== *)

Lemma savedMediaMode_insert k v ls :
  notSettingsKey k → savedMediaMode (<[k := v]> ls) = savedMediaMode ls.
Proof. intros [H _]. unfold savedMediaMode. by rewrite lookup_insert_ne. Qed.

Lemma savedInfiniteMemory_insert k v ls :
  notSettingsKey k → savedInfiniteMemory (<[k := v]> ls) = savedInfiniteMemory ls.
Proof. intros [_ H]. unfold savedInfiniteMemory. by rewrite lookup_insert_ne. Qed.

Lemma savedMediaMode_delete k ls :
  notSettingsKey k → savedMediaMode (delete k ls) = savedMediaMode ls.
Proof. intros [H _]. unfold savedMediaMode. by rewrite lookup_delete_ne. Qed.

Lemma savedInfiniteMemory_delete k ls :
  notSettingsKey k → savedInfiniteMemory (delete k ls) = savedInfiniteMemory ls.
Proof. intros [_ H]. unfold savedInfiniteMemory. by rewrite lookup_delete_ne. Qed.

Lemma savedMediaMode_set mode ls :
  savedMediaMode (<[LS_MEDIA_MODE := mediaText mode]> ls) = mode.
Proof. unfold savedMediaMode. rewrite lookup_insert_eq. by destruct mode. Qed.

Lemma savedInfiniteMemory_set b ls :
  savedInfiniteMemory (<[LS_INFINITE_MEMORY := boolText b]> ls) = b.
Proof. unfold savedInfiniteMemory. rewrite lookup_insert_eq. by destruct b. Qed.

Lemma savedMediaMode_memory v ls :
  savedMediaMode (<[LS_INFINITE_MEMORY := v]> ls) = savedMediaMode ls.
Proof. unfold savedMediaMode. by rewrite lookup_insert_ne. Qed.

Lemma savedInfiniteMemory_media v ls :
  savedInfiniteMemory (<[LS_MEDIA_MODE := v]> ls) = savedInfiniteMemory ls.
Proof. unfold savedInfiniteMemory. by rewrite lookup_insert_ne. Qed.

Ltac not_settings_key :=
  split_keys; unfold getDailyStoragePrefix, dailyServicePrefix;
  repeat case_bool_decide; repeat case_match; split; key_neq.

Lemma notSettingsKey_token : notSettingsKey LS_TMDB_TOKEN.
Proof. not_settings_key. Qed.
Lemma notSettingsKey_service tab isTv x : notSettingsKey (dailyServicePrefix tab isTv +:+ x).
Proof. not_settings_key. Qed.
Lemma notSettingsKey_daily tab type s x :
  notSettingsKey (getDailyStoragePrefix tab type s +:+ x).
Proof. destruct type; not_settings_key. Qed.
Lemma notSettingsKey_current mode s : notSettingsKey (currentKey (getStreakStorageKeys mode s)).
Proof. not_settings_key. Qed.
Lemma notSettingsKey_today mode s x :
  notSettingsKey (todayKey (getStreakStorageKeys mode s) +:+ x).
Proof. not_settings_key. Qed.
Lemma notSettingsKey_allTime mode s : notSettingsKey (allTimeKey (getStreakStorageKeys mode s)).
Proof. not_settings_key. Qed.

Create HintDb settings_keys.
#[local] Hint Resolve notSettingsKey_token notSettingsKey_service notSettingsKey_daily
  notSettingsKey_current notSettingsKey_today notSettingsKey_allTime : settings_keys.

Ltac settings_rewrite :=
  repeat first
    [ rewrite savedMediaMode_set
    | rewrite savedInfiniteMemory_set
    | rewrite savedMediaMode_memory
    | rewrite savedInfiniteMemory_media
    | rewrite savedMediaMode_insert by auto with settings_keys
    | rewrite savedInfiniteMemory_insert by auto with settings_keys
    | rewrite savedMediaMode_delete by auto with settings_keys
    | rewrite savedInfiniteMemory_delete by auto with settings_keys ].

Ltac settings_solve :=
  match goal with
  | H : settingsPersisted _ |- _ => destruct H as [?Hmedia ?Hmemory]
  end;
  unfold settingsPersisted; simpl_fields_all; settings_rewrite; by split.

Section Settings.
Context (e : Env).

Lemma switchTab_settings tab force s :
  settingsPersisted s → settingsPersisted (switchTab e tab force s).
Proof. intros H. unfold switchTab. repeat case_match; settings_solve. Qed.

Lemma initializeWithToken_settings s :
  settingsPersisted s → settingsPersisted (initializeWithToken e s).
Proof.
  intros H. unfold initializeWithToken, loadForCurrentTab. repeat case_match; settings_solve.
Qed.

Lemma pageLoad_settings ls seen : settingsPersisted (pageLoad e ls seen).
Proof.
  unfold pageLoad, ngOnInit.
  repeat case_match; try apply initializeWithToken_settings;
    unfold settingsPersisted, savedMediaMode, savedInfiniteMemory; simpl_fields_all;
    repeat case_bool_decide; try done; by split.
Qed.

Lemma confirmLeaveTab_settings s :
  settingsPersisted s → settingsPersisted (confirmLeaveTab e s).
Proof.
  intros H. unfold confirmLeaveTab.
  repeat case_match; try apply switchTab_settings; settings_solve.
Qed.

Lemma confirmGiveUp_settings s : settingsPersisted s → settingsPersisted (confirmGiveUp e s).
Proof. intros H. unfold confirmGiveUp. repeat case_match; settings_solve. Qed.

Lemma nextStep_settings s : settingsPersisted s → settingsPersisted (nextStep e s).
Proof. intros H. unfold nextStep. repeat case_match; settings_solve. Qed.

Lemma catalogAnswered_settings k m picked s :
  settingsPersisted s → settingsPersisted (catalogAnswered e k m picked s).
Proof.
  intros H. unfold catalogAnswered, onDailyMovie, onInfiniteMovie, servicePicked.
  repeat case_match; settings_solve.
Qed.

Context {U : UnicodeOps}.

Lemma validateGuess_settings s : settingsPersisted s → settingsPersisted (validateGuess e s).
Proof.
  intros H. unfold validateGuess.
  case_bool_decide; [done |]. case_match.
  { apply nextStep_settings. settings_solve. }
  destruct (extractGuess _) as [gt gy].
  case_match.
  - repeat case_match; settings_solve.
  - assert (H' : ∀ s', settingsPersisted s' →
               settingsPersisted (set_selectedMovieFromAutocomplete None (set_userGuess [] s'))).
    { intros s' Hs'. settings_solve. }
    apply H', nextStep_settings. settings_solve.
Qed.

Lemma step_settings ev s : settingsPersisted s → settingsPersisted (step e ev s).
Proof.
  intros H. destruct ev; cbn [step].
  - apply pageLoad_settings.
  - apply pageLoad_settings.
  - unfold onTokenValidated. apply initializeWithToken_settings. settings_solve.
  - unfold setMediaMode. repeat case_match; try apply switchTab_settings; settings_solve.
  - settings_solve.
  - unfold requestTabSwitch. repeat case_match; try apply switchTab_settings; settings_solve.
  - by apply confirmLeaveTab_settings.
  - settings_solve.
  - settings_solve.
  - settings_solve.
  - settings_solve.
  - by apply confirmGiveUp_settings.
  - settings_solve.
  - by apply validateGuess_settings.
  - by apply nextStep_settings.
  - settings_solve.
  - by apply catalogAnswered_settings.
  - unfold catalogFailed. repeat case_match; settings_solve.
Qed.

End Settings.

Lemma run_settings (U : UnicodeOps) trace s :
  settingsPersisted s → settingsPersisted (run trace s).
Proof.
  revert s. induction trace as [|[e ev] rest IH]; intros s H; [done |].
  cbn [run]. apply IH. by apply step_settings.
Qed.

(** X7 — In every state a session reaches, a page reload
    restores the media kind and the seen-recently setting the component
    had: both are always the ones the store holds. *)
Theorem settings_survive_reload (U : UnicodeOps) (e0 e : Env) (trace : list (Env * Event)) :
  let s := session e0 trace in
  mediaMode (step e Reload s) = mediaMode s
  ∧ infiniteMemoryEnabled (step e Reload s) = infiniteMemoryEnabled s.
Proof.
  intros s.
  assert (H : settingsPersisted s) by apply run_settings, pageLoad_settings.
  destruct H as [H1 H2]. cbn [step].
  destruct (pageLoad_settings e (localStorage s) (seenStore s)) as [H3 H4].
  rewrite H1, H2, H3, H4.
  assert (Hl : localStorage (pageLoad e (localStorage s) (seenStore s)) = localStorage s).
  { unfold pageLoad, ngOnInit, initializeWithToken, loadForCurrentTab.
    repeat case_match; by simpl_fields. }
  by rewrite Hl.
Qed.

(* ===================================================================== *)
(** * The all-time best *)
(* ===================================================================== *)

Lemma allTimeLedgerOk_empty : allTimeLedgerOk ∅.
Proof. intros mode s0 keys. unfold readNumber. rewrite !lookup_empty. by cbn. Qed.

Lemma allTimeLedgerOk_insert k v ls :
  notAllTimeLedgerKey k → allTimeLedgerOk ls → allTimeLedgerOk (<[k := v]> ls).
Proof.
  intros Hk H mode s0 keys. destruct (Hk mode s0) as [H1 H2].
  unfold readNumber. rewrite !lookup_insert_ne by done. apply H.
Qed.

Lemma allTimeLedgerOk_delete k ls :
  notAllTimeLedgerKey k → allTimeLedgerOk ls → allTimeLedgerOk (delete k ls).
Proof.
  intros Hk H mode s0 keys. destruct (Hk mode s0) as [H1 H2].
  unfold readNumber. rewrite !lookup_delete_ne by done. apply H.
Qed.

Lemma allTimeLedgerOk_save day mode s c t a ls :
  signalsOk c a → allTimeLedgerOk ls →
  let keys := getStreakStorageKeys mode s in
  allTimeLedgerOk (<[allTimeKey keys := toString a]>
                     (<[todayKey keys +:+ day := t]>
                        (<[currentKey keys := toString c]> ls))).
Proof.
  intros Hs H keys mode' s0' keys'.
  destruct c as [x|], a as [y|]; try (by destruct Hs as [? []]); try (by destruct Hs as [[] ?]).
  specialize (H mode' s0'). cbn zeta in H.
  subst keys keys'. revert H. split_keys; intros Hl;
  repeat first
    [ rewrite readNumber_insert_eq
    | rewrite readNumber_insert_ne by key_neq ].
  all: done.
Qed.

Ltac not_allTime_key :=
  let mode := fresh "mode" in
  let s0 := fresh "s0" in
  intros mode s0; cbv zeta; split_keys;
  unfold getDailyStoragePrefix, dailyServicePrefix;
  repeat case_bool_decide; repeat case_match; split; key_neq.

Lemma notAllTimeLedgerKey_media : notAllTimeLedgerKey LS_MEDIA_MODE.
Proof. not_allTime_key. Qed.
Lemma notAllTimeLedgerKey_memory : notAllTimeLedgerKey LS_INFINITE_MEMORY.
Proof. not_allTime_key. Qed.
Lemma notAllTimeLedgerKey_token : notAllTimeLedgerKey LS_TMDB_TOKEN.
Proof. not_allTime_key. Qed.
Lemma notAllTimeLedgerKey_daily tab type s x :
  notAllTimeLedgerKey (getDailyStoragePrefix tab type s +:+ x).
Proof. destruct type; not_allTime_key. Qed.
Lemma notAllTimeLedgerKey_service tab isTv x :
  notAllTimeLedgerKey (dailyServicePrefix tab isTv +:+ x).
Proof. not_allTime_key. Qed.

Lemma allTimeLedgerOk_read ls mode s0 :
  allTimeLedgerOk ls →
  signalsOk (parseInt (orZero (ls !! currentKey (getStreakStorageKeys mode s0))))
            (parseInt (orZero (ls !! allTimeKey (getStreakStorageKeys mode s0)))).
Proof. intros H. apply H. Qed.

Ltac allTime_ledger_solve :=
  repeat first
    [ assumption
    | apply allTimeLedgerOk_save; [eauto using signalsOk_zero, signalsOk_succ_same,
                                     signalsOk_succ_below |]
    | apply allTimeLedgerOk_insert;
      [first [apply notAllTimeLedgerKey_media | apply notAllTimeLedgerKey_memory
             | apply notAllTimeLedgerKey_token | apply notAllTimeLedgerKey_daily
             | apply notAllTimeLedgerKey_service] |]
    | apply allTimeLedgerOk_delete; [apply notAllTimeLedgerKey_daily |] ].

Ltac allTime_solve :=
  match goal with
  | H : allTimeInvariant _ |- _ => destruct H as [?Hsig ?Hled]
  end;
  unfold allTimeInvariant; simpl_fields_all;
  split;
  [ first [ assumption
          | by apply allTimeLedgerOk_read; allTime_ledger_solve
          | by eauto using signalsOk_zero, signalsOk_succ_same, signalsOk_succ_below ]
  | by allTime_ledger_solve ].

Section AllTime.
Context (e : Env).

Lemma switchTab_allTime tab force s :
  allTimeInvariant s → allTimeInvariant (switchTab e tab force s).
Proof. intros H. unfold switchTab. repeat case_match; allTime_solve. Qed.

Lemma initializeWithToken_allTime s :
  allTimeInvariant s → allTimeInvariant (initializeWithToken e s).
Proof.
  intros H. unfold initializeWithToken, loadForCurrentTab. repeat case_match; allTime_solve.
Qed.

Lemma pageLoad_allTime ls seen : allTimeLedgerOk ls → allTimeInvariant (pageLoad e ls seen).
Proof.
  intros H. unfold pageLoad, ngOnInit.
  repeat case_match; try apply initializeWithToken_allTime;
    unfold allTimeInvariant; simpl_fields; (split; [by apply allTimeLedgerOk_read | done]).
Qed.

Lemma confirmLeaveTab_allTime s : allTimeInvariant s → allTimeInvariant (confirmLeaveTab e s).
Proof.
  intros H. unfold confirmLeaveTab.
  repeat case_match; try apply switchTab_allTime; allTime_solve.
Qed.

Lemma confirmGiveUp_allTime s : allTimeInvariant s → allTimeInvariant (confirmGiveUp e s).
Proof. intros H. unfold confirmGiveUp. repeat case_match; allTime_solve. Qed.

Lemma nextStep_allTime s : allTimeInvariant s → allTimeInvariant (nextStep e s).
Proof. intros H. unfold nextStep. repeat case_match; allTime_solve. Qed.

Lemma catalogAnswered_allTime k m picked s :
  allTimeInvariant s → allTimeInvariant (catalogAnswered e k m picked s).
Proof.
  intros H. unfold catalogAnswered, onDailyMovie, onInfiniteMovie, servicePicked.
  repeat case_match; allTime_solve.
Qed.

Context {U : UnicodeOps}.

Lemma validateGuess_allTime s : allTimeInvariant s → allTimeInvariant (validateGuess e s).
Proof.
  intros H. unfold validateGuess.
  case_bool_decide; [done |]. case_match.
  { apply nextStep_allTime. allTime_solve. }
  destruct (extractGuess _) as [gt gy].
  case_match; [| unfold allTimeInvariant; fields; apply nextStep_allTime; allTime_solve].
  repeat case_match; allTime_solve.
Qed.

Lemma step_allTime ev s : allTimeInvariant s → allTimeInvariant (step e ev s).
Proof.
  intros H. destruct ev; cbn [step].
  - apply pageLoad_allTime, H.
  - apply pageLoad_allTime, allTimeLedgerOk_empty.
  - unfold onTokenValidated. apply initializeWithToken_allTime. allTime_solve.
  - unfold setMediaMode. repeat case_match; try apply switchTab_allTime; allTime_solve.
  - allTime_solve.
  - unfold requestTabSwitch. repeat case_match; try apply switchTab_allTime; allTime_solve.
  - by apply confirmLeaveTab_allTime.
  - allTime_solve.
  - allTime_solve.
  - allTime_solve.
  - allTime_solve.
  - by apply confirmGiveUp_allTime.
  - allTime_solve.
  - by apply validateGuess_allTime.
  - by apply nextStep_allTime.
  - allTime_solve.
  - by apply catalogAnswered_allTime.
  - unfold catalogFailed. repeat case_match; allTime_solve.
Qed.

End AllTime.

Lemma run_allTime (U : UnicodeOps) trace s :
  allTimeInvariant s → allTimeInvariant (run trace s).
Proof.
  revert s. induction trace as [|[e ev] rest IH]; intros s H; [done |].
  cbn [run]. apply IH. by apply step_allTime.
Qed.

(** X8 — In every state a session reaches, whatever the days
    on which its events happen, the current streak and the all-time best
    are integers with [0 <= currentStreak <= allTimeBestStreak]. *)
Theorem all_time_best_bounds_streak (U : UnicodeOps) (e0 : Env)
    (trace : list (Env * Event)) :
  ∃ c a, currentStreak (session e0 trace) = Int c
         ∧ allTimeBestStreak (session e0 trace) = Int a
         ∧ 0 ≤ c ≤ a.
Proof.
  destruct (run_allTime U trace (pageLoad e0 ∅ ∅)) as [[H1 H2] _].
  { apply pageLoad_allTime, allTimeLedgerOk_empty. }
  fold (session e0 trace) in H1, H2.
  destruct (currentStreak (session e0 trace)) as [c|]; [| done].
  destruct (allTimeBestStreak (session e0 trace)) as [a|]; [| done].
  exists c, a. cbn in H1, H2. repeat split; lia.
Qed.

(* ===================================================================== *)
(** * The streak signals and the store *)
(* ===================================================================== *)

Lemma readNumber_insert_toString ls k n : readNumber (<[k := toString n]> ls) k = n.
Proof. destruct n; [apply readNumber_insert_eq |]. unfold readNumber. by rewrite lookup_insert_eq. Qed.

Lemma readNumber_delete_ne ls k k' : k ≠ k' → readNumber (delete k ls) k' = readNumber ls k'.
Proof. intros. unfold readNumber. by rewrite lookup_delete_ne. Qed.

Lemma parseInt_orZero_toString n : parseInt (orZero (Some (toString n))) = n.
Proof. destruct n; [by rewrite orZero_toString, parseInt_toString | done]. Qed.

Lemma getStreakStorageKeys_mediaMode mode s' s :
  mediaMode s' = mediaMode s → getStreakStorageKeys mode s' = getStreakStorageKeys mode s.
Proof. intros H. unfold getStreakStorageKeys. by rewrite H. Qed.

Lemma infiniteModeOf_infinite t : isInfiniteTab t = true → infiniteModeOf t = t.
Proof. by destruct t. Qed.

(** The state whose media kind chooses the keys is brought back to [s]. *)
Ltac keys_frame s :=
  repeat match goal with
  | |- context [getStreakStorageKeys ?m ?s'] =>
      lazymatch s' with
      | s => fail
      | _ => rewrite (getStreakStorageKeys_mediaMode m s' s) by (by simpl_fields)
      end
  end.

Lemma read_saved_current keys d c t a ls :
  (∃ mode s, keys = getStreakStorageKeys mode s) →
  readNumber (<[allTimeKey keys := toString a]>
                (<[todayKey keys +:+ d := toString t]>
                   (<[currentKey keys := toString c]> ls))) (currentKey keys) = c.
Proof.
  intros (mode & s & ->).
  rewrite !readNumber_insert_ne by (split_keys; key_neq). apply readNumber_insert_toString.
Qed.

Lemma read_saved_today keys d c t a ls :
  (∃ mode s, keys = getStreakStorageKeys mode s) →
  readNumber (<[allTimeKey keys := toString a]>
                (<[todayKey keys +:+ d := toString t]>
                   (<[currentKey keys := toString c]> ls))) (todayKey keys +:+ d) = t.
Proof.
  intros (mode & s & ->).
  rewrite !readNumber_insert_ne by (split_keys; key_neq). apply readNumber_insert_toString.
Qed.

Lemma read_saved_allTime keys d c t a ls :
  readNumber (<[allTimeKey keys := toString a]>
                (<[todayKey keys +:+ d := toString t]>
                   (<[currentKey keys := toString c]> ls))) (allTimeKey keys) = a.
Proof. apply readNumber_insert_toString. Qed.

Ltac foreign_key :=
  let mode := fresh "mode" in
  let s0 := fresh "s0" in
  let day := fresh "day" in
  intros mode s0 day; cbv zeta; split_keys;
  unfold getDailyStoragePrefix, dailyServicePrefix;
  repeat case_bool_decide; repeat case_match; (split; [| split]); key_neq.

Lemma foreignKey_media : foreignKey LS_MEDIA_MODE.
Proof. foreign_key. Qed.
Lemma foreignKey_memory : foreignKey LS_INFINITE_MEMORY.
Proof. foreign_key. Qed.
Lemma foreignKey_token : foreignKey LS_TMDB_TOKEN.
Proof. foreign_key. Qed.
Lemma foreignKey_daily tab type s x : foreignKey (getDailyStoragePrefix tab type s +:+ x).
Proof. destruct type; foreign_key. Qed.
Lemma foreignKey_service tab isTv x : foreignKey (dailyServicePrefix tab isTv +:+ x).
Proof. foreign_key. Qed.

Create HintDb foreign_keys.
#[local] Hint Resolve foreignKey_media foreignKey_memory foreignKey_token foreignKey_daily
  foreignKey_service : foreign_keys.

Lemma read_current_foreign k v ls mode s :
  foreignKey k →
  readNumber (<[k := v]> ls) (currentKey (getStreakStorageKeys mode s))
  = readNumber ls (currentKey (getStreakStorageKeys mode s)).
Proof. intros H. apply readNumber_insert_ne, (H mode s EmptyString). Qed.

Lemma read_today_foreign k v ls mode s d :
  foreignKey k →
  readNumber (<[k := v]> ls) (todayKey (getStreakStorageKeys mode s) +:+ d)
  = readNumber ls (todayKey (getStreakStorageKeys mode s) +:+ d).
Proof. intros H. apply readNumber_insert_ne, (H mode s d). Qed.

Lemma read_allTime_foreign k v ls mode s :
  foreignKey k →
  readNumber (<[k := v]> ls) (allTimeKey (getStreakStorageKeys mode s))
  = readNumber ls (allTimeKey (getStreakStorageKeys mode s)).
Proof. intros H. apply readNumber_insert_ne, (H mode s EmptyString). Qed.

Lemma read_current_foreign_delete k ls mode s :
  foreignKey k →
  readNumber (delete k ls) (currentKey (getStreakStorageKeys mode s))
  = readNumber ls (currentKey (getStreakStorageKeys mode s)).
Proof. intros H. apply readNumber_delete_ne, (H mode s EmptyString). Qed.

Lemma read_today_foreign_delete k ls mode s d :
  foreignKey k →
  readNumber (delete k ls) (todayKey (getStreakStorageKeys mode s) +:+ d)
  = readNumber ls (todayKey (getStreakStorageKeys mode s) +:+ d).
Proof. intros H. apply readNumber_delete_ne, (H mode s d). Qed.

Lemma read_allTime_foreign_delete k ls mode s :
  foreignKey k →
  readNumber (delete k ls) (allTimeKey (getStreakStorageKeys mode s))
  = readNumber ls (allTimeKey (getStreakStorageKeys mode s)).
Proof. intros H. apply readNumber_delete_ne, (H mode s EmptyString). Qed.

Ltac shown_rewrite :=
  repeat first
    [ rewrite read_saved_current by (by eexists _, _)
    | rewrite read_saved_today by (by eexists _, _)
    | rewrite read_saved_allTime
    | rewrite read_current_foreign by auto with foreign_keys
    | rewrite read_today_foreign by auto with foreign_keys
    | rewrite read_allTime_foreign by auto with foreign_keys
    | rewrite read_current_foreign_delete by auto with foreign_keys
    | rewrite read_today_foreign_delete by auto with foreign_keys
    | rewrite read_allTime_foreign_delete by auto with foreign_keys ].

(** One branch of an operation on [s]. *)
Ltac shown_solve s :=
  unfold shownIsStored; simpl_fields_all; keys_frame s;
  let Hinf := fresh "Hinf" in
  intros Hinf;
  first
    [ congruence
    | rewrite ?(infiniteModeOf_infinite _ Hinf); shown_rewrite;
      first [ done
            | match goal with
              | H : shownIsStored _ s |- _ => exact (H Hinf)
              end ] ].

Section Shown.
Context (e : Env).
Local Abbreviation day := (getTodayKey (today e)).

Lemma switchTab_shown tab force s :
  (force = false → activeTab s = tab → shownIsStored day s) →
  shownIsStored day (switchTab e tab force s).
Proof.
  intros H. unfold switchTab.
  destruct (negb force && bool_decide (activeTab s = tab)) eqn:E.
  { apply andb_prop in E as [E1 E2]. apply H; [by destruct force | by case_bool_decide]. }
  clear H E. destruct (isInfiniteTab tab) eqn:Et.
  - case_bool_decide as Hne.
    + shown_solve s.
    + subst tab. shown_solve s.
  - case_bool_decide as Hne.
    + shown_solve s.
    + subst tab. shown_solve s.
Qed.

Lemma initializeWithToken_shown s :
  shownIsStored day s → shownIsStored day (initializeWithToken e s).
Proof.
  intros H. unfold initializeWithToken, loadForCurrentTab. repeat case_match; shown_solve s.
Qed.

Lemma pageLoad_shown ls seen : shownIsStored day (pageLoad e ls seen).
Proof.
  intros Hinf. unfold pageLoad in Hinf. rewrite ngOnInit_activeTab in Hinf. done.
Qed.

Lemma confirmGiveUp_shown s : shownIsStored day s → shownIsStored day (confirmGiveUp e s).
Proof. intros H. unfold confirmGiveUp. repeat case_match; shown_solve s. Qed.

Lemma nextStep_shown s : shownIsStored day s → shownIsStored day (nextStep e s).
Proof. intros H. unfold nextStep. repeat case_match; shown_solve s. Qed.

Lemma catalogAnswered_shown k m picked s :
  shownIsStored day s → shownIsStored day (catalogAnswered e k m picked s).
Proof.
  intros H. unfold catalogAnswered, onDailyMovie, onInfiniteMovie, servicePicked.
  repeat case_match; shown_solve s.
Qed.

Lemma confirmLeaveTab_shown s : shownIsStored day s → shownIsStored day (confirmLeaveTab e s).
Proof.
  intros H. unfold confirmLeaveTab.
  repeat case_match; try (apply switchTab_shown; intros; try done); shown_solve s.
Qed.

Context {U : UnicodeOps}.

Lemma validateGuess_shown s : shownIsStored day s → shownIsStored day (validateGuess e s).
Proof.
  intros H. unfold validateGuess.
  case_bool_decide; [done |]. case_match.
  { apply nextStep_shown. shown_solve s. }
  destruct (extractGuess _) as [gt gy].
  case_match.
  - repeat case_match; shown_solve s.
  - assert (H' : ∀ s', shownIsStored day s' →
               shownIsStored day
                 (set_selectedMovieFromAutocomplete None (set_userGuess [] s'))).
    { intros s' Hs'. shown_solve s'. }
    apply H', nextStep_shown. shown_solve s.
Qed.

Lemma step_shown ev s : shownIsStored day s → shownIsStored day (step e ev s).
Proof.
  intros H. destruct ev; cbn [step].
  - apply pageLoad_shown.
  - apply pageLoad_shown.
  - unfold onTokenValidated. apply initializeWithToken_shown. shown_solve s.
  - unfold setMediaMode.
    repeat case_match; try (apply switchTab_shown; intros; try done); shown_solve s.
  - shown_solve s.
  - unfold requestTabSwitch.
    repeat case_match; try (apply switchTab_shown; intros; try done); shown_solve s.
  - by apply confirmLeaveTab_shown.
  - shown_solve s.
  - shown_solve s.
  - shown_solve s.
  - shown_solve s.
  - by apply confirmGiveUp_shown.
  - shown_solve s.
  - by apply validateGuess_shown.
  - by apply nextStep_shown.
  - shown_solve s.
  - by apply catalogAnswered_shown.
  - unfold catalogFailed. repeat case_match; shown_solve s.
Qed.

End Shown.

(** X9 — In every state reached by a session whose events all
    happen on the day of its first page load, when the active tab is an
    infinite tab the three streak signals are the numbers the store holds
    under the keys of that tab and media kind (the best of the day under
    the key of the day): what is shown is what a reload would read. *)
Theorem shown_streak_is_stored (U : UnicodeOps) (e0 : Env) (trace : list (Env * Event)) :
  Forall (λ x : Env * Event, today x.1 = today e0) trace →
  let s := session e0 trace in
  let keys := getStreakStorageKeys (activeTab s) s in
  isInfiniteTab (activeTab s) = true →
  currentStreak s = readNumber (localStorage s) (currentKey keys)
  ∧ todayBestStreak s
    = readNumber (localStorage s) (todayKey keys +:+ getTodayKey (today e0))
  ∧ allTimeBestStreak s = readNumber (localStorage s) (allTimeKey keys).
Proof.
  intros Hd s keys. subst s keys. unfold session.
  assert (H0 : shownIsStored (getTodayKey (today e0)) (pageLoad e0 ∅ ∅))
    by apply pageLoad_shown.
  revert H0. generalize (pageLoad e0 ∅ ∅).
  induction Hd as [|[e ev] rest He _ IH]; intros s H0.
  - exact H0.
  - cbn [run]. apply IH. cbn in He. rewrite <- He. apply step_shown. by rewrite He.
Qed.

Lemma shown_streak_is_stored_witness :
  let s := session (U := latin1Ops) (november 1) firstWin in
  Forall (λ x : Env * Event, today x.1 = today (november 1)) firstWin
  ∧ isInfiniteTab (activeTab s) = true
  ∧ currentStreak s = Int 1
  ∧ currentStreak s = readNumber (localStorage s) "infiniteCurrentStreak"
  ∧ todayBestStreak s = readNumber (localStorage s) "infiniteTodayBest_20261101"
  ∧ allTimeBestStreak s = readNumber (localStorage s) "infiniteAllTimeBest".
Proof.
  intros s.
  assert (Hd : Forall (λ x : Env * Event, today x.1 = today (november 1)) firstWin)
    by (repeat constructor).
  assert (Hi : isInfiniteTab (activeTab s) = true) by by vm_compute.
  split; [exact Hd |]. split; [exact Hi |]. split; [by vm_compute |].
  exact (shown_streak_is_stored latin1Ops (november 1) firstWin Hd Hi).
Defined.

(* ===================================================================== *)
(** * A streak record written and read back *)
(* ===================================================================== *)

Lemma append_inj_r (p x y : string) : p +:+ x = p +:+ y → x = y.
Proof. induction p as [|c p IH]; cbn; [done |]. intros [= H]. by apply IH. Qed.

(** X10 — What [saveStreakData] writes, [loadStreakData] reads
    back: a component that has the store it leaves, the same media kind
    and the same day gets the three streak signals that were saved, each
    being [NaN] or an integer below 10^21 in magnitude (larger numbers
    are written in exponent notation and do not read back). *)
Theorem streak_record_round_trip (e e' : Env) (mode : Tab) (s s' : State) :
  printsDecimal (currentStreak s) →
  printsDecimal (todayBestStreak s) →
  printsDecimal (allTimeBestStreak s) →
  today e' = today e →
  mediaMode s' = mediaMode s →
  localStorage s' = localStorage (saveStreakData e mode s) →
  currentStreak (loadStreakData e' mode s') = currentStreak s
  ∧ todayBestStreak (loadStreakData e' mode s') = todayBestStreak s
  ∧ allTimeBestStreak (loadStreakData e' mode s') = allTimeBestStreak s.
Proof.
  intros _ _ _ Hd Hm Hls.
  simpl_fields. rewrite Hls, Hd. simpl_fields.
  rewrite !(getStreakStorageKeys_mediaMode mode _ s) by (by simpl_fields).
  repeat match goal with
         | |- context [parseInt (orZero (?m !! ?k))] =>
             change (parseInt (orZero (m !! k))) with (readNumber m k)
         end.
  rewrite read_saved_current, read_saved_today, read_saved_allTime by (by eexists _, _).
  done.
Qed.

Lemma streak_record_round_trip_witness :
  let e := november 1 in
  let s := set_allTimeBestStreak (Int 9) (set_todayBestStreak (Int 4)
             (set_currentStreak (Int 3) (set_mediaMode media_tv (newComponent ∅ ∅)))) in
  let s' := set_mediaMode media_tv
              (newComponent (localStorage (saveStreakData e infinite_hard s)) ∅) in
  printsDecimal (currentStreak s)
  ∧ printsDecimal (todayBestStreak s)
  ∧ printsDecimal (allTimeBestStreak s)
  ∧ today e = today e
  ∧ mediaMode s' = mediaMode s
  ∧ localStorage s' = localStorage (saveStreakData e infinite_hard s)
  ∧ currentStreak (loadStreakData e infinite_hard s') = Int 3
  ∧ todayBestStreak (loadStreakData e infinite_hard s') = Int 4
  ∧ allTimeBestStreak (loadStreakData e infinite_hard s') = Int 9.
Proof.
  intros e s s'.
  assert (H1 : printsDecimal (currentStreak s)) by by vm_compute.
  assert (H2 : printsDecimal (todayBestStreak s)) by by vm_compute.
  assert (H3 : printsDecimal (allTimeBestStreak s)) by by vm_compute.
  split; [exact H1 |]. split; [exact H2 |]. split; [exact H3 |].
  split; [reflexivity |]. split; [reflexivity |]. split; [reflexivity |].
  exact (streak_record_round_trip e e infinite_hard s s' H1 H2 H3 eq_refl eq_refl eq_refl).
Defined.

(** X11 — [saveStreakData] touches one record only: the
    numbers the store holds for any other (infinite mode, media kind) pair
    are left as they were, and so is the best of every other day of the
    record it writes. *)
Theorem saveStreakData_touches_one_record (e : Env) (mode : Tab) (s : State)
    (mode' : Tab) (s0 : State) (day : string) :
  let keys := getStreakStorageKeys mode s in
  let keys' := getStreakStorageKeys mode' s0 in
  let saved := localStorage (saveStreakData e mode s) in
  (keys' ≠ keys →
     readNumber saved (currentKey keys') = readNumber (localStorage s) (currentKey keys')
     ∧ readNumber saved (todayKey keys' +:+ day)
       = readNumber (localStorage s) (todayKey keys' +:+ day)
     ∧ readNumber saved (allTimeKey keys') = readNumber (localStorage s) (allTimeKey keys'))
  ∧ (day ≠ getTodayKey (today e) →
       readNumber saved (todayKey keys +:+ day)
       = readNumber (localStorage s) (todayKey keys +:+ day)).
Proof.
  intros keys keys' saved. subst saved. simpl_fields. subst keys keys'. split.
  - intros Hne. revert Hne. split_keys; intros Hne; try done;
      rewrite !readNumber_insert_ne by key_neq; done.
  - intros Hne.
    assert (Hk : ∀ p, p +:+ getTodayKey (today e) ≠ p +:+ day).
    { intros p Hp. by apply append_inj_r in Hp. }
    rewrite readNumber_insert_ne by (split_keys; key_neq).
    rewrite readNumber_insert_ne by apply Hk.
    rewrite readNumber_insert_ne by (split_keys; key_neq). done.
Qed.

(* ===================================================================== *)
(** * The seen-recently memory *)
(* ===================================================================== *)

Lemma getSeenRandomKey_mediaMode s' s :
  mediaMode s' = mediaMode s → getSeenRandomKey s' = getSeenRandomKey s.
Proof. intros H. unfold getSeenRandomKey. by rewrite H. Qed.

Lemma getSeenRandomMovies_add (e e' : Env) (i : Z) (s s' : State) :
  mediaMode s' = mediaMode s →
  seenStore s' = seenStore (addSeenRandomMovie e i s) →
  getSeenRandomMovies e' s'
  = filter (λ x, now e' < expiry x) (getSeenRandomMovies e s)
    ++ (if bool_decide (now e' < now e + 172800000)
        then [{| movieId := i; expiry := now e + 172800000 |}] else []).
Proof.
  intros Hm Hs. unfold getSeenRandomMovies at 1.
  rewrite Hs, (getSeenRandomKey_mediaMode _ _ Hm). fields.
  rewrite lookup_insert_eq, filter_app. f_equal.
  rewrite filter_cons, filter_nil. cbn [expiry].
  change (2 * 24 * 60 * 60 * 1000) with 172800000.
  destruct (decide (now e' < now e + 172800000)) as [H|H].
  - by rewrite bool_decide_eq_true_2.
  - by rewrite bool_decide_eq_false_2.
Qed.

(** X12 — After [addSeenRandomMovie] at time [now e], a component
    of the same media kind that reads the list at time [now e'] gets only
    entries whose expiry is still ahead; the added entry is among them
    while [now e'] is less than 172 800 000 ms (48 hours) after the
    addition, and from then on the list is what the earlier entries alone
    would give.  A component of the other media kind reads the same list
    before and after the addition. *)
Theorem seen_item_expires_after_two_days (e e' : Env) (i : Z) (s s' : State) :
  mediaMode s' = mediaMode s →
  seenStore s' = seenStore (addSeenRandomMovie e i s) →
  Forall (λ x, now e' < expiry x) (getSeenRandomMovies e' s')
  ∧ (now e' < now e + 172800000 →
     {| movieId := i; expiry := now e + 172800000 |} ∈ getSeenRandomMovies e' s')
  ∧ (now e + 172800000 ≤ now e' →
     getSeenRandomMovies e' s'
     = filter (λ x, now e' < expiry x) (getSeenRandomMovies e s))
  ∧ ∀ s0 s1, mediaMode s0 ≠ mediaMode s → mediaMode s1 = mediaMode s0 →
      seenStore s0 = seenStore s → seenStore s1 = seenStore s' →
      getSeenRandomMovies e' s1 = getSeenRandomMovies e' s0.
Proof.
  intros Hm Hs. rewrite (getSeenRandomMovies_add e e' i s s' Hm Hs).
  split; [| split; [| split]].
  - apply Forall_app. split.
    + apply Forall_forall. intros x Hx. by apply list_elem_of_filter in Hx as [? _].
    + case_bool_decide; [| done]. apply Forall_singleton. cbn. lia.
  - intros H. rewrite bool_decide_eq_true_2 by done. apply elem_of_app. right.
    by apply list_elem_of_singleton.
  - intros H. rewrite bool_decide_eq_false_2 by lia. apply app_nil_r.
  - intros s0 s1 Hne Hm1 Hs0 Hs1. unfold getSeenRandomMovies.
    rewrite Hs1, Hs, Hs0, (getSeenRandomKey_mediaMode _ _ Hm1). fields.
    assert (Hk : getSeenRandomKey s ≠ getSeenRandomKey s0).
    { unfold getSeenRandomKey. destruct (mediaMode s), (mediaMode s0); done. }
    by rewrite lookup_insert_ne.
Qed.

Lemma seen_item_expires_after_two_days_witness :
  let e := november 1 in
  let e' := {| today := today (november 2); now := 86400000; random := λ _, 0%Q |} in
  let s := set_activeTab infinite (newComponent ∅ ∅) in
  let s' := newComponent ∅ (seenStore (addSeenRandomMovie e 27205 s)) in
  mediaMode s' = mediaMode s
  ∧ seenStore s' = seenStore (addSeenRandomMovie e 27205 s)
  ∧ Forall (λ x, now e' < expiry x) (getSeenRandomMovies e' s')
  ∧ (now e' < now e + 172800000 →
     {| movieId := 27205; expiry := now e + 172800000 |} ∈ getSeenRandomMovies e' s').
Proof.
  intros e e' s s'.
  destruct (seen_item_expires_after_two_days e e' 27205 s s' eq_refl eq_refl)
    as (H1 & H2 & _).
  split; [reflexivity |]. split; [reflexivity |]. split; [exact H1 | exact H2].
Defined.

Lemma remembered_add (store : gmap string (list SeenMovie)) (key : string)
    (x new : SeenMovie) (e : Env) (s1 : State) :
  (∃ l, store !! key = Some l ∧ x ∈ l) → seenStore s1 = store → now e < expiry x →
  ∃ l, <[getSeenRandomKey s1 := getSeenRandomMovies e s1 ++ [new]]> store !! key = Some l
       ∧ x ∈ l.
Proof.
  intros (l & Hl & Hx) Hs Ht. destruct (decide (getSeenRandomKey s1 = key)) as [E|Hne].
  - rewrite E, lookup_insert_eq. eexists. split; [done |].
    unfold getSeenRandomMovies. rewrite Hs, E, Hl.
    apply elem_of_app. left. by apply list_elem_of_filter.
  - rewrite lookup_insert_ne by done. by exists l.
Qed.

Section Memory.
Context {U : UnicodeOps}.

Lemma step_remembered (key : string) (x : SeenMovie) (e : Env) (ev : Event) (s : State) :
  ev ≠ ClearCache → now e < expiry x →
  remembered key x s → remembered key x (step e ev s).
Proof.
  intros Hev Ht Hr. unfold remembered in *.
  destruct ev; cbn [step]; try done.
  all: unfold pageLoad, ngOnInit, onTokenValidated, initializeWithToken, loadForCurrentTab,
         setMediaMode, toggleInfiniteMemory, requestTabSwitch, confirmLeaveTab, cancelLeaveTab,
         switchTab, giveUp, cancelGiveUp, confirmGiveUp, onInput, selectSuggestion,
         validateGuess, nextStep, loadNextInfiniteMovie, catalogAnswered, catalogFailed,
         onDailyMovie, onInfiniteMovie, onInfiniteError, servicePicked; 
       unfold markCurrentMovieSeen.
  all: try destruct (extractGuess _) as [gt gy].
  all: repeat case_match; simpl_fields_all; try done.
  all: apply remembered_add; [done | by simpl_fields | done].
Qed.

Lemma run_remembered (key : string) (x : SeenMovie) (trace : list (Env * Event)) (s : State) :
  Forall (λ y : Env * Event, y.2 ≠ ClearCache ∧ now y.1 < expiry x) trace →
  remembered key x s → remembered key x (run trace s).
Proof.
  intros H. revert s. induction H as [|[e ev] rest [He Ht] _ IH]; intros s Hr; [done |].
  cbn [run]. apply IH. by apply step_remembered.
Qed.

Lemma remembered_seenIds (e : Env) (x : SeenMovie) (s : State) :
  remembered (getSeenRandomKey s) x s → now e < expiry x →
  infiniteMemoryEnabled s = true → movieId x ∈ seenIds e s.
Proof.
  intros (l & Hl & Hx) Ht Hm. unfold seenIds, getSeenRandomMovies. rewrite Hm, Hl.
  apply list_elem_of_fmap. exists x. split; [done |]. by apply list_elem_of_filter.
Qed.

Lemma markCurrentMovieSeen_remembered (e : Env) (s s1 : State) (m : Movie) :
  movie s = Some m → isInfiniteTab (activeTab s) = true → infiniteMemoryEnabled s = true →
  seenStore s1 = seenStore (markCurrentMovieSeen e s) →
  remembered (getSeenRandomKey s) {| movieId := id m; expiry := now e + 172800000 |} s1.
Proof.
  intros Hmovie Htab Hmem Hs. unfold remembered. rewrite Hs.
  unfold markCurrentMovieSeen. rewrite Hmovie, Htab, Hmem. cbn [andb].
  unfold addSeenRandomMovie. fields. rewrite lookup_insert_eq. eexists. split; [done |].
  apply elem_of_app. right. by apply list_elem_of_singleton.
Qed.

(** X13 — An item resolved in an infinite tab with the
    seen-recently setting on stays among the ids handed to the catalog
    service by [loadInfiniteMovie] for the next 48 hours, whatever the
    session does in the meantime short of clearing the cache (further
    items resolved, tab and media switches, reloads), whenever the load
    runs under the media kind of the resolution with the setting on; and
    [getRandomMovie] then emits another item as soon as the page holds a
    poster item that is not excluded. *)
Theorem resolved_item_is_not_served_again (e e' : Env) (s s1 : State) (m : Movie)
    (trace : list (Env * Event))
    (popularPage : Z → option (list MovieService.Result))
    (languageFilter : MovieService.LanguageFilter)
    (results : list MovieService.Result) (q : MovieService.Result) :
  movie s = Some m →
  isInfiniteTab (activeTab s) = true →
  infiniteMemoryEnabled s = true →
  seenStore s1 = seenStore (markCurrentMovieSeen e s) →
  Forall (λ y : Env * Event, y.2 ≠ ClearCache ∧ now y.1 < now e + 172800000) trace →
  let s' := run trace s1 in
  mediaMode s' = mediaMode s →
  infiniteMemoryEnabled s' = true →
  now e' < now e + 172800000 →
  unitDraws (random e') →
  popularPage (MovieService.randomPage (random e')) = Some results →
  q ∈ results → MovieService.hasPoster q = true →
  id (MovieService.movieOf q) ∉ seenIds e' s' →
  id m ∈ seenIds e' s'
  ∧ ∃ p, MovieService.getRandomMovie (random e') popularPage (seenIds e' s') languageFilter
         = Some (Some p)
         ∧ id (MovieService.movieOf p) ≠ id m.
Proof.
  intros Hmovie Htab Hmem Hs Htrace s' Hm Hmem' Hnow Hr Hp Hq Hposter Hunseen.
  assert (Hin : id m ∈ seenIds e' s').
  { apply (remembered_seenIds e' {| movieId := id m; expiry := now e + 172800000 |} s');
      [| done | done].
    rewrite (getSeenRandomKey_mediaMode _ _ Hm).
    apply run_remembered; [done |]. by apply markCurrentMovieSeen_remembered. }
  split; [exact Hin |].
  destruct (getRandomMovie_emits (random e') popularPage (seenIds e' s') languageFilter
              results Hr Hp (candidates_nonempty _ _ q Hq Hposter)) as (p & He & Hc).
  exists p. split; [done |].
  pose proof (candidates_unseen results (seenIds e' s') p q Hq Hposter Hunseen Hc) as Hx.
  intros E. apply Hx. by rewrite E.
Qed.

End Memory.

Lemma resolved_item_is_not_served_again_witness :
  let e := november 1 in
  let s := set_movie (Some (inceptionWithId 1)) (set_activeTab infinite (newComponent ∅ ∅)) in
  let s1 := markCurrentMovieSeen e s in
  let trace := [(e, LoadNextInfiniteMovie); (e, CatalogAnswered 0 (inceptionWithId 3) false);
                (e, ConfirmGiveUp); (e, Reload)] in
  let s' := run (U := latin1Ops) trace s1 in
  let page := λ _ : Z, Some samplePage in
  movie s = Some (inceptionWithId 1)
  ∧ isInfiniteTab (activeTab s) = true
  ∧ infiniteMemoryEnabled s = true
  ∧ Forall (λ y : Env * Event, y.2 ≠ ClearCache ∧ now y.1 < now e + 172800000) trace
  ∧ mediaMode s' = mediaMode s
  ∧ infiniteMemoryEnabled s' = true
  ∧ now e < now e + 172800000
  ∧ unitDraws (random e)
  ∧ posterItem 2 "en" ∈ samplePage
  ∧ seenIds e s' = [1; 3]
  ∧ (id (MovieService.movieOf (posterItem 2 "en")) ∉ seenIds e s')
  ∧ id (inceptionWithId 1) ∈ seenIds e s'
  ∧ ∃ p, MovieService.getRandomMovie (random e) page (seenIds e s') MovieService.all
         = Some (Some p)
         ∧ id (MovieService.movieOf p) ≠ id (inceptionWithId 1).
Proof.
  intros e s s1 trace s' page.
  assert (H1 : movie s = Some (inceptionWithId 1)) by reflexivity.
  assert (H2 : isInfiniteTab (activeTab s) = true) by reflexivity.
  assert (H3 : infiniteMemoryEnabled s = true) by reflexivity.
  assert (Ht : Forall (λ y : Env * Event, y.2 ≠ ClearCache ∧ now y.1 < now e + 172800000)
                 trace).
  { repeat constructor; try done; cbn; lia. }
  assert (Hm : mediaMode s' = mediaMode s) by by vm_compute.
  assert (Hm' : infiniteMemoryEnabled s' = true) by by vm_compute.
  assert (H4 : now e < now e + 172800000) by (cbn; lia).
  assert (H5 : unitDraws (random e)) by (intros k; split; by compute).
  assert (H6 : posterItem 2 "en" ∈ samplePage).
  { unfold samplePage. apply elem_of_cons. right. apply elem_of_cons. by left. }
  assert (Hids : seenIds e s' = [1; 3]) by by vm_compute.
  assert (H7 : id (MovieService.movieOf (posterItem 2 "en")) ∉ seenIds e s').
  { rewrite Hids. cbn. apply not_elem_of_cons. split; [done |].
    apply not_elem_of_cons. split; [done | apply not_elem_of_nil]. }
  split; [exact H1 |]. split; [exact H2 |]. split; [exact H3 |]. split; [exact Ht |].
  split; [exact Hm |]. split; [exact Hm' |]. split; [exact H4 |].
  split; [exact H5 |]. split; [exact H6 |]. split; [exact Hids |]. split; [exact H7 |].
  exact (resolved_item_is_not_served_again (U := latin1Ops) e e s s1 (inceptionWithId 1)
           trace page MovieService.all samplePage (posterItem 2 "en")
           H1 H2 H3 eq_refl Ht Hm Hm' H4 H5 eq_refl H6 eq_refl H7).
Defined.

(* ===================================================================== *)
(** * A decided daily puzzle is not played again *)
(* ===================================================================== *)

Section Replay.
Context {U : UnicodeOps}.

Lemma switchTab_daily_opened (e : Env) (tab : Tab) (force : bool) (s : State) :
  isDailyTab tab = true →
  activeTab s ≠ tab ∨ force = true →
  let day := getTodayKey (today e) in
  let dailyWon :=
    bool_decide (localStorage s !! (getDailyStoragePrefix tab win s +:+ day) = Some "true") in
  let dailyLost :=
    bool_decide (localStorage s !! (getDailyStoragePrefix tab loss s +:+ day) = Some "true") in
  let opened := switchTab e tab force s in
  gameStatus opened = (if dailyWon then won else if dailyLost then lost else loading)
  ∧ dailyCompleted opened = dailyWon
  ∧ inflight opened = inflight s ++ [dailyRequest e true tab s]
  ∧ localStorage opened = localStorage s
  ∧ activeTab opened = tab
  ∧ mediaMode opened = mediaMode s.
Proof.
  intros Htab Hopen day dailyWon dailyLost opened.
  assert (Hinf : isInfiniteTab tab = false) by (by destruct tab).
  assert (Hsw : negb force && bool_decide (activeTab s = tab) = false).
  { destruct Hopen as [H| ->]; [| done]. rewrite (bool_decide_eq_false_2 _ H). by destruct force. }
  subst opened. unfold switchTab. rewrite Hsw, Hinf. cbv zeta.
  remember (set_stripEffects [] _) as s1 eqn:Es1.
  assert (Hm : mediaMode s1 = mediaMode s)
    by (rewrite Es1; destruct (bool_decide (activeTab s ≠ tab)); reflexivity).
  assert (Hl : localStorage s1 = localStorage s)
    by (rewrite Es1; destruct (bool_decide (activeTab s ≠ tab)); reflexivity).
  assert (Hg : gameStatus s1 = loading) by (by rewrite Es1).
  assert (Hfl : inflight s1 = inflight s)
    by (rewrite Es1; destruct (bool_decide (activeTab s ≠ tab)); reflexivity).
  assert (Hat : activeTab s1 = tab).
  { rewrite Es1. by case_bool_decide as E; simpl_fields. }
  clear Es1. unfold syncDailyOutcome, dailyRequest, getItem. cbv zeta.
  rewrite !(getDailyStoragePrefix_mediaMode tab _ s s1 Hm), Hl. fold day.
  fold dailyWon dailyLost.
  destruct dailyWon; [| destruct dailyLost]; simpl_fields; rewrite ?Hl, ?Hfl, ?Hm, ?Hg, ?Hat;
    by repeat split.
Qed.

Lemma catalog_step_decided (e : Env) (ev : Event) (s : State) :
  isCatalogEvent ev = true →
  Forall (λ r, isDailyRequest r = true) (inflight s) →
  decidedDay s →
  decidedDay (step e ev s)
  ∧ Forall (λ r, isDailyRequest r = true) (inflight (step e ev s))
  ∧ activeTab (step e ev s) = activeTab s
  ∧ dailyCompleted (step e ev s) = dailyCompleted s
  ∧ gameStatus (step e ev s) = gameStatus s
  ∧ ∀ tab type s0 day,
      localStorage (step e ev s) !! (getDailyStoragePrefix tab type s0 +:+ day)
      = localStorage s !! (getDailyStoragePrefix tab type s0 +:+ day).
Proof.
  intros Hev Hfl Hd. destruct ev; try discriminate Hev; cbn [step].
  - unfold catalogAnswered. destruct (inflight s !! k) as [r|] eqn:Ek; [| done].
    pose proof (Forall_lookup_1 _ _ _ _ Hfl Ek) as Hr.
    destruct r as [fromSwitch tab isTv todayKey|]; [| discriminate Hr]. cbv zeta.
    assert (Hfl' : Forall (λ r, isDailyRequest r = true) (delete k (inflight s)))
      by (by apply Forall_delete).
    unfold onDailyMovie, servicePicked, decidedDay in *.
    destruct Hd as [[Hc Hg]|[Hc Hg]];
      repeat case_match; simpl_fields_all; rewrite ?Hc, ?Hg in *; simplify_eq;
      repeat split; try done; try (by left); try (by right);
      intros; rewrite ?lookup_insert_ne by apply notDailyFlagKey_service; done.
  - unfold catalogFailed. destruct (inflight s !! k) as [r|] eqn:Ek; [| done].
    pose proof (Forall_lookup_1 _ _ _ _ Hfl Ek) as Hr.
    destruct r as [fromSwitch tab isTv todayKey|]; [| discriminate Hr]. cbv zeta.
    simpl_fields_all. repeat split; try done. by apply Forall_delete.
Qed.

Lemma catalog_run_decided (trace : list (Env * Event)) (s : State) :
  Forall (λ y : Env * Event, isCatalogEvent y.2 = true) trace →
  Forall (λ r, isDailyRequest r = true) (inflight s) →
  decidedDay s →
  activeTab (run trace s) = activeTab s
  ∧ dailyCompleted (run trace s) = dailyCompleted s
  ∧ gameStatus (run trace s) = gameStatus s
  ∧ ∀ tab type s0 day,
      localStorage (run trace s) !! (getDailyStoragePrefix tab type s0 +:+ day)
      = localStorage s !! (getDailyStoragePrefix tab type s0 +:+ day).
Proof.
  intros H. revert s. induction H as [|[e ev] rest Hev _ IH]; intros s Hfl Hd; [done |].
  cbn [run]. destruct (catalog_step_decided e ev s Hev Hfl Hd) as (Hd' & Hfl' & Ha & Hc & Hg & Hl).
  destruct (IH _ Hfl' Hd') as (Ha' & Hc' & Hg' & Hl').
  rewrite Ha', Hc', Hg'. repeat split; try done.
  intros. by rewrite Hl', Hl.
Qed.

(** X14 — Opening a daily tab (by a tab switch, or by the forced
    switch of a media change) shows the outcome stored for the tab, the
    media kind and the day: won when the win flag is set, else lost when
    the loss flag is set, else the puzzle is loading; one request is
    issued.  When no request of an infinite tab is in flight at that
    moment, a decided day stays won or lost whatever the catalog then
    answers to the requests in flight, in whatever order, failures
    included: the tab, the status and the daily flags of the store stay
    as they are and submitting a guess changes nothing.  An undecided day
    starts playing when the answer to the request just issued is the next
    thing to arrive. *)
Theorem decided_day_is_not_replayed (e e' e'' : Env) (tab : Tab) (force : bool)
    (m : Movie) (picked : bool) (trace : list (Env * Event)) (s : State) :
  isDailyTab tab = true →
  activeTab s ≠ tab ∨ force = true →
  Forall (λ r, isDailyRequest r = true) (inflight s) →
  Forall (λ y : Env * Event, isCatalogEvent y.2 = true) trace →
  let day := getTodayKey (today e) in
  let dailyWon :=
    bool_decide (localStorage s !! (getDailyStoragePrefix tab win s +:+ day) = Some "true") in
  let dailyLost :=
    bool_decide (localStorage s !! (getDailyStoragePrefix tab loss s +:+ day) = Some "true") in
  let opened := switchTab e tab force s in
  let answered := run trace opened in
  gameStatus opened = (if dailyWon then won else if dailyLost then lost else loading)
  ∧ inflight opened = inflight s ++ [dailyRequest e true tab s]
  ∧ (dailyWon || dailyLost = true →
       gameStatus answered = (if dailyWon then won else lost)
       ∧ activeTab answered = tab
       ∧ dailyCompleted answered = dailyWon
       ∧ (∀ tab' type s0 day',
            localStorage answered !! (getDailyStoragePrefix tab' type s0 +:+ day')
            = localStorage s !! (getDailyStoragePrefix tab' type s0 +:+ day'))
       ∧ validateGuess e'' answered = answered)
  ∧ (dailyWon || dailyLost = false →
       gameStatus (catalogAnswered e' (length (inflight s)) m picked opened) = playing).
Proof.
  intros Htab Hopen Hfl Htrace day dailyWon dailyLost opened answered.
  destruct (switchTab_daily_opened e tab force s Htab Hopen)
    as (Hg & Hc & Hin & Hl & Ha & Hm).
  fold day dailyWon dailyLost opened in Hg, Hc, Hin, Hl, Ha, Hm.
  split; [exact Hg |]. split; [exact Hin |]. split.
  - intros Hdec.
    assert (Hd : decidedDay opened).
    { unfold decidedDay. rewrite Hg, Hc. destruct dailyWon; [by left |].
      destruct dailyLost; [by right | done]. }
    assert (Hfl' : Forall (λ r, isDailyRequest r = true) (inflight opened)).
    { rewrite Hin. apply Forall_app. split; [done |]. by repeat constructor. }
    destruct (catalog_run_decided trace opened Htrace Hfl' Hd) as (Ha' & Hc' & Hg' & Hl').
    fold answered in Ha', Hc', Hg', Hl'.
    assert (Hst : gameStatus answered = (if dailyWon then won else lost)).
    { rewrite Hg', Hg. destruct dailyWon; [done |]. by destruct dailyLost. }
    split; [exact Hst |]. split; [by rewrite Ha' |]. split; [by rewrite Hc' |].
    split; [intros; by rewrite Hl', Hl |].
    unfold validateGuess. rewrite Hst. by destruct dailyWon.
  - intros Hund. apply orb_false_elim in Hund as [Hw Hlo]. rewrite Hw, Hlo in *.
    unfold catalogAnswered. rewrite Hin, lookup_app_r by done.
    rewrite Nat.sub_diag. cbn [lookup list_lookup dailyRequest]. cbv zeta.
    unfold onDailyMovie, servicePicked.
    repeat case_match; simpl_fields_all; rewrite ?Hc, ?Hg in *; simplify_eq; done.
Qed.

End Replay.

Lemma decided_day_is_not_replayed_witness :
  let e := november 1 in
  let s := requestTabSwitch e hard (session (U := latin1Ops) e (skips 5)) in
  let trace := [(e, CatalogAnswered 0 (inceptionWithId 7) true); (e, CatalogFailed 3);
                (e, CatalogAnswered 0 inception false)] in
  let answered := run (U := latin1Ops) trace (switchTab e daily false s) in
  isDailyTab daily = true
  ∧ (activeTab s ≠ daily ∨ false = true)
  ∧ Forall (λ r, isDailyRequest r = true) (inflight s)
  ∧ Forall (λ y : Env * Event, isCatalogEvent y.2 = true) trace
  ∧ length (inflight s) = 1%nat
  ∧ localStorage s !! "dailyGameLost_movie_20261101" = Some "true"
  ∧ gameStatus answered = lost
  ∧ inflight answered = []
  ∧ validateGuess (U := latin1Ops) e answered = answered.
Proof.
  intros e s trace answered.
  assert (H1 : isDailyTab daily = true) by reflexivity.
  assert (H2 : activeTab s ≠ daily ∨ false = true) by (left; by vm_compute).
  assert (H3 : Forall (λ r, isDailyRequest r = true) (inflight s)).
  { assert (E : inflight s = [DailyRequest true hard false "20261101"]) by by vm_compute.
    rewrite E. by repeat constructor. }
  assert (H4 : Forall (λ y : Env * Event, isCatalogEvent y.2 = true) trace)
    by (by repeat constructor).
  destruct (decided_day_is_not_replayed (U := latin1Ops) e e e daily false inception false
              trace s H1 H2 H3 H4) as (_ & _ & H5 & _).
  assert (Hlost : localStorage s !! "dailyGameLost_movie_20261101" = Some "true")
    by by vm_compute.
  assert (Hdec : bool_decide (localStorage s !! (getDailyStoragePrefix daily win s
                                                  +:+ getTodayKey (today e)) = Some "true")
                 || bool_decide (localStorage s !! (getDailyStoragePrefix daily loss s
                                                     +:+ getTodayKey (today e)) = Some "true")
                 = true) by by vm_compute.
  destruct (H5 Hdec) as (H6 & _ & _ & _ & H7).
  split; [exact H1 |]. split; [exact H2 |]. split; [exact H3 |]. split; [exact H4 |].
  split; [by vm_compute |]. split; [exact Hlost |].
  split; [subst answered; rewrite H6; by vm_compute |]. split; [by vm_compute | exact H7].
Defined.

(** The proviso on the requests in flight is needed: the callback of
    [loadInfiniteMovie] sets the status to playing whatever the active
    tab.  A day lost on the daily tab, a visit to the infinite tab left
    before its request is answered, and the late answer puts the lost day
    back in play; the guess that follows is evaluated and its win
    replaces the loss flag. *)
Example stale_infinite_answer_reopens_the_day :
  let e := november 1 in
  let s := session (U := latin1Ops) e
             (skips 5 ++ [(e, RequestTabSwitch infinite); (e, RequestTabSwitch daily);
                          (e, ConfirmLeaveTab)]) in
  let late := step (U := latin1Ops) e (CatalogAnswered 0 inception false) s in
  let guessed := run (U := latin1Ops) [(e, OnInput (js "inception")); (e, ValidateGuess)] late in
  activeTab s = daily ∧ gameStatus s = lost
  ∧ inflight s = [InfiniteRequest; DailyRequest true daily false "20261101"]
  ∧ localStorage s !! "dailyGameLost_movie_20261101" = Some "true"
  ∧ activeTab late = daily ∧ gameStatus late = playing
  ∧ gameStatus guessed = won
  ∧ localStorage guessed !! "dailyGameWon_movie_20261101" = Some "true"
  ∧ localStorage guessed !! "dailyGameLost_movie_20261101" = None.
Proof. vm_compute. repeat split; reflexivity. Qed.

(** X15 — A page load over a store that holds a token opens the
    daily tab with the media kind of the store and issues one daily
    request; the status is the outcome stored for that tab, media kind and
    day (won, else lost, else loading), and when the catalog answers a
    decided day stays decided and a submitted guess changes nothing:
    reloading the page does not give a decided daily puzzle back. *)
Theorem reload_keeps_the_decided_day (U : UnicodeOps) (e e' e'' : Env) (ls : gmap string string)
    (seen : gmap string (list SeenMovie)) (m : Movie) (picked : bool) (c : ascii)
    (r : string) :
  ls !! LS_TMDB_TOKEN = Some (String c r) →
  let loaded := pageLoad e ls seen in
  let day := getTodayKey (today e) in
  let dailyWon :=
    bool_decide (ls !! (getDailyStoragePrefix daily win loaded +:+ day) = Some "true") in
  let dailyLost :=
    bool_decide (ls !! (getDailyStoragePrefix daily loss loaded +:+ day) = Some "true") in
  let answered := catalogAnswered e' 0 m picked loaded in
  activeTab loaded = daily
  ∧ mediaMode loaded = savedMediaMode ls
  ∧ inflight loaded = [dailyRequest e false daily loaded]
  ∧ gameStatus loaded = (if dailyWon then won else if dailyLost then lost else loading)
  ∧ gameStatus answered = (if dailyWon then won else if dailyLost then lost else playing)
  ∧ (dailyWon || dailyLost = true → validateGuess e'' answered = answered).
Proof.
  intros Htok loaded day dailyWon dailyLost answered.
  set (s0 := loadStreakData e infinite
               (set_infiniteMemoryEnabled (savedInfiniteMemory ls)
                  (set_mediaMode (savedMediaMode ls) (newComponent ls seen)))).
  assert (Hl : loaded = initializeWithToken e s0).
  { subst loaded s0. unfold pageLoad, ngOnInit, savedMediaMode, savedInfiniteMemory.
    simpl_fields.
    destruct (bool_decide (ls !! LS_MEDIA_MODE = Some "tv")); simpl_fields; by rewrite Htok. }
  assert (H0 : mediaMode s0 = savedMediaMode ls ∧ localStorage s0 = ls
               ∧ activeTab s0 = daily ∧ initialized s0 = false ∧ inflight s0 = []
               ∧ gameStatus s0 = loading ∧ dailyCompleted s0 = false).
  { subst s0. by simpl_fields. }
  destruct H0 as (Hm0 & Hl0 & Ht0 & Hi0 & Hf0 & Hg0 & Hc0).
  clearbody s0.
  assert (Hml : mediaMode loaded = mediaMode s0).
  { rewrite Hl. unfold initializeWithToken, loadForCurrentTab. rewrite Hi0.
    do 3 (simpl_fields; rewrite ?Ht0; cbn [isDailyTab isInfiniteTab]). done. }
  subst dailyWon dailyLost.
  rewrite !(getDailyStoragePrefix_mediaMode daily _ s0 loaded Hml).
  subst answered. unfold dailyRequest. rewrite Hml. clear Hml. rewrite Hl. clear Hl loaded.
  unfold initializeWithToken, loadForCurrentTab. rewrite Hi0.
  do 3 (simpl_fields; rewrite ?Ht0; cbn [isDailyTab isInfiniteTab]).
  unfold syncDailyOutcome, getItem, dailyRequest. cbv zeta. simpl_fields.
  rewrite !(getDailyStoragePrefix_mediaMode daily _ s0 (set_initialized true s0) eq_refl).
  rewrite Hl0. fold day.
  destruct (bool_decide (ls !! (getDailyStoragePrefix daily win s0 +:+ day) = Some "true"));
    [| destruct (bool_decide (ls !! (getDailyStoragePrefix daily loss s0 +:+ day)
                              = Some "true"))];
    simpl_fields; rewrite ?Ht0, ?Hm0, ?Hf0, ?Hg0; cbn [app];
    unfold catalogAnswered; simpl_fields; rewrite ?Hf0; cbn [app lookup list_lookup];
    unfold onDailyMovie, servicePicked; cbn [andb];
    destruct (picked && negb (bool_decide (id m = 0))); simpl_fields;
    rewrite ?Hc0, ?Hg0; simpl_fields;
    repeat split; try done;
    intros _; unfold validateGuess; by simpl_fields.
Qed.

Lemma reload_keeps_the_decided_day_witness :
  let e := november 1 in
  let ls := localStorage (session (U := latin1Ops) e (skips 5)) in
  let answered := catalogAnswered e 0 inception false (pageLoad e ls ∅) in
  ls !! LS_TMDB_TOKEN = Some "token"
  ∧ ls !! "dailyGameLost_movie_20261101" = Some "true"
  ∧ gameStatus (pageLoad e ls ∅) = lost
  ∧ gameStatus answered = lost
  ∧ validateGuess (U := latin1Ops) e answered = answered.
Proof.
  intros e ls answered.
  assert (H1 : ls !! LS_TMDB_TOKEN = Some "token") by by vm_compute.
  destruct (reload_keeps_the_decided_day latin1Ops e e e ls ∅ inception false _ _ H1)
    as (_ & _ & _ & H4 & H5 & H6).
  split; [exact H1 |]. split; [by vm_compute |]. split; [| split].
  - rewrite H4. by vm_compute.
  - subst answered. rewrite H5. by vm_compute.
  - apply H6. by vm_compute.
Defined.

(* ===================================================================== *)
(** * Day keys *)
(* ===================================================================== *)

Lemma forallb_seqZ (P : Z → bool) (lo n : Z) :
  forallb P (seqZ lo n) = true → ∀ z, lo ≤ z < lo + n → P z = true.
Proof.
  intros H z Hz. rewrite forallb_forall in H. apply H.
  apply list_elem_of_In, elem_of_seqZ. lia.
Qed.

Lemma fourDigits_years y : 1000 ≤ y ≤ 9999 → fourDigits y = true.
Proof.
  intros H. apply (forallb_seqZ fourDigits 1000 9000); [by vm_compute | lia].
Qed.

Lemma twoDigits_range n : 0 ≤ n ≤ 99 → twoDigits n = true.
Proof.
  intros H. apply (forallb_seqZ twoDigits 0 100); [by vm_compute | lia].
Qed.

Lemma fourDigits_inv y :
  1000 ≤ y ≤ 9999 →
  ∃ a b c d, toString (Int y) = String a (String b (String c (String d EmptyString)))
             ∧ String c (String d EmptyString) = padStart2 (toString (Int (y mod 100))).
Proof.
  intros H. pose proof (fourDigits_years y H) as Hf. unfold fourDigits in Hf.
  destruct (toString (Int y)) as [|a [|b [|c [|d [|]]]]]; try done.
  exists a, b, c, d. split; [done |]. by apply String.eqb_eq.
Qed.

Lemma twoDigits_inv n :
  0 ≤ n ≤ 99 →
  ∃ a b, padStart2 (toString (Int n)) = String a (String b EmptyString)
         ∧ parseInt (String a (String b EmptyString)) = Int n.
Proof.
  intros H. pose proof (twoDigits_range n H) as Hf. unfold twoDigits in Hf.
  destruct (padStart2 (toString (Int n))) as [|a [|b [|]]] eqn:E; try done.
  exists a, b. split; [done |].
  destruct (parseInt _) as [z|]; [| done]. f_equal. lia.
Qed.

(** X16 — For dates of the calendar with a four-digit year, the
    day key has eight characters and two dates with the same key are the
    same date: what is stored under the key of one day is never read on
    another. *)
Theorem getTodayKey_injective (d1 d2 : Date) :
  calendarDate d1 → calendarDate d2 →
  String.length (getTodayKey d1) = 8%nat
  ∧ (getTodayKey d1 = getTodayKey d2 → d1 = d2).
Proof.
  intros (Hy1 & Hm1 & Hd1) (Hy2 & Hm2 & Hd2). unfold getTodayKey.
  destruct (fourDigits_inv _ Hy1) as (a1 & b1 & c1 & e1 & Ey1 & _).
  destruct (fourDigits_inv _ Hy2) as (a2 & b2 & c2 & e2 & Ey2 & _).
  destruct (twoDigits_inv (getMonth d1 + 1) ltac:(lia)) as (m1 & n1 & Em1 & Pm1).
  destruct (twoDigits_inv (getMonth d2 + 1) ltac:(lia)) as (m2 & n2 & Em2 & Pm2).
  destruct (twoDigits_inv (getDate d1) ltac:(lia)) as (p1 & q1 & Ed1 & Pd1).
  destruct (twoDigits_inv (getDate d2) ltac:(lia)) as (p2 & q2 & Ed2 & Pd2).
  rewrite Em1, Em2, Ed1, Ed2.
  assert (Hy : toString (Int (getFullYear d1)) = toString (Int (getFullYear d2)) →
               getFullYear d1 = getFullYear d2).
  { intros E. apply (f_equal parseInt) in E. rewrite !parseInt_toString in E. congruence. }
  revert Hy. rewrite Ey1, Ey2. intros Hy. cbn. split; [done |].
  intros [= -> -> -> -> -> -> -> ->].
  specialize (Hy eq_refl). rewrite Pm1 in Pm2. rewrite Pd1 in Pd2.
  destruct d1, d2; cbn in *. f_equal; [done | | ]; congruence || (injection Pm2; lia).
Qed.

(** X17 — For such a date, [formatDateForDisplay] turns the day
    key into day, month and the last two digits of the year, each padded
    to two digits and separated by slashes. *)
Theorem formatDateForDisplay_getTodayKey (d : Date) :
  calendarDate d →
  formatDateForDisplay (getTodayKey d)
  = padStart2 (toString (Int (getDate d))) +:+ "/"
    +:+ padStart2 (toString (Int (getMonth d + 1))) +:+ "/"
    +:+ padStart2 (toString (Int (getFullYear d mod 100))).
Proof.
  intros (Hy & Hm & Hd). unfold getTodayKey.
  destruct (fourDigits_inv _ Hy) as (a & b & c & e & Ey & Eyy).
  destruct (twoDigits_inv (getMonth d + 1) ltac:(lia)) as (m & n & Em & _).
  destruct (twoDigits_inv (getDate d) ltac:(lia)) as (p & q & Ed & _).
  rewrite <- Eyy, Ey, Em, Ed. reflexivity.
Qed.

Lemma getTodayKey_injective_witness :
  let d1 := {| getFullYear := 2026; getMonth := 10; getDate := 1 |} in
  let d2 := {| getFullYear := 2026; getMonth := 0; getDate := 11 |} in
  calendarDate d1 ∧ calendarDate d2
  ∧ String.length (getTodayKey d1) = 8%nat
  ∧ (getTodayKey d1 = getTodayKey d2 → d1 = d2).
Proof.
  intros d1 d2.
  assert (H1 : calendarDate d1) by (unfold calendarDate; cbn; lia).
  assert (H2 : calendarDate d2) by (unfold calendarDate; cbn; lia).
  split; [exact H1 |]. split; [exact H2 |].
  exact (getTodayKey_injective d1 d2 H1 H2).
Defined.

Lemma formatDateForDisplay_getTodayKey_witness :
  let d := {| getFullYear := 2026; getMonth := 2; getDate := 7 |} in
  calendarDate d
  ∧ formatDateForDisplay (getTodayKey d) = "07/03/26".
Proof.
  intros d.
  assert (H : calendarDate d) by (unfold calendarDate; cbn; lia).
  split; [exact H |].
  exact (formatDateForDisplay_getTodayKey d H).
Defined.

(* ===================================================================== *)
(** * Attempts *)
(* ===================================================================== *)

(** X18 — In every state a session reaches, [remainingAttempts]
    is five minus the step index and lies between 1 and 5: the guard
    against a negative value never applies, and the count shown is never
    0, not even once the puzzle is lost. *)
Theorem remainingAttempts_never_zero (U : UnicodeOps) (e0 : Env)
    (trace : list (Env * Event)) :
  let s := session e0 trace in
  remainingAttempts s = 5 - currentStepIndex s ∧ 1 ≤ remainingAttempts s ≤ 5.
Proof.
  intros s.
  assert (Hi : stepIndexOk s) by apply run_stepIndexOk, pageLoad_stepIndexOk.
  unfold stepIndexOk in Hi. unfold remainingAttempts. cbn [length progressionSteps] in *. lia.
Qed.

Section AttemptFacts.
Context {U : UnicodeOps}.

Lemma nextStep_advance e s :
  0 ≤ currentStepIndex s →
  movie (nextStep e s) = movie s
  ∧ wrongGuesses (nextStep e s) = wrongGuesses s
  ∧ (currentStepIndex s < 4 →
       gameStatus (nextStep e s) = gameStatus s
       ∧ currentStepIndex (nextStep e s) = currentStepIndex s + 1)
  ∧ (4 ≤ currentStepIndex s →
       gameStatus (nextStep e s) = lost
       ∧ currentStepIndex (nextStep e s) = currentStepIndex s).
Proof.
  intros H. unfold nextStep. cbn [length progressionSteps].
  repeat case_match; simpl_fields; repeat split; intros; try done; try lia.
Qed.

Lemma submitGuess_failed target r s :
  gameStatus s = playing → movie s = target → 0 ≤ currentStepIndex s →
  failedGuess target r →
  movie (submitGuess r s) = movie s
  ∧ length (wrongGuesses (submitGuess r s)) = S (length (wrongGuesses s))
  ∧ (currentStepIndex s < 4 →
       gameStatus (submitGuess r s) = playing
       ∧ currentStepIndex (submitGuess r s) = currentStepIndex s + 1)
  ∧ (4 ≤ currentStepIndex s →
       gameStatus (submitGuess r s) = lost
       ∧ currentStepIndex (submitGuess r s) = currentStepIndex s).
Proof.
  destruct r as [e g]. intros Hst Hm Hi Hf. unfold submitGuess, validateGuess. cbn [fst snd].
  unfold failedGuess in Hf. cbn [fst snd] in Hf.
  simpl_fields. rewrite Hst. rewrite bool_decide_eq_false_2 by naive_solver.
  destruct (truthy (trim g)) eqn:Hg; cbn [negb].
  - destruct Hf as [Hf | Hf]; [congruence |]. rewrite Hm, Hf.
    destruct (extractGuess g) as [gt gy]. cbv zeta.
    match goal with
    | |- context [nextStep e ?s1] =>
        destruct (nextStep_advance e s1) as (H1 & H2 & H3 & H4); [by simpl_fields |]
    end.
    simpl_fields_all. rewrite H1, H2. rewrite length_app. cbn [length].
    split; [done |]. split; [lia |]. rewrite Hst in *. split; intros; [apply H3 | apply H4]; done.
  - match goal with
    | |- context [nextStep e ?s1] =>
        destruct (nextStep_advance e s1) as (H1 & H2 & H3 & H4); [by simpl_fields |]
    end.
    simpl_fields_all. rewrite H1, H2. rewrite length_app. cbn [length].
    split; [done |]. split; [lia |]. rewrite Hst in *. split; intros; [apply H3 | apply H4]; done.
Qed.

Lemma submitGuess_over r s :
  gameStatus s ≠ playing →
  gameStatus (submitGuess r s) = gameStatus s
  ∧ currentStepIndex (submitGuess r s) = currentStepIndex s
  ∧ wrongGuesses (submitGuess r s) = wrongGuesses s
  ∧ movie (submitGuess r s) = movie s.
Proof.
  intros H. unfold submitGuess, validateGuess. simpl_fields.
  by rewrite bool_decide_eq_true_2.
Qed.

Lemma submitGuesses_over rounds s :
  gameStatus s ≠ playing →
  gameStatus (submitGuesses rounds s) = gameStatus s
  ∧ currentStepIndex (submitGuesses rounds s) = currentStepIndex s
  ∧ wrongGuesses (submitGuesses rounds s) = wrongGuesses s.
Proof.
  revert s. induction rounds as [|r rounds IH]; intros s H; [done |].
  cbn [submitGuesses foldl]. fold (submitGuesses rounds (submitGuess r s)).
  destruct (submitGuess_over r s H) as (H1 & H2 & H3 & _).
  destruct (IH (submitGuess r s)) as (H4 & H5 & H6); [by rewrite H1 |].
  by rewrite H4, H5, H6, H1, H2, H3.
Qed.

Lemma submitGuesses_failed rounds s :
  gameStatus s = playing → 0 ≤ currentStepIndex s ≤ 4 →
  Forall (failedGuess (movie s)) rounds →
  let k := Z.of_nat (length rounds) in
  let i := currentStepIndex s in
  gameStatus (submitGuesses rounds s) = (if i + k <? 5 then playing else lost)
  ∧ currentStepIndex (submitGuesses rounds s) = Z.min (i + k) 4
  ∧ Z.of_nat (length (wrongGuesses (submitGuesses rounds s)))
    = Z.of_nat (length (wrongGuesses s)) + Z.min k (5 - i).
Proof.
  intros Hst Hi Hf. revert s Hst Hi Hf.
  induction rounds as [|r rounds IH]; intros s Hst Hi Hf k i; subst k i.
  { cbn. rewrite Hst. replace (currentStepIndex s + 0) with (currentStepIndex s) by lia.
    rewrite (proj2 (Z.ltb_lt _ 5)) by lia. repeat split; lia. }
  inversion Hf as [|? ? Hr Hrest]; subst.
  cbn [submitGuesses foldl]. fold (submitGuesses rounds (submitGuess r s)).
  destruct (submitGuess_failed (movie s) r s Hst eq_refl ltac:(lia) Hr)
    as (Hm & Hw & Hlt & Hge).
  destruct (decide (currentStepIndex s < 4)) as [Hc|Hc].
  - destruct (Hlt Hc) as [Hs1 Hi1].
    destruct (IH (submitGuess r s) Hs1 ltac:(lia) ltac:(by rewrite Hm)) as (H1 & H2 & H3).
    rewrite H1, H2, H3, Hi1, Hw. cbn [length].
    replace (currentStepIndex s + 1 + Z.of_nat (length rounds))
      with (currentStepIndex s + Z.of_nat (S (length rounds))) by lia.
    repeat split; lia.
  - destruct (Hge ltac:(lia)) as [Hs1 Hi1].
    destruct (submitGuesses_over rounds (submitGuess r s)) as (H1 & H2 & H3);
      [by rewrite Hs1 |].
    rewrite H1, H2, H3, Hs1, Hi1, Hw. cbn [length].
    rewrite (proj2 (Z.ltb_ge _ 5)) by lia. repeat split; lia.
Qed.

End AttemptFacts.

(** X19 — From a puzzle in play at its first step, after k failed
    submissions (skips or incorrect guesses, typed without a suggestion)
    the puzzle is still in play if k < 5 and lost otherwise; the step index
    is min(k, 4); and the list of wrong guesses has grown by min(k, 5): the
    fifth failure loses, and submissions after it change nothing. *)
Theorem five_failed_attempts_lose (U : UnicodeOps) (rounds : list (Env * jsstring))
    (s : State) :
  gameStatus s = playing → currentStepIndex s = 0 →
  Forall (failedGuess (movie s)) rounds →
  let k := Z.of_nat (length rounds) in
  gameStatus (submitGuesses rounds s) = (if k <? 5 then playing else lost)
  ∧ currentStepIndex (submitGuesses rounds s) = Z.min k 4
  ∧ Z.of_nat (length (wrongGuesses (submitGuesses rounds s)))
    = Z.of_nat (length (wrongGuesses s)) + Z.min k 5.
Proof.
  intros Hst Hi Hf k.
  destruct (submitGuesses_failed rounds s Hst ltac:(lia) Hf) as (H1 & H2 & H3).
  rewrite Hi in *. cbn in H1, H2, H3. replace (5 - 0) with 5 in H3 by lia. done.
Qed.

Lemma five_failed_attempts_lose_witness :
  let e := november 1 in
  let s := session (U := latin1Ops) e (skips 0) in
  let rounds := [(e, js "titanic"); (e, []); (e, js "Inception 2011"); (e, js "  ");
                 (e, js "avatar")] in
  gameStatus s = playing
  ∧ currentStepIndex s = 0
  ∧ Forall (failedGuess (U := latin1Ops) (movie s)) rounds
  ∧ gameStatus (submitGuesses (U := latin1Ops) rounds s) = lost
  ∧ currentStepIndex (submitGuesses (U := latin1Ops) rounds s) = 4
  ∧ Z.of_nat (length (wrongGuesses (submitGuesses (U := latin1Ops) rounds s))) = 5.
Proof.
  intros e s rounds.
  assert (H1 : gameStatus s = playing) by by vm_compute.
  assert (H2 : currentStepIndex s = 0) by by vm_compute.
  assert (H3 : Forall (failedGuess (U := latin1Ops) (movie s)) rounds).
  { repeat constructor; first [by (left; vm_compute) | by (right; vm_compute)]. }
  split; [exact H1 |]. split; [exact H2 |]. split; [exact H3 |].
  exact (five_failed_attempts_lose latin1Ops rounds s H1 H2 H3).
Defined.

(* ===================================================================== *)
(** * The prompts *)
(* ===================================================================== *)

(** X20 — In an infinite tab with no request pending, asking to
    switch tab or media kind and then cancelling leaves the component
    exactly as it was, and so does asking to give up and then cancelling
    (when no give-up prompt was open). *)
Theorem cancel_restores_the_session (e : Env) (s : State) :
  isInfiniteTab (activeTab s) = true →
  showLeaveConfirm s = false → pendingTab s = None → pendingMediaMode s = None →
  (∀ tab, cancelLeaveTab (requestTabSwitch e tab s) = s)
  ∧ (∀ mode, cancelLeaveTab (setMediaMode e mode s) = s)
  ∧ (showGiveUpConfirm s = false → cancelGiveUp (giveUp s) = s).
Proof.
  intros Hinf H1 H2 H3.
  assert (Hc : cancelLeaveTab s = s).
  { unfold cancelLeaveTab. destruct s. cbn in *. by subst. }
  split; [| split].
  - intros tab. unfold requestTabSwitch. rewrite Hinf.
    case_bool_decide; [exact Hc |].
    destruct s. cbn in *. by subst.
  - intros mode. unfold setMediaMode. rewrite Hinf.
    case_bool_decide; [exact Hc |].
    destruct s. cbn in *. by subst.
  - intros H4. destruct s. cbn in *. by subst.
Qed.

(** X21 — Confirming the leave prompt in an infinite tab forfeits
    the streak: the store then holds 0 as current streak under the keys
    of the tab and media kind being left, with the best of the day and
    the all-time best that were shown (each [NaN] or an integer below
    10^21 in magnitude).  A pending media switch is carried
    out first (media kind changed and persisted, same tab, a pending tab
    left pending); otherwise a pending tab switch is carried out; with
    nothing pending the streak is reset all the same and the prompt is
    left as it is. *)
Theorem confirmLeaveTab_forfeits_the_streak (e : Env) (s : State) :
  isInfiniteTab (activeTab s) = true →
  printsDecimal (todayBestStreak s) →
  printsDecimal (allTimeBestStreak s) →
  let keys := getStreakStorageKeys (activeTab s) s in
  let day := getTodayKey (today e) in
  let s' := confirmLeaveTab e s in
  readNumber (localStorage s') (currentKey keys) = Int 0
  ∧ readNumber (localStorage s') (todayKey keys +:+ day) = todayBestStreak s
  ∧ readNumber (localStorage s') (allTimeKey keys) = allTimeBestStreak s
  ∧ match pendingMediaMode s, pendingTab s with
    | Some mode, _ =>
        mediaMode s' = mode ∧ savedMediaMode (localStorage s') = mode
        ∧ activeTab s' = activeTab s ∧ pendingTab s' = pendingTab s
        ∧ pendingMediaMode s' = None ∧ showLeaveConfirm s' = false
    | None, Some target =>
        activeTab s' = target ∧ mediaMode s' = mediaMode s
        ∧ pendingTab s' = None ∧ showLeaveConfirm s' = false
    | None, None =>
        activeTab s' = activeTab s ∧ currentStreak s' = Int 0
        ∧ showLeaveConfirm s' = showLeaveConfirm s
    end.
Proof.
  intros Hinf _ _ keys day s'. subst keys day s'. unfold confirmLeaveTab. rewrite Hinf.
  rewrite (infiniteModeOf_infinite _ Hinf). cbv zeta.
  set (s1 := saveStreakData e (activeTab s) (set_currentStreak (Int 0) s)).
  assert (Hl1 : localStorage s1
                = <[allTimeKey (getStreakStorageKeys (activeTab s) s)
                    := toString (allTimeBestStreak s)]>
                    (<[todayKey (getStreakStorageKeys (activeTab s) s) +:+ getTodayKey (today e)
                       := toString (todayBestStreak s)]>
                       (<[currentKey (getStreakStorageKeys (activeTab s) s)
                          := toString (Int 0)]> (localStorage s)))).
  { subst s1. simpl_fields. keys_frame s. done. }
  assert (Hp1 : pendingMediaMode s1 = pendingMediaMode s) by done.
  assert (Hp2 : pendingTab s1 = pendingTab s) by done.
  rewrite Hp1, Hp2.
  assert (Hsw : ∀ tab force s2, localStorage (switchTab e tab force s2) = localStorage s2
                ∧ mediaMode (switchTab e tab force s2) = mediaMode s2
                ∧ pendingTab (switchTab e tab force s2) = pendingTab s2
                ∧ pendingMediaMode (switchTab e tab force s2) = pendingMediaMode s2
                ∧ showLeaveConfirm (switchTab e tab force s2) = showLeaveConfirm s2
                ∧ (activeTab (switchTab e tab force s2) = tab)).
  { intros tab force s2. unfold switchTab.
    destruct (negb force && bool_decide (activeTab s2 = tab)) eqn:E.
    { apply andb_prop in E as [_ E]. by apply bool_decide_eq_true_1 in E. }
    destruct (decide (activeTab s2 = tab)) as [Ht|Ht].
    - rewrite (bool_decide_eq_false_2 (activeTab s2 ≠ tab)) by naive_solver.
      case_match; by simpl_fields.
    - rewrite (bool_decide_eq_true_2 (activeTab s2 ≠ tab)) by done.
      case_match; by simpl_fields. }
  destruct (pendingMediaMode s) as [mode|]; [| destruct (pendingTab s) as [target|]].
  - match goal with |- context [switchTab e ?t ?f ?s2] =>
      destruct (Hsw t f s2) as (E1 & E2 & E3 & E4 & E5 & E6) end;
      rewrite ?E1, ?E2, ?E3, ?E4, ?E5, ?E6.
    simpl_fields. rewrite Hl1. shown_rewrite. rewrite savedMediaMode_set.
    repeat split; try done.
  - match goal with |- context [switchTab e ?t ?f ?s2] =>
      destruct (Hsw t f s2) as (E1 & E2 & E3 & E4 & E5 & E6) end;
      rewrite ?E1, ?E2, ?E3, ?E4, ?E5, ?E6.
    simpl_fields. rewrite Hl1. shown_rewrite. repeat split; try done.
  - rewrite Hl1. shown_rewrite. repeat split; try done.
Qed.

Lemma cancel_restores_the_session_witness :
  let s := session (U := latin1Ops) (november 1) firstWin in
  isInfiniteTab (activeTab s) = true
  ∧ showLeaveConfirm s = false ∧ pendingTab s = None ∧ pendingMediaMode s = None
  ∧ cancelLeaveTab (requestTabSwitch (november 1) daily s) = s
  ∧ cancelLeaveTab (setMediaMode (november 1) media_tv s) = s.
Proof.
  intros s.
  assert (H1 : isInfiniteTab (activeTab s) = true) by by vm_compute.
  assert (H2 : showLeaveConfirm s = false) by by vm_compute.
  assert (H3 : pendingTab s = None) by by vm_compute.
  assert (H4 : pendingMediaMode s = None) by by vm_compute.
  destruct (cancel_restores_the_session (november 1) s H1 H2 H3 H4) as (H5 & H6 & _).
  split; [exact H1 |]. split; [exact H2 |]. split; [exact H3 |]. split; [exact H4 |].
  split; [exact (H5 daily) | exact (H6 media_tv)].
Defined.

Lemma confirmLeaveTab_forfeits_the_streak_witness :
  let e := november 1 in
  let s := requestTabSwitch e daily (session (U := latin1Ops) e firstWin) in
  isInfiniteTab (activeTab s) = true
  ∧ printsDecimal (todayBestStreak s)
  ∧ printsDecimal (allTimeBestStreak s)
  ∧ currentStreak s = Int 1
  ∧ readNumber (localStorage (confirmLeaveTab e s)) "infiniteCurrentStreak" = Int 0
  ∧ readNumber (localStorage (confirmLeaveTab e s)) "infiniteAllTimeBest" = Int 1
  ∧ activeTab (confirmLeaveTab e s) = daily.
Proof.
  intros e s.
  assert (H1 : isInfiniteTab (activeTab s) = true) by by vm_compute.
  assert (Ht : printsDecimal (todayBestStreak s)) by by vm_compute.
  assert (Ha : printsDecimal (allTimeBestStreak s)) by by vm_compute.
  pose proof (confirmLeaveTab_forfeits_the_streak e s H1 Ht Ha) as H.
  cbv zeta in H. destruct H as (H2 & _ & H3 & H4).
  split; [exact H1 |]. split; [exact Ht |]. split; [exact Ha |]. split; [by vm_compute |].
  split; [exact H2 |]. split; [etrans; [exact H3 | by vm_compute] |].
  by vm_compute.
Defined.

(* ===================================================================== *)
(** * More properties of the guess evaluator *)
(* ===================================================================== *)

Lemma trimStart_keeps c s : c ∈ s → isWhiteSpace c = false → c ∈ trimStart s.
Proof.
  intros Hc Hw. induction s as [|a s IH]; [done |].
  cbn [trimStart]. destruct (isWhiteSpace a) eqn:Ea; [| done].
  apply elem_of_cons in Hc as [-> | Hc]; [congruence | by apply IH].
Qed.

Lemma trim_keeps c s : c ∈ s → isWhiteSpace c = false → c ∈ trim s.
Proof.
  intros Hc Hw. unfold trim, trimEnd.
  apply elem_of_reverse, trimStart_keeps; [| done].
  by apply elem_of_reverse, trimStart_keeps.
Qed.

Lemma truthy_trim c s : c ∈ s → isWhiteSpace c = false → truthy (trim s) = true.
Proof.
  intros Hc Hw. pose proof (trim_keeps c s Hc Hw) as H.
  destruct (trim s); [by apply elem_of_nil in H | done].
Qed.

Lemma truthy_trim_inv s : truthy (trim s) = true → ∃ c, c ∈ s ∧ isWhiteSpace c = false.
Proof.
  intros H.
  assert (Hs : ∀ l, truthy (trimStart l) = true → ∃ c, c ∈ l ∧ isWhiteSpace c = false).
  { induction l as [|a l IH]; [done |]. cbn [trimStart].
    destruct (isWhiteSpace a) eqn:Ea.
    - intros (c & Hc & Hw)%IH. exists c. split; [by right | done].
    - intros _. exists a. split; [by left | done]. }
  unfold trim, trimEnd in H.
  destruct (Hs (reverse (trimStart s))) as (c & Hc & Hw).
  { destruct (trimStart (reverse (trimStart s))); [done | done]. }
  apply elem_of_reverse in Hc.
  destruct (Hs s) as (c' & Hc' & Hw'); [| by exists c'].
  destruct (trimStart s); [by apply elem_of_nil in Hc | done].
Qed.


Lemma map_reverse {A B} (f : A → B) (l : list A) : map f (reverse l) = reverse (map f l).
Proof.
  induction l as [|a l IH]; [done |].
  cbn [map]. by rewrite !reverse_cons, map_app, IH.
Qed.

Lemma keepAlphanumeric_app s1 s2 :
  keepAlphanumeric (s1 ++ s2) = keepAlphanumeric s1 ++ keepAlphanumeric s2.
Proof. apply filter_app. Qed.

Lemma keepAlphanumeric_reverse s : keepAlphanumeric (reverse s) = reverse (keepAlphanumeric s).
Proof. apply filter_reverse. Qed.

Lemma asciiFold_reverse s : asciiFold (reverse s) = reverse (asciiFold s).
Proof. unfold asciiFold. by rewrite map_reverse, keepAlphanumeric_reverse. Qed.

Lemma whiteSpace_lower c : isWhiteSpace (asciiToLower c) = isWhiteSpace c.
Proof.
  unfold asciiToLower. destruct ((0x41 <=? c)%N && (c <=? 0x5A)%N) eqn:E; [| done].
  unfold isWhiteSpace. lia.
Qed.

Lemma whiteSpace_not_alnum c :
  isWhiteSpace c = true → (isLowerAlpha (asciiToLower c) || isDigit (asciiToLower c)) = false.
Proof.
  intros H. rewrite <- whiteSpace_lower in H. revert H.
  generalize (asciiToLower c). intros d. unfold isWhiteSpace, isLowerAlpha, isDigit. lia.
Qed.

Lemma asciiFold_cons_drop c s :
  (isLowerAlpha (asciiToLower c) || isDigit (asciiToLower c)) = false →
  asciiFold (c :: s) = asciiFold s.
Proof.
  intros H. unfold asciiFold, keepAlphanumeric. cbn [map].
  rewrite filter_cons. by rewrite decide_False by (by rewrite H).
Qed.

Lemma asciiFold_trimStart s : asciiFold (trimStart s) = asciiFold s.
Proof.
  induction s as [|c s IH]; [done |]. cbn [trimStart].
  destruct (isWhiteSpace c) eqn:E; [| done].
  by rewrite IH, (asciiFold_cons_drop c s (whiteSpace_not_alnum c E)).
Qed.

Lemma asciiFold_trim s : asciiFold (trim s) = asciiFold s.
Proof.
  unfold trim, trimEnd.
  by rewrite asciiFold_reverse, asciiFold_trimStart, asciiFold_reverse, reverse_involutive,
    asciiFold_trimStart.
Qed.

Lemma asciiFold_noParens s :
  asciiFold (filter (λ c, negb (isParen c) = true) s) = asciiFold s.
Proof.
  induction s as [|c s IH]; [done |]. rewrite filter_cons.
  destruct (decide (negb (isParen c) = true)) as [H|H].
  - unfold asciiFold in *. cbn [map]. unfold keepAlphanumeric in *.
    rewrite !filter_cons. by rewrite IH.
  - rewrite IH. symmetry. apply asciiFold_cons_drop.
    unfold isParen, asciiToLower, isLowerAlpha, isDigit in *.
    destruct ((0x41 <=? c)%N && (c <=? 0x5A)%N) eqn:E; lia.
Qed.

Lemma asciiToLower_idemp c : asciiToLower (asciiToLower c) = asciiToLower c.
Proof.
  unfold asciiToLower. destruct ((0x41 <=? c)%N && (c <=? 0x5A)%N) eqn:E; [| by rewrite E].
  destruct ((0x41 <=? c + 0x20)%N && (c + 0x20 <=? 0x5A)%N) eqn:E'; [lia | done].
Qed.

Lemma asciiFold_lower s : asciiFold (map asciiToLower s) = asciiFold s.
Proof.
  unfold asciiFold. f_equal. rewrite map_map. apply map_ext. intros c. apply asciiToLower_idemp.
Qed.

Lemma removeCombiningMarks_asciiOnly s : asciiOnly s → removeCombiningMarks s = s.
Proof.
  induction 1 as [|c s Hc _ IH]; [done |].
  unfold removeCombiningMarks in *. rewrite filter_cons, IH.
  rewrite decide_True; [done |]. unfold isAscii in Hc. lia.
Qed.

Section FoldFacts.
Context {U : UnicodeOps} (L : UnicodeLaws U).

Lemma normalizeTitle_false_ascii s : asciiOnly s → normalizeTitle s false = asciiFold s.
Proof.
  intros H. unfold normalizeTitle, asciiFold.
  rewrite (toLowerCase_ascii U L) by (by apply asciiOnly_forallb).
  rewrite (normalizeNFD_ascii U L) by (by apply asciiOnly_forallb, asciiOnly_lower).
  by rewrite removeCombiningMarks_asciiOnly by (by apply asciiOnly_lower).
Qed.

End FoldFacts.

Lemma trimStart_lower s : trimStart (map asciiToLower s) = map asciiToLower (trimStart s).
Proof.
  induction s as [|c s IH]; [done |]. cbn [map trimStart].
  rewrite whiteSpace_lower. by destruct (isWhiteSpace c).
Qed.

Lemma trim_lower s : trim (map asciiToLower s) = map asciiToLower (trim s).
Proof.
  unfold trim, trimEnd.
  by rewrite trimStart_lower, <- map_reverse, trimStart_lower, map_reverse.
Qed.

Lemma digit_lower c : isDigit c = true → asciiToLower c = c.
Proof.
  unfold isDigit, asciiToLower. intros H.
  destruct ((0x41 <=? c)%N && (c <=? 0x5A)%N) eqn:E; [lia | done].
Qed.

Lemma lower_digit c : isDigit (asciiToLower c) = isDigit c.
Proof.
  unfold isDigit, asciiToLower.
  destruct ((0x41 <=? c)%N && (c <=? 0x5A)%N) eqn:E; [lia | done].
Qed.

Lemma eqb_digit_lower a c : isDigit a = true → (a =? asciiToLower c)%N = (a =? c)%N.
Proof.
  unfold isDigit, asciiToLower. intros H.
  destruct ((0x41 <=? c)%N && (c <=? 0x5A)%N) eqn:E; [lia | done].
Qed.

Lemma yearAt_digits s y : yearAt s = Some y → Forall (λ c, isDigit c = true) y.
Proof.
  unfold yearAt. destruct s as [|a [|b [|c [|d r]]]]; try done.
  destruct (_ && _ && _) eqn:E; [| done]. intros [= <-].
  repeat constructor; unfold isDigit in *; lia.
Qed.

Lemma yearAt_lower s : yearAt (map asciiToLower s) = yearAt s.
Proof.
  unfold yearAt. destruct s as [|a [|b [|c [|d r]]]]; try done. cbn [map].
  rewrite !lower_digit.
  assert (Ha : ∀ k x, isDigit k = true → (asciiToLower x =? k)%N = (x =? k)%N).
  { intros k x Hk. rewrite (N.eqb_sym _ k), (N.eqb_sym x k). by apply eqb_digit_lower. }
  rewrite !Ha by done.
  destruct (_ && _ && _) eqn:E; [| done].
  f_equal. rewrite !digit_lower; [done | | | |]; unfold isDigit in *; lia.
Qed.

Lemma matchYear_digits s y : matchYear s = Some y → Forall (λ c, isDigit c = true) y.
Proof.
  induction s as [|c s IH]; cbn [matchYear].
  - done.
  - destruct (yearAt (c :: s)) eqn:E; [| exact IH]. intros [= <-]. by apply yearAt_digits in E.
Qed.

Lemma matchYear_lower s : matchYear (map asciiToLower s) = matchYear s.
Proof.
  induction s as [|c s IH]; [done |].
  cbn [matchYear]. change (asciiToLower c :: map asciiToLower s) with (map asciiToLower (c :: s)).
  cbn [map matchYear].
  change (asciiToLower c :: map asciiToLower s) with (map asciiToLower (c :: s)).
  rewrite yearAt_lower. by destruct (yearAt (c :: s)).
Qed.

Lemma startsWith_lower y s :
  Forall (λ c, isDigit c = true) y → startsWith y (map asciiToLower s) = startsWith y s.
Proof.
  intros Hy. revert s. induction Hy as [|a y Ha _ IH]; intros s; [by destruct s |].
  destruct s as [|b s]; [done |]. cbn [map startsWith].
  by rewrite IH, eqb_digit_lower.
Qed.

Lemma replaceFirst_lower y s :
  Forall (λ c, isDigit c = true) y →
  replaceFirst y (map asciiToLower s) = map asciiToLower (replaceFirst y s).
Proof.
  intros Hy. induction s as [|c s IH].
  - cbn. destruct (startsWith y []); [by rewrite drop_nil | done].
  - cbn [map replaceFirst].
    change (asciiToLower c :: map asciiToLower s) with (map asciiToLower (c :: s)).
    rewrite startsWith_lower by done.
    destruct (startsWith y (c :: s)).
    + by rewrite skipn_map.
    + cbn [map]. by rewrite IH.
Qed.

Lemma noParens_lower s :
  filter (λ c, negb (isParen c) = true) (map asciiToLower s)
  = map asciiToLower (filter (λ c, negb (isParen c) = true) s).
Proof.
  induction s as [|c s IH]; [done |]. cbn [map]. rewrite !filter_cons, IH.
  assert (isParen (asciiToLower c) = isParen c) as ->.
  { unfold isParen, asciiToLower.
    destruct ((0x41 <=? c)%N && (c <=? 0x5A)%N) eqn:E; [lia | done]. }
  by destruct (decide _).
Qed.

Lemma extractGuess_lower raw :
  extractGuess (map asciiToLower raw)
  = (map asciiToLower (extractGuess raw).1, (extractGuess raw).2).
Proof.
  unfold extractGuess. rewrite matchYear_lower. cbn [fst snd].
  destruct (matchYear raw) as [y|] eqn:Ey.
  - pose proof (matchYear_digits _ _ Ey) as Hy. change (default [] (Some y)) with y.
    destruct (truthy y).
    + rewrite replaceFirst_lower by done. by rewrite noParens_lower, trim_lower.
    + by rewrite noParens_lower, trim_lower.
  - change (default [] (@None jsstring)) with (@nil N). cbn [truthy].
    by rewrite noParens_lower, trim_lower.
Qed.

Section CaseFacts.
Context {U : UnicodeOps} (L : UnicodeLaws U).

Lemma stripLeadingArticles_ascii s :
  asciiOnly s →
  stripLeadingArticles s
  = trim (removeArticle articles (removeElision (trim (map asciiToLower s)))).
Proof.
  intros H. unfold stripLeadingArticles.
  rewrite (toLowerCase_ascii U L) by (by apply asciiOnly_forallb, asciiOnly_trim).
  by rewrite trim_lower.
Qed.

Lemma normalizeTitle_lower_image s1 s2 d :
  asciiOnly s1 → asciiOnly s2 → map asciiToLower s1 = map asciiToLower s2 →
  normalizeTitle s1 d = normalizeTitle s2 d.
Proof.
  intros H1 H2 E. destruct d.
  - unfold normalizeTitle. by rewrite !stripLeadingArticles_ascii, E.
  - rewrite !(normalizeTitle_false_ascii L) by done. unfold asciiFold. by rewrite E.
Qed.

End CaseFacts.

(** X22 — On every lawful platform, two ASCII guesses that differ
    only in the case of their letters are treated alike: both are blank
    or neither is, and against any target they are both classified
    correct or both incorrect. *)
Theorem guess_is_case_insensitive (U : UnicodeOps) (L : UnicodeLaws U)
    (raw1 raw2 : jsstring) (tgt : option Movie) :
  asciiOnly raw1 → asciiOnly raw2 →
  map asciiToLower raw1 = map asciiToLower raw2 →
  truthy (trim raw1) = truthy (trim raw2)
  ∧ isCorrectGuess raw1 None tgt = isCorrectGuess raw2 None tgt.
Proof.
  intros H1 H2 E. split.
  - assert (Ht : map asciiToLower (trim raw1) = map asciiToLower (trim raw2))
      by (by rewrite <- !trim_lower, E).
    destruct (trim raw1), (trim raw2); done.
  - pose proof (extractGuess_lower raw1) as E1. pose proof (extractGuess_lower raw2) as E2.
    pose proof (asciiOnly_extractGuess raw1 H1) as A1.
    pose proof (asciiOnly_extractGuess raw2 H2) as A2.
    unfold isCorrectGuess.
    destruct (extractGuess raw1) as [gt1 gy1], (extractGuess raw2) as [gt2 gy2].
    cbn [fst snd] in *. rewrite E, E2 in E1. injection E1 as Et Ey. subst gy2.
    rewrite (normalizeTitle_lower_image L gt1 gt2 false A1 A2) by done.
    rewrite (normalizeTitle_lower_image L gt1 gt2 true A1 A2) by done.
    done.
Qed.

Lemma notBlank_truthy s : notBlank s → truthy (trim s) = true.
Proof. intros (c & Hc & Hw). by apply (truthy_trim c). Qed.

Section VerbatimFacts.
Context {U : UnicodeOps} (L : UnicodeLaws U).

Lemma isCorrectGuess_verbatim t :
  asciiOnly (title t) → matchYear (title t) = None →
  isCorrectGuess (title t) None (Some t) = true.
Proof.
  intros Ha Hy. unfold isCorrectGuess, extractGuess. rewrite Hy.
  change (default [] (@None jsstring)) with (@nil N). cbn [truthy negb orb andb from_option].
  rewrite (normalizeTitle_false_ascii L (title t)) by done.
  rewrite (normalizeTitle_false_ascii L (trim _))
    by (by apply asciiOnly_trim, asciiOnly_filter).
  rewrite asciiFold_trim, asciiFold_noParens.
  unfold streq at 1. by rewrite bool_decide_eq_true_2.
Qed.

End VerbatimFacts.

(** X23 — On every lawful platform, typing the title of the
    target as it is and submitting it wins the puzzle in play, when the
    title is ASCII, not blank and holds no run of four digits that reads
    as a year 19xx or 20xx (such a run would be taken out of the guess as
    its year). *)
Theorem verbatim_title_wins (U : UnicodeOps) (L : UnicodeLaws U) (e : Env) (s : State)
    (t : Movie) :
  gameStatus s = playing → movie s = Some t →
  asciiOnly (title t) → notBlank (title t) → matchYear (title t) = None →
  gameStatus (validateGuess e (onInput (title t) s)) = won.
Proof.
  intros Hst Hm Ha Hb Hy. unfold validateGuess. simpl_fields.
  rewrite Hst. rewrite bool_decide_eq_false_2 by naive_solver.
  rewrite (notBlank_truthy _ Hb), Hm, (isCorrectGuess_verbatim L t Ha Hy). cbn [negb].
  destruct (extractGuess (title t)) as [gt gy]. cbv zeta.
  repeat case_match; by simpl_fields.
Qed.

Lemma trimStart_app l r : notBlank l → trimStart (l ++ r) = trimStart l ++ r.
Proof.
  intros (c & Hc & Hw). induction l as [|a l IH]; [by apply elem_of_nil in Hc |].
  cbn [app trimStart]. destruct (isWhiteSpace a) eqn:Ea; [| done].
  apply IH. apply elem_of_cons in Hc as [-> | Hc]; [congruence | done].
Qed.

Lemma notBlank_reverse s : notBlank s → notBlank (reverse s).
Proof. intros (c & Hc & Hw). exists c. split; [by apply elem_of_reverse | done]. Qed.

Lemma trimEnd_app p s : notBlank s → trimEnd (p ++ s) = p ++ trimEnd s.
Proof.
  intros H. unfold trimEnd. rewrite reverse_app, trimStart_app by (by apply notBlank_reverse).
  by rewrite reverse_app, reverse_involutive.
Qed.

Lemma asciiFold_trimEnd s : asciiFold (trimEnd s) = asciiFold s.
Proof.
  unfold trimEnd. by rewrite asciiFold_reverse, asciiFold_trimStart, asciiFold_reverse,
    reverse_involutive.
Qed.

Lemma notBlank_lower s : notBlank s → notBlank (map asciiToLower s).
Proof.
  intros (c & Hc & Hw). exists (asciiToLower c). split; [| by rewrite whiteSpace_lower].
  apply list_elem_of_In, in_map. by apply list_elem_of_In.
Qed.

Lemma article_cases art (P : jsstring → Prop) :
  art ∈ articles → Forall P articles → P art.
Proof. intros H HP. by eapply Forall_forall in HP. Qed.

Lemma strip_after_article art r :
  art ∈ articles →
  trimStart (art ++ 0x20%N :: r) = art ++ 0x20%N :: r
  ∧ removeElision (art ++ 0x20%N :: r) = art ++ 0x20%N :: r
  ∧ removeArticle articles (art ++ 0x20%N :: r) = trimStart r.
Proof.
  intros H. revert r. pattern art. eapply article_cases; [exact H |].
  repeat constructor.
Qed.

Lemma ascii_of_lower c : isAscii (asciiToLower c) = true → isAscii c = true.
Proof.
  unfold isAscii, asciiToLower.
  destruct ((0x41 <=? c)%N && (c <=? 0x5A)%N) eqn:E; lia.
Qed.

Lemma asciiOnly_of_lower s : asciiOnly (map asciiToLower s) → asciiOnly s.
Proof.
  induction s as [|c s IH]; [done |]. cbn [map]. intros H.
  inversion H as [|? ? Hc Hs]; subst. constructor; [by apply ascii_of_lower | by apply IH].
Qed.

Lemma asciiOnly_articles : Forall asciiOnly articles.
Proof. repeat constructor. Qed.

(** X24 — On every lawful platform, with [dropArticles] set a
    leading article (in any case, followed by a space) is ignored: the
    normalization of an article, a space and ASCII text that is not blank
    is the normalization of that text with the articles kept. *)
Theorem leading_article_is_ignored (U : UnicodeOps) (L : UnicodeLaws U)
    (a s : jsstring) :
  map asciiToLower a ∈ articles → asciiOnly s → notBlank s →
  normalizeTitle (a ++ 0x20%N :: s) true = normalizeTitle s false.
Proof.
  intros Hart Hs Hb.
  assert (Ha : asciiOnly a).
  { apply asciiOnly_of_lower. by eapply Forall_forall in Hart; [| apply asciiOnly_articles]. }
  assert (H0 : asciiOnly (a ++ 0x20%N :: s)).
  { apply Forall_app. split; [done |]. by constructor. }
  change (normalizeTitle (a ++ 0x20%N :: s) true)
    with (normalizeTitle (stripLeadingArticles (a ++ 0x20%N :: s)) false).
  rewrite (stripLeadingArticles_ascii L) by done.
  rewrite map_app. cbn [map]. change (asciiToLower 0x20) with 0x20%N.
  set (art := map asciiToLower a) in *. set (s' := map asciiToLower s).
  assert (Hb' : notBlank s') by (by apply notBlank_lower).
  assert (Hs' : asciiOnly s') by (by apply asciiOnly_lower).
  unfold trim at 2.
  destruct (strip_after_article art s' Hart) as (E1 & _ & _). rewrite E1.
  change (art ++ 0x20%N :: s') with (art ++ [0x20%N] ++ s').
  rewrite app_assoc, trimEnd_app by done. rewrite <- app_assoc. cbn [app].
  destruct (strip_after_article art (trimEnd s') Hart) as (_ & E2 & E3). rewrite E2, E3.
  rewrite (normalizeTitle_false_ascii L).
  - rewrite asciiFold_trim, asciiFold_trimStart, asciiFold_trimEnd. subst s'.
    rewrite asciiFold_lower. by rewrite (normalizeTitle_false_ascii L).
  - apply asciiOnly_trim, asciiOnly_trimStart.
    unfold trimEnd. apply Forall_reverse, asciiOnly_trimStart. by apply Forall_reverse.
Qed.

Lemma leading_article_is_ignored_witness :
  UnicodeLaws latin1Ops
  ∧ map asciiToLower (js "LES") ∈ articles
  ∧ asciiOnly (js "Intouchables")
  ∧ notBlank (js "Intouchables")
  ∧ normalizeTitle (U := latin1Ops) (js "LES" ++ 0x20%N :: js "Intouchables") true
    = normalizeTitle (U := latin1Ops) (js "Intouchables") false.
Proof.
  assert (H1 : map asciiToLower (js "LES") ∈ articles).
  { apply list_elem_of_In. vm_compute. do 5 right. by left. }
  assert (H2 : asciiOnly (js "Intouchables")) by (by apply asciiOnly_forallb).
  assert (H3 : notBlank (js "Intouchables")).
  { exists 0x49%N. split; [by left | done]. }
  split; [exact latin1Laws |]. split; [exact H1 |]. split; [exact H2 |]. split; [exact H3 |].
  exact (leading_article_is_ignored latin1Ops latin1Laws _ _ H1 H2 H3).
Defined.

Lemma guess_is_case_insensitive_witness :
  UnicodeLaws latin1Ops
  ∧ asciiOnly (js "INCEPTION (2010)") ∧ asciiOnly (js "inception (2010)")
  ∧ map asciiToLower (js "INCEPTION (2010)") = map asciiToLower (js "inception (2010)")
  ∧ isCorrectGuess (U := latin1Ops) (js "INCEPTION (2010)") None (Some inception)
    = isCorrectGuess (U := latin1Ops) (js "inception (2010)") None (Some inception)
  ∧ isCorrectGuess (U := latin1Ops) (js "inception (2010)") None (Some inception) = true.
Proof.
  assert (H1 : asciiOnly (js "INCEPTION (2010)")) by (by apply asciiOnly_forallb).
  assert (H2 : asciiOnly (js "inception (2010)")) by (by apply asciiOnly_forallb).
  assert (H3 : map asciiToLower (js "INCEPTION (2010)")
               = map asciiToLower (js "inception (2010)")) by reflexivity.
  split; [exact latin1Laws |]. split; [exact H1 |]. split; [exact H2 |].
  split; [exact H3 |].
  destruct (guess_is_case_insensitive latin1Ops latin1Laws _ _ (Some inception) H1 H2 H3)
    as [_ H].
  split; [exact H | by vm_compute].
Defined.

Lemma verbatim_title_wins_witness :
  let e := november 1 in
  let s := session (U := latin1Ops) e (skips 1) in
  UnicodeLaws latin1Ops
  ∧ gameStatus s = playing ∧ movie s = Some inception
  ∧ asciiOnly (title inception) ∧ notBlank (title inception)
  ∧ matchYear (title inception) = None
  ∧ gameStatus (validateGuess (U := latin1Ops) e (onInput (title inception) s)) = won.
Proof.
  intros e s.
  assert (H1 : gameStatus s = playing) by by vm_compute.
  assert (H2 : movie s = Some inception) by by vm_compute.
  assert (H3 : asciiOnly (title inception)) by (by apply asciiOnly_forallb).
  assert (H4 : notBlank (title inception)).
  { exists 0x49%N. split; [by left | done]. }
  assert (H5 : matchYear (title inception) = None) by by vm_compute.
  split; [exact latin1Laws |]. split; [exact H1 |]. split; [exact H2 |].
  split; [exact H3 |]. split; [exact H4 |]. split; [exact H5 |].
  exact (verbatim_title_wins latin1Ops latin1Laws e s inception H1 H2 H3 H4 H5).
Defined.

(** X25 — Choosing from the suggestions an item that has the
    id of the target and submitting wins the puzzle in play, whatever the
    titles are, provided the item has a title that is not blank or a
    release year; the input and the selection are cleared, and neither
    the wrong guesses nor the step index change. *)
Theorem selected_target_is_a_win (U : UnicodeOps) (e : Env) (s : State) (m t : Movie) :
  gameStatus s = playing → movie s = Some t → id m = id t →
  truthy (trim (title m)) = true ∨ truthy (yearOf m) = true →
  let s' := validateGuess e (selectSuggestion m s) in
  gameStatus s' = won ∧ userGuess s' = [] ∧ selectedMovieFromAutocomplete s' = None
  ∧ wrongGuesses s' = wrongGuesses s ∧ currentStepIndex s' = currentStepIndex s.
Proof.
  intros Hst Hm Hid Hnb s'. subst s'. unfold validateGuess. simpl_fields.
  rewrite Hst. rewrite bool_decide_eq_false_2 by naive_solver.
  set (g := if truthy (yearOf m) then _ else _).
  assert (Hg : truthy (trim g) = true).
  { subst g. destruct (truthy (yearOf m)) eqn:Ey.
    - apply (truthy_trim 0x28%N); [| done].
      apply elem_of_app. right. apply elem_of_app. left. cbn. apply elem_of_cons. right. by left.
    - by destruct Hnb. }
  rewrite Hg, Hm. cbn [negb].
  unfold isCorrectGuess. destruct (extractGuess g) as [gt gy]. cbv zeta.
  rewrite (bool_decide_eq_true_2 _ Hid).
  repeat case_match; by simpl_fields.
Qed.

Lemma selected_target_is_a_win_witness :
  let e := november 1 in
  let s := session (U := latin1Ops) e (skips 1) in
  let m := {| id := 27205; title := js "Origine"; release_date := None;
              original_title := None; original_name := None |} in
  gameStatus s = playing ∧ movie s = Some inception ∧ id m = id inception
  ∧ (truthy (trim (title m)) = true ∨ truthy (yearOf m) = true)
  ∧ gameStatus (validateGuess (U := latin1Ops) e (selectSuggestion m s)) = won.
Proof.
  intros e s m.
  assert (H1 : gameStatus s = playing) by by vm_compute.
  assert (H2 : movie s = Some inception) by by vm_compute.
  assert (H3 : id m = id inception) by reflexivity.
  assert (H4 : truthy (trim (title m)) = true ∨ truthy (yearOf m) = true)
    by (left; by vm_compute).
  split; [exact H1 |]. split; [exact H2 |]. split; [exact H3 |]. split; [exact H4 |].
  exact (proj1 (selected_target_is_a_win latin1Ops e s m inception H1 H2 H3 H4)).
Defined.

(* ===================================================================== *)
(** * The tabs keep to their own records *)
(* ===================================================================== *)

Lemma foreignKey_current k mode s0 :
  foreignKey k → k ≠ currentKey (getStreakStorageKeys mode s0).
Proof. intros H. apply (H mode s0 EmptyString). Qed.

Lemma foreignKey_today k mode s0 day :
  foreignKey k → k ≠ todayKey (getStreakStorageKeys mode s0) +:+ day.
Proof. intros H. apply (H mode s0 day). Qed.

Lemma foreignKey_allTime k mode s0 :
  foreignKey k → k ≠ allTimeKey (getStreakStorageKeys mode s0).
Proof. intros H. apply (H mode s0 EmptyString). Qed.

Lemma foreignKey_seen s : foreignKey (getSeenRandomKey s).
Proof. unfold getSeenRandomKey. case_bool_decide; foreign_key. Qed.

Lemma notDailyFlagKey_seen s : notDailyFlagKey (getSeenRandomKey s).
Proof. unfold getSeenRandomKey. case_bool_decide; not_flag_key. Qed.

Ltac streak_frame :=
  repeat first
    [ rewrite lookup_insert_ne
        by (first [ apply foreignKey_current | apply foreignKey_today
                  | apply foreignKey_allTime ]; auto with foreign_keys)
    | rewrite lookup_delete_ne
        by (first [ apply foreignKey_current | apply foreignKey_today
                  | apply foreignKey_allTime ]; auto with foreign_keys) ].

Ltac flag_frame :=
  repeat first
    [ rewrite lookup_insert_ne
        by first [ apply notDailyFlagKey_media | apply notDailyFlagKey_memory
                 | apply notDailyFlagKey_token | apply notDailyFlagKey_service
                 | apply notDailyFlagKey_current | apply notDailyFlagKey_today
                 | apply notDailyFlagKey_allTime ]
    | rewrite lookup_delete_ne
        by first [ apply notDailyFlagKey_media | apply notDailyFlagKey_memory
                 | apply notDailyFlagKey_token | apply notDailyFlagKey_service
                 | apply notDailyFlagKey_current | apply notDailyFlagKey_today
                 | apply notDailyFlagKey_allTime ] ].

Ltac unfold_handlers :=
  unfold pageLoad, ngOnInit, onTokenValidated, initializeWithToken, loadForCurrentTab,
    setMediaMode, toggleInfiniteMemory, requestTabSwitch, confirmLeaveTab, cancelLeaveTab,
    switchTab, giveUp, cancelGiveUp, confirmGiveUp, onInput, selectSuggestion,
    validateGuess, nextStep, loadNextInfiniteMovie, catalogAnswered, catalogFailed,
    onDailyMovie, onInfiniteMovie, onInfiniteError, servicePicked in *.

Section Separation.
Context {U : UnicodeOps}.

Lemma step_streak_frame (e : Env) (ev : Event) (s : State)
    (mode : Tab) (s0 : State) (day : string) :
  isInfiniteTab (activeTab s) = false → ev ≠ ClearCache →
  let keys := getStreakStorageKeys mode s0 in
  let ls' := localStorage (step e ev s) in
  ls' !! currentKey keys = localStorage s !! currentKey keys
  ∧ ls' !! (todayKey keys +:+ day) = localStorage s !! (todayKey keys +:+ day)
  ∧ ls' !! allTimeKey keys = localStorage s !! allTimeKey keys.
Proof.
  intros Hinf Hev keys ls'. subst keys ls'.
  destruct ev; cbn [step]; try done.
  all: unfold_handlers.
  all: try destruct (extractGuess _) as [gt gy].
  all: repeat case_match; simpl_fields_all; try congruence; try done.
  all: repeat split; streak_frame; done.
Qed.

(** X26.  Outside the infinite tabs no event of a session
    writes a streak record: whatever happens (clearing the cache apart),
    the current streak, every day's best and the all-time best of every
    ledger are in the store as they were before.  The key of the seen
    list, which the browser keeps in the same store, is none of theirs. *)
Theorem daily_play_never_writes_streaks (e : Env) (ev : Event) (s : State)
    (mode : Tab) (s0 : State) (day : string) :
  isInfiniteTab (activeTab s) = false → ev ≠ ClearCache →
  let keys := getStreakStorageKeys mode s0 in
  let ls' := localStorage (step e ev s) in
  ls' !! currentKey keys = localStorage s !! currentKey keys
  ∧ ls' !! (todayKey keys +:+ day) = localStorage s !! (todayKey keys +:+ day)
  ∧ ls' !! allTimeKey keys = localStorage s !! allTimeKey keys
  ∧ foreignKey (getSeenRandomKey (step e ev s)).
Proof.
  intros Hinf Hev keys ls'.
  destruct (step_streak_frame e ev s mode s0 day Hinf Hev) as (H1 & H2 & H3).
  split; [exact H1 |]. split; [exact H2 |]. split; [exact H3 | apply foreignKey_seen].
Qed.

Lemma step_flag_frame (e : Env) (ev : Event) (s : State)
    (tab : Tab) (type : Outcome) (s0 : State) (day : string) :
  isInfiniteTab (activeTab s) = true → ev ≠ ClearCache →
  localStorage (step e ev s) !! (getDailyStoragePrefix tab type s0 +:+ day)
  = localStorage s !! (getDailyStoragePrefix tab type s0 +:+ day).
Proof.
  intros Hinf Hev.
  destruct ev; cbn [step]; try done.
  all: unfold_handlers.
  all: try destruct (extractGuess _) as [gt gy].
  all: repeat case_match; simpl_fields_all; try congruence; try done.
  all: flag_frame; done.
Qed.

(** X27.  In the infinite tabs no event of a session
    writes a daily outcome: whatever happens (clearing the cache apart),
    the win and loss flags of every daily tab, media kind and day are in
    the store as they were before.  The key of the seen list, which the
    browser keeps in the same store, is none of theirs. *)
Theorem infinite_play_never_writes_daily_flags (e : Env) (ev : Event) (s : State)
    (tab : Tab) (type : Outcome) (s0 : State) (day : string) :
  isInfiniteTab (activeTab s) = true → ev ≠ ClearCache →
  localStorage (step e ev s) !! (getDailyStoragePrefix tab type s0 +:+ day)
  = localStorage s !! (getDailyStoragePrefix tab type s0 +:+ day)
  ∧ notDailyFlagKey (getSeenRandomKey (step e ev s)).
Proof.
  intros Hinf Hev. split; [by apply step_flag_frame | apply notDailyFlagKey_seen].
Qed.

(** X28.  With the seen-recently memory switched off, or
    outside the infinite tabs, no event of a session records an item as
    seen: the seen lists are left as they were (clearing the cache
    apart). *)
Theorem nothing_is_remembered_unless_asked (e : Env) (ev : Event) (s : State) :
  isInfiniteTab (activeTab s) = false ∨ infiniteMemoryEnabled s = false →
  ev ≠ ClearCache →
  seenStore (step e ev s) = seenStore s.
Proof.
  intros Hoff Hev.
  destruct ev; cbn [step]; try done.
  all: unfold_handlers; unfold markCurrentMovieSeen in *.
  all: try destruct (extractGuess _) as [gt gy].
  all: repeat case_match; simpl_fields_all; try done.
  all: repeat match goal with
              | H : _ && _ = true |- _ => apply andb_prop in H; destruct H
              end.
  all: simpl_fields_all; destruct Hoff; congruence.
Qed.

End Separation.

Lemma daily_play_never_writes_streaks_witness :
  let e := november 1 in
  let s := run (U := latin1Ops)
             [(e, RequestTabSwitch daily); (e, ConfirmLeaveTab);
              (e, CatalogAnswered 1 inception true)]
             (session (U := latin1Ops) e firstWin) in
  let keys := getStreakStorageKeys infinite s in
  isInfiniteTab (activeTab s) = false
  ∧ ConfirmGiveUp ≠ ClearCache
  ∧ localStorage s !! allTimeKey keys = Some "1"
  ∧ localStorage (step (U := latin1Ops) e ConfirmGiveUp s) !! allTimeKey keys = Some "1"
  ∧ localStorage (step (U := latin1Ops) e ConfirmGiveUp s) !! (getDailyStoragePrefix daily loss s +:+ getTodayKey (today e)) = Some "true".
Proof.
  intros e s keys. unfold keys; clear keys.
  assert (H1 : isInfiniteTab (activeTab s) = false) by by vm_compute.
  assert (H2 : ConfirmGiveUp ≠ ClearCache) by done.
  assert (H3 : localStorage s !! allTimeKey (getStreakStorageKeys infinite s) = Some "1")
    by by vm_compute.
  pose proof (daily_play_never_writes_streaks (U := latin1Ops) e ConfirmGiveUp s
                infinite s (getTodayKey (today e)) H1 H2) as H.
  cbv zeta in H. destruct H as (_ & _ & H4 & _).
  split; [exact H1 |]. split; [exact H2 |]. split; [exact H3 |].
  split; [etrans; [exact H4 | exact H3] |]. by vm_compute.
Defined.

Lemma infinite_play_never_writes_daily_flags_witness :
  let e := november 1 in
  let s := step (U := latin1Ops) e (RequestTabSwitch infinite)
             (session (U := latin1Ops) e (skips 5)) in
  let flag := getDailyStoragePrefix daily loss s +:+ (getTodayKey (today e)) in
  isInfiniteTab (activeTab s) = true
  ∧ ConfirmGiveUp ≠ ClearCache
  ∧ localStorage s !! flag = Some "true"
  ∧ localStorage (step (U := latin1Ops) e ConfirmGiveUp s) !! flag = Some "true"
  ∧ localStorage (step (U := latin1Ops) e ConfirmGiveUp s) !! "infiniteCurrentStreak"
    = Some "0".
Proof.
  intros e s flag. unfold flag; clear flag.
  assert (H1 : isInfiniteTab (activeTab s) = true) by by vm_compute.
  assert (H2 : ConfirmGiveUp ≠ ClearCache) by done.
  assert (H3 : localStorage s !! (getDailyStoragePrefix daily loss s +:+ (getTodayKey (today e)))
               = Some "true") by by vm_compute.
  pose proof (infinite_play_never_writes_daily_flags (U := latin1Ops) e ConfirmGiveUp s
                daily loss s (getTodayKey (today e)) H1 H2) as [H4 _].
  split; [exact H1 |]. split; [exact H2 |]. split; [exact H3 |].
  split; [etrans; [exact H4 | exact H3] |]. by vm_compute.
Defined.

Lemma nothing_is_remembered_unless_asked_witness :
  let e := november 1 in
  let s := toggleInfiniteMemory
             (run (U := latin1Ops)
                [(e, LoadNextInfiniteMovie); (e, CatalogAnswered 1 (inceptionWithId 2) false)]
                (session (U := latin1Ops) e firstWin)) in
  isInfiniteTab (activeTab s) = true
  ∧ infiniteMemoryEnabled s = false
  ∧ movie s = Some (inceptionWithId 2)
  ∧ ConfirmGiveUp ≠ ClearCache
  ∧ gameStatus (step (U := latin1Ops) e ConfirmGiveUp s) = lost
  ∧ seenStore (step (U := latin1Ops) e ConfirmGiveUp s) = seenStore s.
Proof.
  intros e s.
  assert (H1 : infiniteMemoryEnabled s = false) by by vm_compute.
  assert (H2 : ConfirmGiveUp ≠ ClearCache) by done.
  split; [by vm_compute |]. split; [exact H1 |]. split; [by vm_compute |].
  split; [exact H2 |]. split; [by vm_compute |].
  exact (nothing_is_remembered_unless_asked (U := latin1Ops) e ConfirmGiveUp s
           (or_intror H1) H2).
Defined.
